(** * Query resolution pipeline of the sales-analysis chatbot

    A shallow embedding of [sql_guard.py], [query_templates.py],
    [narration.py] and of [process_user_query] and the chat handler of
    [chatbot_app.py], followed by the properties of the guard, of the
    template resolver and of the orchestrator.  The client factory of
    [llm_client.py] and the choice of a chart of [viz.py] are embedded
    after them.

    - Python [str] values are sequences of Unicode code points, modelled
      as [list N]; literals are written as UTF-8 text and decoded by [py].
    - [str.upper], [str.lower] and the regex class [\w] consult the
      Unicode tables of the runtime; they are an interface
      ([UnicodeData]), and the properties hold for all tables that are
      the usual ones on ASCII ([faithful]).
    - An exception is a value: [SQLSecurityException] results are a sum,
      and calls to the language model and to the engine return an
      [outcome].
    - The state of the external services and the list of SQL strings
      handed to the engine are threaded through a small state monad. *)

From Stdlib Require Import Arith NArith List Bool String Ascii Lia.
Import ListNotations.
Local Open Scope N_scope.

(** ** Python strings *)

Module PyStr.

Definition str := list N.

(** Decoder of the UTF-8 bytes of a literal into code points. *)
Fixpoint utf8_decode (bs : list N) : str :=
  match bs with
  | [] => []
  | b0 :: r0 =>
      if b0 <? 0x80 then b0 :: utf8_decode r0
      else if b0 <? 0xE0 then
        match r0 with
        | b1 :: r1 => ((b0 - 0xC0) * 64 + (b1 - 0x80)) :: utf8_decode r1
        | _ => []
        end
      else if b0 <? 0xF0 then
        match r0 with
        | b1 :: b2 :: r2 =>
            ((b0 - 0xE0) * 4096 + (b1 - 0x80) * 64 + (b2 - 0x80))
              :: utf8_decode r2
        | _ => []
        end
      else
        match r0 with
        | b1 :: b2 :: b3 :: r3 =>
            ((b0 - 0xF0) * 262144 + (b1 - 0x80) * 4096
             + (b2 - 0x80) * 64 + (b3 - 0x80)) :: utf8_decode r3
        | _ => []
        end
  end.

Definition py (s : string) : str :=
  utf8_decode (map N_of_ascii (list_ascii_of_string s)).

Definition NL : N := 10.
Definition SP : N := 32.
Definition SEMI : N := 59.
Definition UNDERSCORE : N := 95.

(** [join sep parts] is [sep.join(parts)]. *)
Fixpoint join (sep : str) (parts : list str) : str :=
  match parts with
  | [] => []
  | [p] => p
  | p :: rest => p ++ sep ++ join sep rest
  end.

(** A triple-quoted literal, one list element per source line. *)
Definition lines (ls : list string) : str := join [NL] (map py ls).

Definition str_eqb (a b : str) : bool :=
  if list_eq_dec N.eq_dec a b then true else false.

(** [c.isspace()]: the code points Python treats as whitespace, which are
    also the ones [str.strip()] removes and [\s] matches on [str]
    patterns. *)
Definition isspace (c : N) : bool :=
  ((0x09 <=? c) && (c <=? 0x0D)) || ((0x1C <=? c) && (c <=? 0x20))
  || (c =? 0x85) || (c =? 0xA0) || (c =? 0x1680)
  || ((0x2000 <=? c) && (c <=? 0x200A))
  || (c =? 0x2028) || (c =? 0x2029) || (c =? 0x202F) || (c =? 0x205F)
  || (c =? 0x3000).

Fixpoint lstrip (s : str) : str :=
  match s with
  | c :: r => if isspace c then lstrip r else s
  | [] => []
  end.

(** Removal of the longest suffix whose characters satisfy [p]. *)
Fixpoint rstrip_by (p : N -> bool) (s : str) : str :=
  match s with
  | [] => []
  | c :: r =>
      match rstrip_by p r with
      | [] => if p c then [] else [c]
      | r' => c :: r'
      end
  end.

Definition rstrip (s : str) : str := rstrip_by isspace s.

(** [s.strip()] *)
Definition strip (s : str) : str := rstrip (lstrip s).

(** [s.startswith(p)], returning what follows the prefix. *)
Fixpoint strip_prefix (p s : str) : option str :=
  match p, s with
  | [], _ => Some s
  | a :: p', b :: s' => if a =? b then strip_prefix p' s' else None
  | _ :: _, [] => None
  end.

Definition startswith (s p : str) : bool :=
  match strip_prefix p s with Some _ => true | None => false end.

(** [sub in s] *)
Fixpoint contains (sub s : str) : bool :=
  startswith s sub
  || match s with
     | [] => false
     | _ :: r => contains sub r
     end.

(** The part of the Unicode character database the program consults
    through [str.upper], [str.lower] and the regex class [\w].  The tables
    are the runtime's, so they are an interface here; [str.upper] maps
    each code point on its own (to one or more code points), [str.lower]
    depends on context (final sigma) and is kept whole. *)
Class UnicodeData := {
  cp_upper : N -> list N;
  cp_isalnum : N -> bool;
  str_lower : str -> str
}.

Definition is_ascii_lower (c : N) : bool := (97 <=? c) && (c <=? 122).
Definition is_ascii_upper (c : N) : bool := (65 <=? c) && (c <=? 90).
Definition is_ascii_digit (c : N) : bool := (48 <=? c) && (c <=? 57).

(** The tables restricted to ASCII: every other code point is caseless
    and not alphanumeric. *)
Definition ascii_data : UnicodeData := {|
  cp_upper := fun c => [if is_ascii_lower c then c - 32 else c];
  cp_isalnum := fun c =>
    is_ascii_lower c || is_ascii_upper c || is_ascii_digit c;
  str_lower := map (fun c => if is_ascii_upper c then c + 32 else c)
|}.

(** What the properties below need of the tables: they are the usual ones
    on ASCII, and no whitespace character is alphanumeric. *)
Record faithful (U : UnicodeData) : Prop := {
  upper_on_ascii :
    forall c, c < 128 -> @cp_upper U c = @cp_upper ascii_data c;
  isalnum_on_ascii :
    forall c, c < 128 -> @cp_isalnum U c = @cp_isalnum ascii_data c;
  space_not_alnum :
    forall c, isspace c = true -> @cp_isalnum U c = false
}.

Section WithTables.
Context {U : UnicodeData}.

(** [s.upper()] *)
Definition upper (s : str) : str := flat_map cp_upper s.

(** [s.lower()] *)
Definition lower (s : str) : str := str_lower s.

(** The regex class [\w]. *)
Definition isword (c : N) : bool := cp_isalnum c || (c =? UNDERSCORE).
End WithTables.

End PyStr.

(** ** Python dicts

    A [dict] with string keys: the items in insertion order; assigning to
    a key that is present replaces its value in place. *)

Module PyDict.
Import PyStr.

Definition dict (V : Type) : Type := list (str * V).

(** [d[k] = v] *)
Fixpoint dict_set {V : Type} (d : dict V) (k : str) (v : V) : dict V :=
  match d with
  | [] => [(k, v)]
  | (k', v') :: rest =>
      if str_eqb k' k then (k', v) :: rest
      else (k', v') :: dict_set rest k v
  end.

(** [d.get(k)] *)
Fixpoint dict_get {V : Type} (d : dict V) (k : str) : option V :=
  match d with
  | [] => None
  | (k', v') :: rest => if str_eqb k' k then Some v' else dict_get rest k
  end.

(** [list(d)], the keys. *)
Definition dict_keys {V : Type} (d : dict V) : list str := map fst d.

End PyDict.

(** ** The regular expressions of the guard

    Each pattern of [sql_guard.py] is written out as the backtracking
    matcher Python's [re] runs for it: greedy repetitions give characters
    back one at a time, the lazy group grows one character at a time, and
    a scan resumes where the previous match ended. *)

Module Regex.
Import PyStr.

(** [re.sub(p+, ' ', s)] for a one-character class [p]: every maximal run
    becomes one space.  [in_run] tells that the previous character was
    part of a run. *)
Fixpoint sub_runs (p : N -> bool) (in_run : bool) (s : str) : str :=
  match s with
  | [] => []
  | c :: r =>
      if p c then (if in_run then sub_runs p true r
                   else SP :: sub_runs p true r)
      else c :: sub_runs p false r
  end.

(** [re.sub(r'\n+', ' ', s)] *)
Definition sub_newlines (s : str) : str := sub_runs (N.eqb NL) false s.

(** [re.sub(r'\s+', ' ', s)] *)
Definition sub_whitespace (s : str) : str := sub_runs isspace false s.

(** [re.sub(r';+$', '', s)]: without MULTILINE, [$] matches at the end of
    the string and just before a newline that ends it. *)
Definition sub_trailing_semicolons (s : str) : str :=
  if last s 0 =? NL
  then rstrip_by (N.eqb SEMI) (removelast s) ++ [NL]
  else rstrip_by (N.eqb SEMI) s.

(** The fenced block of [extract_sql_from_response],
    [```sql\s*(.*?)\s*```] under DOTALL and IGNORECASE.  Ignoring case,
    the letter s also matches U+017F; q and l only match their capitals. *)
Definition FENCE : str := py "```".

Definition tag_char (p c : N) : bool :=
  (c =? p) || (is_ascii_lower p && (c + 32 =? p))
  || ((p =? 115) && (c =? 0x17F)).

Fixpoint strip_prefix_ci (p s : str) : option str :=
  match p, s with
  | [], _ => Some s
  | a :: p', b :: s' => if tag_char a b then strip_prefix_ci p' s' else None
  | _ :: _, [] => None
  end.

(** [\s*```]: the whitespace is taken greedily, then given back. *)
Fixpoint ws_star_fence (s : str) : option str :=
  match s with
  | c :: r =>
      if isspace c
      then match ws_star_fence r with
           | Some rest => Some rest
           | None => strip_prefix FENCE s
           end
      else strip_prefix FENCE s
  | [] => strip_prefix FENCE s
  end.

(** [(.*?)\s*```]: the shortest group after which the rest matches.
    Result: the group and what follows the closing fence. *)
Fixpoint lazy_group (s : str) : option (str * str) :=
  match ws_star_fence s with
  | Some rest => Some ([], rest)
  | None =>
      match s with
      | c :: r =>
          match lazy_group r with
          | Some (g, rest) => Some (c :: g, rest)
          | None => None
          end
      | [] => None
      end
  end.

(** [\s*(.*?)\s*```] *)
Fixpoint ws_star_group (s : str) : option (str * str) :=
  match s with
  | c :: r =>
      if isspace c
      then match ws_star_group r with
           | Some m => Some m
           | None => lazy_group s
           end
      else lazy_group s
  | [] => lazy_group s
  end.

Definition match_sql_block (s : str) : option (str * str) :=
  match strip_prefix_ci (py "```sql") s with
  | Some r => ws_star_group r
  | None => None
  end.

(** [re.findall] of the block pattern: the groups of the successive
    matches, leftmost first. *)
Fixpoint findall_sql_blocks_from (fuel : nat) (s : str) : list str :=
  match fuel with
  | O => []
  | S f =>
      match match_sql_block s with
      | Some (g, rest) => g :: findall_sql_blocks_from f rest
      | None =>
          match s with
          | [] => []
          | _ :: r => findall_sql_blocks_from f r
          end
      end
  end.

Definition findall_sql_blocks (s : str) : list str :=
  findall_sql_blocks_from (S (List.length s)) s.

Section WithTables.
Context {U : UnicodeData}.

(** [\b] between two positions: exactly one side is a word character;
    outside the string counts as a non-word character. *)
Definition next_is_word (s : str) : bool :=
  match s with
  | c :: _ => isword c
  | [] => false
  end.

Definition at_boundary (prev_word : bool) (s : str) : bool :=
  xorb prev_word (next_is_word s).

(** [\bKW\b] tried at the head of [s]. *)
Definition match_word (kw : str) (prev_word : bool) (s : str) : bool :=
  at_boundary prev_word s
  && match strip_prefix kw s with
     | Some r => at_boundary (isword (last kw 0)) r
     | None => false
     end.

(** [re.search(r'\bKW\b', s)] succeeds. *)
Fixpoint search_word_from (kw : str) (prev_word : bool) (s : str) : bool :=
  match_word kw prev_word s
  || match s with
     | [] => false
     | c :: r => search_word_from kw (isword c) r
     end.

Definition search_word (kw s : str) : bool := search_word_from kw false s.

(** [(\w+)]: the longest run of word characters, at least one. *)
Fixpoint word_run (s : str) : str * str :=
  match s with
  | c :: r =>
      if isword c then let (t, rest) := word_run r in (c :: t, rest)
      else ([], s)
  | [] => ([], [])
  end.

Definition word_plus (s : str) : option (str * str) :=
  match word_run s with
  | ([], _) => None
  | (t, rest) => Some (t, rest)
  end.

(** [\s+(\w+)]: whitespace greedily, given back one at a time. *)
Fixpoint ws_plus_word (s : str) : option (str * str) :=
  match s with
  | c :: r =>
      if isspace c
      then match ws_plus_word r with
           | Some m => Some m
           | None => word_plus r
           end
      else None
  | [] => None
  end.

(** [KW\s+(\w+)] at the head of [s], preceded by [\b] when [bounded]. *)
Definition match_table (bounded : bool) (kw : str) (prev_word : bool)
    (s : str) : option (str * str) :=
  if bounded && negb (at_boundary prev_word s) then None
  else match strip_prefix kw s with
       | Some r => ws_plus_word r
       | None => None
       end.

(** [re.findall] of [\bKW\s+(\w+)] or [KW\s+(\w+)]: the captured
    tokens. *)
Fixpoint findall_table_from (bounded : bool) (kw : str) (fuel : nat)
    (prev_word : bool) (s : str) : list str :=
  match fuel with
  | O => []
  | S f =>
      match match_table bounded kw prev_word s with
      | Some (tok, rest) =>
          tok :: findall_table_from bounded kw f (isword (last tok 0)) rest
      | None =>
          match s with
          | [] => []
          | c :: r => findall_table_from bounded kw f (isword c) r
          end
      end
  end.

Definition findall_table (bounded : bool) (kw s : str) : list str :=
  findall_table_from bounded kw (S (List.length s)) false s.
End WithTables.

End Regex.

(** ** sql_guard.py *)

Module SqlGuard.
Import PyStr Regex.

(** The one exception class of the module, told apart by the message it
    is raised with. *)
Inductive SQLSecurityException : Type :=
| NoSqlBlockFound
| EmptyQuery
| NotASelect
| ForbiddenKeyword (keyword : str)
| MultipleStatements
| CommentInjection
| DisallowedTable (table : str)
| DisallowedJoin (join_table : str).

(** [str(e)] *)
Definition message (e : SQLSecurityException) : str :=
  match e with
  | NoSqlBlockFound => py "SQLコードブロックが見つかりません"
  | EmptyQuery => py "空のSQLクエリです"
  | NotASelect => py "SELECT文のみ許可されています"
  | ForbiddenKeyword kw => py "禁止されたキーワードが含まれています: " ++ kw
  | MultipleStatements => py "複数のSQL文は実行できません"
  | CommentInjection => py "SQLコメントは許可されていません"
  | DisallowedTable t =>
      py "salesテーブル以外のアクセスは禁止されています: " ++ t
  | DisallowedJoin t =>
      py "salesテーブル以外との結合は禁止されています: " ++ t
  end.

(** A call either raises ([inl]) or returns ([inr]). *)
Definition result (A : Type) : Type := (SQLSecurityException + A)%type.

(** [extract_sql_from_response] *)
Definition extract_sql_from_response (response : str) : option str :=
  match findall_sql_blocks response with
  | m :: _ => Some (strip m)
  | [] => None
  end.

Definition forbidden_keywords : list str :=
  map py ["INSERT"; "UPDATE"; "DELETE"; "DROP"; "ALTER"; "CREATE";
          "ATTACH"; "COPY"; "EXPORT"; "IMPORT"; "PRAGMA"; "CALL";
          "LOAD"; "SET"; "RESET"; "EXPLAIN"; "DESCRIBE"; "EXEC"]%string.

Definition SALES : str := py "SALES".

Section WithTables.
Context {U : UnicodeData}.

(** The loop over [forbidden_keywords]: the first keyword found. *)
Fixpoint first_forbidden (keywords : list str) (sql_upper : str)
    : option str :=
  match keywords with
  | [] => None
  | keyword :: rest =>
      if search_word keyword sql_upper then Some keyword
      else first_forbidden rest sql_upper
  end.

(** The loops over the captured table names: the first one whose upper
    case is not SALES. *)
Fixpoint first_not_sales (tables : list str) : option str :=
  match tables with
  | [] => None
  | table :: rest =>
      if str_eqb (upper table) SALES then first_not_sales rest
      else Some table
  end.

(** Lines 45-50 of [sanitize_sql]. *)
Definition normalize (sql : str) : str :=
  let sql_clean := strip sql in
  let sql_clean := sub_newlines sql_clean in
  let sql_clean := sub_trailing_semicolons sql_clean in
  sub_whitespace sql_clean.

(** Lines 52-91 of [sanitize_sql]. *)
Definition check (sql_clean : str) : result str :=
  if negb (startswith (strip (upper sql_clean)) (py "SELECT"))
  then inl NotASelect
  else
    let sql_upper := upper sql_clean in
    match first_forbidden forbidden_keywords sql_upper with
    | Some keyword => inl (ForbiddenKeyword keyword)
    | None =>
        if contains [SEMI] sql_clean then inl MultipleStatements
        else if contains (py "--") sql_clean
                || contains (py "/*") sql_clean
        then inl CommentInjection
        else
          match first_not_sales
                  (findall_table true (py "FROM") sql_upper) with
          | Some table => inl (DisallowedTable table)
          | None =>
              if search_word (py "JOIN") sql_upper
              then
                match first_not_sales
                        (findall_table false (py "JOIN") sql_upper) with
                | Some join_table => inl (DisallowedJoin join_table)
                | None => inr sql_clean
                end
              else inr sql_clean
          end
    end.

(** [sanitize_sql] *)
Definition sanitize_sql (sql : str) : result str :=
  match sql with
  | [] => inl EmptyQuery
  | _ :: _ => check (normalize sql)
  end.

(** [validate_and_sanitize_sql] *)
Definition validate_and_sanitize_sql (llm_response : str) : result str :=
  match extract_sql_from_response llm_response with
  | None | Some [] => inl NoSqlBlockFound
  | Some sql => sanitize_sql sql
  end.

(** [is_sql_safe] *)
Definition is_sql_safe (sql : str) : bool * str :=
  match sanitize_sql sql with
  | inr _ => (true, [])
  | inl e => (false, message e)
  end.
End WithTables.

End SqlGuard.

(** ** query_templates.py *)

Module QueryTemplates.
Import PyStr.

Record QueryTemplate : Type := {
  name : str;
  sql : str;
  description : str;
  keywords : list str
}.

(** [get_fallback_templates]; every [sql] is the stripped triple-quoted
    literal of the source. *)
Definition get_fallback_templates : list QueryTemplate :=
  [ {| name := py "月次カテゴリ別売上";
       sql := strip (lines
         [ "";
           "SELECT ";
           "    date_trunc('month', date) AS month,";
           "    category,";
           "    SUM(revenue) AS total_revenue,";
           "    SUM(units) AS total_units";
           "FROM sales ";
           "GROUP BY date_trunc('month', date), category";
           "ORDER BY month, category";
           "            " ]%string);
       description := py "月毎のカテゴリー別売上分析";
       keywords :=
         map py ["月"; "カテゴリ"; "月毎"; "月別"; "category"; "month"]%string |};
    {| name := py "チャネル別売上";
       sql := strip (lines
         [ "";
           "SELECT ";
           "    sales_channel,";
           "    SUM(revenue) AS total_revenue,";
           "    SUM(units) AS total_units,";
           "    COUNT(*) AS transaction_count";
           "FROM sales ";
           "GROUP BY sales_channel";
           "ORDER BY total_revenue DESC";
           "            " ]%string);
       description := py "販売チャネル別の売上分析";
       keywords :=
         map py ["チャネル"; "チャンネル"; "channel"; "販売"; "経路"]%string |};
    {| name := py "地域別売上";
       sql := strip (lines
         [ "";
           "SELECT ";
           "    region,";
           "    SUM(revenue) AS total_revenue,";
           "    SUM(units) AS total_units,";
           "    COUNT(*) AS transaction_count";
           "FROM sales ";
           "GROUP BY region";
           "ORDER BY total_revenue DESC";
           "            " ]%string);
       description := py "地域別の売上分析";
       keywords :=
         map py ["地域"; "地方"; "region"; "エリア"; "場所"]%string |};
    {| name := py "顧客セグメント別売上";
       sql := strip (lines
         [ "";
           "SELECT ";
           "    customer_segment,";
           "    SUM(revenue) AS total_revenue,";
           "    SUM(units) AS total_units,";
           "    COUNT(*) AS transaction_count";
           "FROM sales ";
           "GROUP BY customer_segment";
           "ORDER BY total_revenue DESC";
           "            " ]%string);
       description := py "顧客セグメント別の売上分析";
       keywords :=
         map py ["顧客"; "セグメント"; "segment"; "customer";
                 "クライアント"]%string |} ].

(** [get_default_query] *)
Definition get_default_query : str :=
  strip (lines
    [ "";
      "SELECT ";
      "    SUM(revenue) AS total_revenue,";
      "    SUM(units) AS total_units,";
      "    COUNT(*) AS total_transactions";
      "FROM sales";
      "    " ]%string).

(** The name returned with the default query. *)
Definition default_label : str := py "デフォルト（総売上）".

Section WithTables.
Context {U : UnicodeData}.

(** First inner loop of [find_best_template]: one point per keyword
    found in the lower-cased query. *)
Fixpoint count_matches (kws : list str) (user_query_lower : str)
    (score : nat) : nat :=
  match kws with
  | [] => score
  | keyword :: rest =>
      count_matches rest user_query_lower
        (if contains (lower keyword) user_query_lower
         then S score else score)
  end.

(** Second inner loop: one more point per keyword longer than three
    characters that is found. *)
Fixpoint count_bonus (kws : list str) (user_query_lower : str)
    (score : nat) : nat :=
  match kws with
  | [] => score
  | keyword :: rest =>
      count_bonus rest user_query_lower
        (if Nat.ltb 3 (List.length keyword)
            && contains (lower keyword) user_query_lower
         then S score else score)
  end.

Definition template_score (template : QueryTemplate)
    (user_query_lower : str) : nat :=
  count_bonus (keywords template) user_query_lower
    (count_matches (keywords template) user_query_lower 0).

(** The loop over the templates, on the pair
    [(best_template, max_score)]. *)
Fixpoint best_from (templates : list QueryTemplate)
    (user_query_lower : str) (best_template : option QueryTemplate)
    (max_score : nat) : option QueryTemplate * nat :=
  match templates with
  | [] => (best_template, max_score)
  | template :: rest =>
      let score := template_score template user_query_lower in
      if Nat.ltb max_score score
      then best_from rest user_query_lower (Some template) score
      else best_from rest user_query_lower best_template max_score
  end.

(** [find_best_template] over a registry; the second component is the
    value handed back as template name. *)
Definition find_best_in (templates : list QueryTemplate)
    (user_query : str) : str * option str :=
  let user_query_lower := lower user_query in
  match best_from templates user_query_lower None 0 with
  | (None, _) => (get_default_query, Some default_label)
  | (Some best_template, max_score) =>
      if Nat.eqb max_score 0
      then (get_default_query, Some default_label)
      else (sql best_template, Some (name best_template))
  end.

(** [find_best_template] *)
Definition find_best_template (user_query : str) : str * option str :=
  find_best_in get_fallback_templates user_query.
End WithTables.

(** [get_template_by_name] over a registry: the SQL of the first template
    with that name, the default query when there is none. *)
Fixpoint get_template_by_name_in (templates : list QueryTemplate)
    (template_name : str) : str :=
  match templates with
  | [] => get_default_query
  | template :: rest =>
      if str_eqb (name template) template_name then sql template
      else get_template_by_name_in rest template_name
  end.

(** [get_template_by_name] *)
Definition get_template_by_name (template_name : str) : str :=
  get_template_by_name_in get_fallback_templates template_name.

(** The dict comprehension of [list_available_templates] over a
    registry. *)
Definition list_available_in (templates : list QueryTemplate)
    : PyDict.dict str :=
  fold_left
    (fun d template =>
       PyDict.dict_set d (name template) (description template))
    templates [].

(** [list_available_templates] *)
Definition list_available_templates : PyDict.dict str :=
  list_available_in get_fallback_templates.

End QueryTemplates.

(** ** Collaborators and effects

    The Language Model Service and the Analytics Engine are external: a
    call reads and changes their state [W] and either returns or raises an
    [Exception] with a message.  The pipeline threads that state and
    records every SQL string handed to the engine.  Streamlit display
    calls are not part of the model. *)

Module Effects.
Import PyStr.

Inductive outcome (A : Type) : Type :=
| Returned (value : A)
| Raised (msg : str).
Arguments Returned {A} value.
Arguments Raised {A} msg.

(** A result table: its column labels and its rows.  [pd.DataFrame()] has
    neither. *)
Record DataFrame (row : Type) : Type := {
  df_columns : list str;
  df_rows : list row
}.
Arguments df_columns {row} d.
Arguments df_rows {row} d.

Definition empty_frame {row : Type} : DataFrame row :=
  {| df_columns := []; df_rows := [] |}.

(** [df.empty]: some axis has length 0. *)
Definition df_empty {row : Type} (d : DataFrame row) : bool :=
  Nat.eqb (List.length (df_columns d)) 0
  || Nat.eqb (List.length (df_rows d)) 0.

Record world (W : Type) : Type := {
  services : W;
  engine_log : list str
}.
Arguments services {W} w.
Arguments engine_log {W} w.

Definition M (W A : Type) : Type := world W -> A * world W.

Definition ret {W A : Type} (a : A) : M W A := fun w => (a, w).

Definition bind {W A B : Type} (c : M W A) (k : A -> M W B) : M W B :=
  fun w => let (a, w') := c w in k a w'.

(** A call to a collaborator. *)
Definition call {W A : Type} (f : W -> outcome A * W) : M W (outcome A) :=
  fun w =>
    let (r, s) := f (services w) in
    (r, {| services := s; engine_log := engine_log w |}).

(** Note that [sql] is handed to the engine. *)
Definition log_sql {W : Type} (sql : str) : M W unit :=
  fun w =>
    (tt, {| services := services w; engine_log := engine_log w ++ [sql] |}).

(** The abstract class [LLMClient] of llm_client.py. *)
Record LLMClient (W : Type) : Type := {
  generate_sql : str -> str -> W -> outcome str * W;
  generate_summary : str -> str -> str -> W -> outcome str * W
}.
Arguments generate_sql {W} l user_query schema_info w.
Arguments generate_summary {W} l query sql result_csv w.

End Effects.

Declare Scope pipeline_scope.
Delimit Scope pipeline_scope with pipeline.
Notation "x <- c1 ;; c2" := (Effects.bind c1 (fun x => c2))
  (at level 61, c1 at next level, right associativity) : pipeline_scope.

(** ** narration.py *)

Module Narration.
Import PyStr Effects.
Local Open Scope pipeline_scope.

(** Decimal digits of [n], least significant first. *)
Fixpoint digits_rev (fuel : nat) (n : N) : list N :=
  match fuel with
  | O => []
  | S f =>
      (48 + n mod 10)
        :: (if n / 10 =? 0 then [] else digits_rev f (n / 10))
  end.

(** A comma before every fourth digit; [k] digits since the last one. *)
Fixpoint group3 (k : nat) (ds : list N) : list N :=
  match ds with
  | [] => []
  | d :: r =>
      if Nat.eqb k 3 then 44 :: d :: group3 1 r else d :: group3 (S k) r
  end.

(** [f"{n:,}"] *)
Definition format_thousands (n : nat) : str :=
  rev (group3 0 (digits_rev (S (N.size_nat (N.of_nat n))) (N.of_nat n))).

(** [if template_name:] is false on [None] and on the empty string. *)
Definition truthy (template_name : option str) : option str :=
  match template_name with
  | Some (c :: t) => Some (c :: t)
  | _ => None
  end.

Section Summaries.
Context {W row : Type}.

(** pandas computations on floating-point columns, kept abstract:
    [result_df.head(200).to_csv(index=False)], the lines of the loop
    over numeric columns, and the line of the loop over object
    columns. *)
Variable to_csv_head : DataFrame row -> str.
Variable numeric_lines : DataFrame row -> list str.
Variable categorical_lines : DataFrame row -> list str.

(** [generate_summary_with_llm]: every exception is turned into a
    returned message. *)
Definition generate_summary_with_llm (llm_client : LLMClient W)
    (user_query sql : str) (result_df : DataFrame row)
    : M W (outcome str) :=
  let result_csv := to_csv_head result_df in
  r <- call (generate_summary llm_client user_query sql result_csv) ;;
  match r with
  | Returned summary => ret (Returned summary)
  | Raised e =>
      ret (Returned (py "サマリー生成中にエラーが発生しました: " ++ e))
  end.

(** [create_fallback_summary] *)
Definition create_fallback_summary (user_query sql : str)
    (result_df : DataFrame row) (template_name : option str) : str :=
  if df_empty result_df
  then py "• 指定された条件に該当するデータが見つかりませんでした"
  else
    join [NL]
      ([py "• " ++ format_thousands (List.length (df_rows result_df))
          ++ py " 件のレコードが該当しました"]
       ++ numeric_lines result_df
       ++ categorical_lines result_df
       ++ match truthy template_name with
          | Some t =>
              [py "• 【注記】定型クエリ「" ++ t
                 ++ py "」を使用して分析しました"]
          | None => []
          end).

(** [generate_analysis_summary] *)
Definition generate_analysis_summary (llm_client : option (LLMClient W))
    (user_query sql : str) (result_df : DataFrame row)
    (is_fallback : bool) (template_name : option str) : M W str :=
  if df_empty result_df
  then ret (create_fallback_summary user_query sql result_df template_name)
  else
    match llm_client, is_fallback with
    | Some client, false =>
        r <- generate_summary_with_llm client user_query sql result_df ;;
        match r with
        | Returned llm_summary =>
            ret match truthy template_name with
                | Some t =>
                    llm_summary ++ [NL; NL] ++ py "【注記】定型クエリ「" ++ t
                      ++ py "」を使用して分析しました"
                | None => llm_summary
                end
        | Raised _ =>
            ret (create_fallback_summary user_query sql result_df
                   template_name)
        end
    | _, _ =>
        ret (create_fallback_summary user_query sql result_df
               template_name)
    end.
End Summaries.

End Narration.

(** ** chatbot_app.py *)

Module ChatbotApp.
Import PyStr Effects SqlGuard QueryTemplates Narration.
Local Open Scope pipeline_scope.

Section App.
Context {U : UnicodeData} {W row : Type}.

(** The module-level state: the loaded data, the client and the
    connection, and the pandas text of the schema prompt (which may
    raise, for instance without a [date] column). *)
Variable sales_data : option (DataFrame row).
Variable llm_client : option (LLMClient W).
Variable db_execute : str -> W -> outcome (DataFrame row) * W.
Variable schema_info : DataFrame row -> outcome str.
Variable to_csv_head : DataFrame row -> str.
Variable numeric_lines : DataFrame row -> list str.
Variable categorical_lines : DataFrame row -> list str.

(** [execute_sql_query]: an engine error becomes an empty table. *)
Definition execute_sql_query (sql : str) : M W (DataFrame row) :=
  _ <- log_sql sql ;;
  r <- call (db_execute sql) ;;
  match r with
  | Returned result => ret result
  | Raised _ => ret empty_frame
  end.

(** The [try] block of [process_user_query] with its two handlers:
    [(executed_sql, result_df, is_fallback)] after it. *)
Definition generate_and_run (data : DataFrame row) (user_query : str)
    : M W (option str * DataFrame row * bool) :=
  match llm_client with
  | Some client =>
      match schema_info data with
      | Raised _ => ret (None, empty_frame, true)
      | Returned schema =>
          r <- call (generate_sql client user_query schema) ;;
          match r with
          | Raised _ => ret (None, empty_frame, true)
          | Returned llm_response =>
              match validate_and_sanitize_sql llm_response with
              | inl _ => ret (None, empty_frame, true)
              | inr executed_sql =>
                  result_df <- execute_sql_query executed_sql ;;
                  ret (Some executed_sql, result_df, false)
              end
          end
      end
  | None => ret (None, empty_frame, true)
  end.

(** [process_user_query]:
    [(executed_sql, result_df, is_fallback, template_name)]. *)
Definition process_user_query (user_query : str)
    : M W (option str * DataFrame row * bool * option str) :=
  match sales_data with
  | None =>
      ret (Some (py "データが読み込まれていません。"), empty_frame, true,
           None)
  | Some data =>
      attempt <- generate_and_run data user_query ;;
      let '(executed_sql, result_df, is_fallback) := attempt in
      if is_fallback || df_empty result_df
      then
        let (template_sql, template_name) :=
          find_best_template user_query in
        result_df <- execute_sql_query template_sql ;;
        ret (Some template_sql, result_df, true, template_name)
      else ret (executed_sql, result_df, is_fallback, None)
  end.

(** The chat handler, lines 131-155: the text of the reply. *)
Definition respond (prompt : str) : M W str :=
  r <- process_user_query prompt ;;
  let '(executed_sql, result_df, is_fallback, template_name) := r in
  match truthy executed_sql with
  | Some sql =>
      if negb (df_empty result_df)
      then
        summary <- generate_analysis_summary to_csv_head numeric_lines
                     categorical_lines llm_client prompt sql result_df
                     is_fallback template_name ;;
        ret (py "分析を完了しました。" ++ [NL; NL] ++ summary)
      else
        ret (py "該当するデータが見つかりませんでした。条件を変更して再度お試しください。")
  | None =>
      ret (py "申し訳ございません。分析の実行中にエラーが発生しました。")
  end.
End App.

End ChatbotApp.

(** ** llm_client.py: the client factory *)

Module LlmClient.
Import PyStr Effects.

Section Factory.
Context {U : UnicodeData} {C : Type}.

(** The process environment: [os.getenv(name)]. *)
Variable getenv : str -> option str.

(** The constructors [OpenAIClient()] and [AnthropicClient()]; they read
    the environment themselves and may raise. *)
Variable OpenAIClient : outcome C.
Variable AnthropicClient : outcome C.

(** [os.getenv(name, default)] *)
Definition getenv_or (name default : str) : str :=
  match getenv name with
  | Some value => value
  | None => default
  end.

(** [not os.getenv(name)]: the variable is unset or empty. *)
Definition env_missing (name : str) : bool :=
  match getenv name with
  | Some (_ :: _) => false
  | _ => true
  end.

(** The provider read by [create_llm_client]. *)
Definition provider : str :=
  lower (getenv_or (py "PROVIDER") (py "openai")).

(** The [try] block of [create_llm_client]. *)
Definition create_llm_client_try : outcome C :=
  if str_eqb provider (py "openai") then
    if env_missing (py "OPENAI_API_KEY")
    then Raised (py "OPENAI_API_KEYが設定されていません")
    else OpenAIClient
  else if str_eqb provider (py "anthropic") then
    if env_missing (py "ANTHROPIC_API_KEY")
    then Raised (py "ANTHROPIC_API_KEYが設定されていません")
    else AnthropicClient
  else Raised (py "未対応のプロバイダー: " ++ provider).

(** [create_llm_client]: every exception gives [None]. *)
Definition create_llm_client : option C :=
  match create_llm_client_try with
  | Returned client => Some client
  | Raised _ => None
  end.
End Factory.

End LlmClient.

(** ** viz.py: the choice of a chart

    A figure is the plotly call that makes it, with the columns it is
    given and its title; the rows plotted are left out.  The calls into
    pandas and plotly are parameters: the dtype tests on a column, which
    answer for every column, and the calls that can raise, each with the
    exception it raises. *)

Declare Scope viz_scope.
Delimit Scope viz_scope with viz.

Module Viz.
Import PyStr PyDict Effects.

(** The type names ['datetime'], ['numeric'] and ['categorical']. *)
Inductive ColumnType : Type := datetime | numeric | categorical.

Definition ColumnType_eqb (a b : ColumnType) : bool :=
  match a, b with
  | datetime, datetime | numeric, numeric | categorical, categorical => true
  | _, _ => false
  end.

Inductive Figure : Type :=
| px_line (x y : str) (color : option str) (title : str)
| px_bar (x y : str) (color : option str) (title : str)
| px_scatter (x y : str) (title : str)
| px_histogram (x : str) (title : str).

(** The keyword arguments of [fig.update_layout]; [tilted] stands for
    [xaxis_tickangle=-45] and its absence for [0]. *)
Record Layout : Type := {
  xaxis_title : str;
  yaxis_title : str;
  hovermode : option str;
  xaxis_tickangle : option bool;
  barmode : option str
}.

Definition IndexError : str := py "list index out of range".

(** [l[i]] *)
Definition item (l : list str) (i : nat) : outcome str :=
  match nth_error l i with
  | Some x => Returned x
  | None => Raised IndexError
  end.

(** [title or default] *)
Definition title_or (title default : str) : str :=
  match title with
  | [] => default
  | _ :: _ => title
  end.

(** One statement after another: an exception ends the function. *)
Definition and_then {A B : Type} (r : outcome A) (k : A -> outcome B)
    : outcome B :=
  match r with
  | Returned a => k a
  | Raised e => Raised e
  end.

Notation "x <~ c1 ;; c2" := (and_then c1 (fun x => c2))
  (at level 61, c1 at next level, right associativity) : viz_scope.
Local Open Scope viz_scope.

Section Charts.
Context {row : Type}.

(** [pd.api.types.is_datetime64_any_dtype(df[col])] and
    [pd.api.types.is_numeric_dtype(df[col])]. *)
Variable is_datetime64_any_dtype : DataFrame row -> str -> bool.
Variable is_numeric_dtype : DataFrame row -> str -> bool.

(** What the plotly express call of a figure raises on a table, if it
    raises (for instance on repeated column labels), and what
    [fig.update_layout] raises. *)
Variable px_raises : DataFrame row -> Figure -> option str.
Variable update_layout_raises : Figure -> Layout -> option str.

(** [df.nlargest(n, col)]; the truth value of [df[col].nunique() > n];
    and the rows of the fifteen largest categories, lines 163-164. *)
Variable nlargest : DataFrame row -> nat -> str -> outcome (DataFrame row).
Variable nunique_exceeds : DataFrame row -> str -> nat -> outcome bool.
Variable top_categories :
  DataFrame row -> str -> str -> outcome (DataFrame row).

(** [px.line], [px.bar], [px.scatter] and [px.histogram]. *)
Definition px (df : DataFrame row) (fig : Figure) : outcome Figure :=
  match px_raises df fig with
  | Some e => Raised e
  | None => Returned fig
  end.

(** [fig.update_layout(...)], followed by [return fig]. *)
Definition update_layout (fig : Figure) (layout : Layout)
    : outcome Figure :=
  match update_layout_raises fig layout with
  | Some e => Raised e
  | None => Returned fig
  end.

(** [create_timeseries_chart] *)
Definition create_timeseries_chart (df : DataFrame row) (time_col : str)
    (numeric_cols categorical_cols : list str) (title : str)
    : outcome Figure :=
  primary_numeric <~ item numeric_cols 0 ;;
  fig <~ match categorical_cols with
         | _ :: _ =>
             color_col <~ item categorical_cols 0 ;;
             px df
               (px_line time_col primary_numeric (Some color_col)
                  (title_or title
                     (primary_numeric ++ py "の時系列推移（" ++ color_col
                        ++ py "別）")))
         | [] =>
             px df
               (px_line time_col primary_numeric None
                  (title_or title (primary_numeric ++ py "の時系列推移")))
         end ;;
  update_layout fig
    {| xaxis_title := time_col;
       yaxis_title := primary_numeric;
       hovermode := Some (py "x unified");
       xaxis_tickangle := None;
       barmode := None |}.

(** [create_bar_chart] *)
Definition create_bar_chart (df : DataFrame row)
    (category_col numeric_col title : str) : outcome Figure :=
  df_plot <~ (if Nat.ltb 20 (List.length (df_rows df))
              then nlargest df 20 numeric_col
              else Returned df) ;;
  fig <~ px df_plot
           (px_bar category_col numeric_col None
              (title_or title (category_col ++ py "別 " ++ numeric_col))) ;;
  update_layout fig
    {| xaxis_title := category_col;
       yaxis_title := numeric_col;
       hovermode := None;
       xaxis_tickangle := Some (Nat.ltb 10 (List.length (df_rows df_plot)));
       barmode := None |}.

(** [create_stacked_bar_chart] *)
Definition create_stacked_bar_chart (df : DataFrame row)
    (category_cols : list str) (numeric_col title : str)
    : outcome Figure :=
  x_col <~ item category_cols 0 ;;
  color_col <~ item category_cols 1 ;;
  many <~ nunique_exceeds df x_col 15 ;;
  df_plot <~ (if many then top_categories df x_col numeric_col
              else Returned df) ;;
  fig <~ px df_plot
           (px_bar x_col numeric_col (Some color_col)
              (title_or title
                 (x_col ++ py "別 " ++ numeric_col ++ py "（" ++ color_col
                    ++ py "別）"))) ;;
  crowded <~ nunique_exceeds df_plot x_col 10 ;;
  update_layout fig
    {| xaxis_title := x_col;
       yaxis_title := numeric_col;
       hovermode := None;
       xaxis_tickangle := Some crowded;
       barmode := Some (py "stack") |}.

(** [create_numeric_chart] *)
Definition create_numeric_chart (df : DataFrame row)
    (numeric_cols : list str) (title : str) : outcome Figure :=
  if Nat.leb 2 (List.length numeric_cols) then
    x <~ item numeric_cols 0 ;;
    y <~ item numeric_cols 1 ;;
    px df (px_scatter x y (title_or title (x ++ py " vs " ++ y)))
  else
    x <~ item numeric_cols 0 ;;
    px df (px_histogram x (title_or title (x ++ py "の分布"))).

(** The body of the loop of [detect_column_types]. *)
Definition column_type (df : DataFrame row) (col : str) : ColumnType :=
  if is_datetime64_any_dtype df col then datetime
  else if is_numeric_dtype df col then numeric
  else categorical.

(** [detect_column_types] *)
Definition detect_column_types (df : DataFrame row) : dict ColumnType :=
  fold_left
    (fun column_types col => dict_set column_types col (column_type df col))
    (df_columns df) [].

(** [[col for col, typ in column_types.items() if typ == t]] *)
Definition columns_of (t : ColumnType) (column_types : dict ColumnType)
    : list str :=
  map fst (filter (fun it => ColumnType_eqb (snd it) t) column_types).

(** [return helper(...)] *)
Definition some_figure (r : outcome Figure) : outcome (option Figure) :=
  fig <~ r ;; Returned (Some fig).

(** [create_automatic_visualization] *)
Definition create_automatic_visualization (df : DataFrame row)
    (title : str) : outcome (option Figure) :=
  if df_empty df then Returned None
  else
    let column_types := detect_column_types df in
    let datetime_cols := columns_of datetime column_types in
    let numeric_cols := columns_of numeric column_types in
    let categorical_cols := columns_of categorical column_types in
    if Nat.ltb (List.length (df_rows df)) 2 then Returned None
    else if Nat.leb 1 (List.length datetime_cols)
            && Nat.leb 1 (List.length numeric_cols)
    then
      time_col <~ item datetime_cols 0 ;;
      some_figure
        (create_timeseries_chart df time_col numeric_cols
           categorical_cols title)
    else if Nat.leb 2 (List.length categorical_cols)
            && Nat.leb 1 (List.length numeric_cols)
    then
      numeric_col <~ item numeric_cols 0 ;;
      some_figure
        (create_stacked_bar_chart df (firstn 2 categorical_cols)
           numeric_col title)
    else if Nat.leb 1 (List.length categorical_cols)
            && Nat.leb 1 (List.length numeric_cols)
    then
      category_col <~ item categorical_cols 0 ;;
      numeric_col <~ item numeric_cols 0 ;;
      some_figure (create_bar_chart df category_col numeric_col title)
    else if Nat.leb 2 (List.length numeric_cols)
    then some_figure (create_numeric_chart df numeric_cols title)
    else Returned None.
End Charts.

End Viz.

(** ** Notions used to state the properties *)

Module Spec.
Import PyStr Regex SqlGuard QueryTemplates Effects.

Definition is_ascii (s : str) : bool := forallb (fun c => c <? 128) s.

(** [sub] occurs in [s]. *)
Definition occurs (sub s : str) : Prop :=
  exists pre post, s = pre ++ sub ++ post.

(** *** The guard *)

(** The normal form in the order the specification lists its steps:
    newline runs collapsed, trailing semicolons stripped, whitespace runs
    collapsed, trimmed.  ([sanitize_sql] trims first.) *)
Definition spec_normalize (sql : str) : str :=
  strip (sub_whitespace (sub_trailing_semicolons (sub_newlines sql))).

(** Every whitespace character of [s] is a space, and no two spaces are
    adjacent; [prev_space] tells that a space precedes [s]. *)
Fixpoint single_spaced_from (prev_space : bool) (s : str) : bool :=
  match s with
  | [] => true
  | c :: r =>
      if isspace c
      then (c =? SP) && negb prev_space && single_spaced_from true r
      else single_spaced_from false r
  end.

Definition single_spaced (s : str) : bool := single_spaced_from false s.

(** A match [(token, rest)] after a space is appended to the string. *)
Definition snoc_rest (m : str * str) : str * str :=
  (fst m, snd m ++ [SP]).

(** A fenced SQL block opens at the head of [s]: the tag of the block
    pattern matches there. *)
Definition opens_sql_block (s : str) : bool :=
  match strip_prefix_ci (py "```sql") s with
  | Some _ => true
  | None => false
  end.

Section Tables.
Context {U : UnicodeData}.

(** Whether the character before a position is a word character: the last
    character of [pre], and [before] when [pre] is empty. *)
Definition prev_word (before : bool) (pre : str) : bool :=
  match pre with
  | [] => before
  | _ :: _ => isword (last pre 0)
  end.

(** [t] is a table named after the keyword [kw] in [u], in the sense of
    the specification (the word token following the keyword): the
    keyword is not preceded by a word character and is followed by
    whitespace and then by the whole word token [t]. *)
Definition names_table (kw u t : str) : Prop :=
  exists pre ws post,
    u = pre ++ kw ++ ws ++ t ++ post
    /\ prev_word false pre = false
    /\ ws <> [] /\ forallb isspace ws = true
    /\ t <> [] /\ forallb isword t = true
    /\ next_is_word post = false.

(** What the guard ensures of a query [r] it returns: no semicolon, no
    comment opener, and only the allowed table named after FROM or JOIN.
    The guard reads the query in upper case, so tables are compared
    without regard to case. *)
Definition clean (r : str) : Prop :=
  ~ In SEMI r
  /\ ~ occurs (py "--") r
  /\ ~ occurs (py "/*") r
  /\ (forall t, names_table (py "FROM") (upper r) t -> upper t = SALES)
  /\ (forall t, names_table (py "JOIN") (upper r) t -> upper t = SALES).
End Tables.

(** A candidate whose FROM clause lists a second table after a comma,
    and a model response carrying it in a fenced block. *)
Definition listed_candidate : str := py "SELECT * FROM sales, secrets".

Definition listed_response : str :=
  lines ["```sql"; "SELECT * FROM sales, secrets"; "```"]%string.

(** A model response carrying the candidate [;]. *)
Definition semicolon_response : str :=
  lines ["```sql"; ";"; "```"]%string.

(** A candidate with a space before its final semicolon, a model response
    carrying it, the string the guard returns for it, and that string
    without its final space. *)
Definition spaced_candidate : str := py "SELECT region FROM sales ;".

Definition spaced_response : str :=
  lines ["```sql"; "SELECT region FROM sales ;"; "```"]%string.

Definition spaced_query : str := py "SELECT region FROM sales ".

(** A model response with two fenced SQL blocks: a query, then a block
    that holds nothing. *)
Definition two_block_response : str :=
  lines ["```sql"; "SELECT region FROM sales"; "```"; "```sql";
         "```"]%string.

Definition trimmed_query : str := py "SELECT region FROM sales".

(** The scenario of the specification with a second statement: the
    candidate and a model response carrying it in a fenced block. *)
Definition drop_candidate : str := py "SELECT * FROM sales; DROP TABLE sales".

Definition drop_response : str :=
  lines ["```sql"; "SELECT * FROM sales; DROP TABLE sales"; "```"]%string.

(** *** The resolver *)

Section Scoring.
Context {U : UnicodeData}.

(** The score as the specification words it: a keyword found in the
    lower-cased text counts 1, and 2 when it is longer than three
    characters. *)
Definition keyword_points (user_query_lower keyword : str) : nat :=
  if contains (lower keyword) user_query_lower
  then (if Nat.ltb 3 (List.length keyword) then 2 else 1)
  else 0.

Definition spec_score (template : QueryTemplate) (user_query_lower : str)
    : nat :=
  list_sum (map (keyword_points user_query_lower) (keywords template)).

(** No keyword of any template of the registry occurs in the query. *)
Definition no_keyword_occurs (user_query : str) : bool :=
  forallb
    (fun template =>
       forallb
         (fun keyword =>
            negb (contains (lower keyword) (lower user_query)))
         (keywords template))
    get_fallback_templates.
End Scoring.

(** The SQL that can come from the resolver: the registry's queries and
    the default one. *)
Definition template_queries : list str :=
  map sql get_fallback_templates ++ [get_default_query].

(** *** A small world for the scenarios

    Services without state, a table of one column and no row, a table of
    one column and one row, a client whose SQL is valid and whose summary
    call fails, and an engine that finds no row for the model's query. *)

Definition no_rows : DataFrame unit :=
  {| df_columns := [py "total_revenue"]; df_rows := [] |}.

Definition one_row : DataFrame unit :=
  {| df_columns := [py "total_revenue"]; df_rows := [tt] |}.

Definition vacuous_sql : str := py "SELECT revenue FROM sales WHERE 1 = 0".

Definition scenario_client : LLMClient unit :=
  {| generate_sql := fun _ _ w =>
       (Returned (lines ["```sql";
                         "SELECT revenue FROM sales WHERE 1 = 0";
                         "```"]%string), w);
     generate_summary := fun _ _ _ w => (Raised (py "timeout"), w) |}.

Definition scenario_engine (sql : str) (w : unit)
    : outcome (DataFrame unit) * unit :=
  (Returned (if str_eqb sql vacuous_sql then no_rows else one_row), w).

Definition scenario_world : world unit :=
  {| services := tt; engine_log := [] |}.

End Spec.

(** ** Further notions *)

Module Notions.
Import PyStr PyDict Regex SqlGuard QueryTemplates Effects Spec.
Import LlmClient Viz.

(** The strings of [l] are pairwise different. *)
Fixpoint distinct (l : list str) : bool :=
  match l with
  | [] => true
  | x :: rest => negb (existsb (str_eqb x) rest) && distinct rest
  end.

Definition nonspace (c : N) : bool := negb (isspace c).

(** The tag of a fenced SQL block opens somewhere in [s]. *)
Fixpoint mentions_sql_tag (s : str) : bool :=
  opens_sql_block s
  || match s with
     | [] => false
     | _ :: r => mentions_sql_tag r
     end.

(** A keyword of ASCII characters that begins and ends with a word
    character. *)
Definition word_shaped (kw : str) : bool :=
  match kw with
  | [] => false
  | k0 :: _ =>
      (k0 <? 128) && (last kw 0 <? 128)
      && @isword ascii_data k0 && @isword ascii_data (last kw 0)
  end.

Section Words.
Context {U : UnicodeData}.

(** [kw] occurs in [u] as a whole word: no word character stands
    before or after the occurrence. *)
Definition whole_word (kw u : str) : Prop :=
  exists pre post,
    u = pre ++ kw ++ post
    /\ prev_word false pre = false
    /\ next_is_word post = false.

(** [t] is a whole word token that follows an occurrence of [kw] in [u]
    after whitespace; the occurrence of [kw] may be the end of a longer
    word. *)
Definition follows_keyword (kw u t : str) : Prop :=
  exists pre ws post,
    u = pre ++ kw ++ ws ++ t ++ post
    /\ ws <> [] /\ forallb isspace ws = true
    /\ t <> [] /\ forallb isword t = true
    /\ next_is_word post = false.

(** What an error raised by [sanitize_sql] on [sql] says, read on the
    normal form of [sql]. *)
Definition rejection_holds (sql : str) (e : SQLSecurityException) : Prop :=
  let n := normalize sql in
  match e with
  | NoSqlBlockFound => False
  | EmptyQuery => sql = []
  | NotASelect =>
      sql <> [] /\ startswith (strip (upper n)) (py "SELECT") = false
  | ForbiddenKeyword k =>
      exists before after,
        forbidden_keywords = before ++ k :: after
        /\ whole_word k (upper n)
        /\ forall kw, In kw before -> ~ whole_word kw (upper n)
  | MultipleStatements => In SEMI n
  | CommentInjection => occurs (py "--") n \/ occurs (py "/*") n
  | DisallowedTable t =>
      names_table (py "FROM") (upper n) t /\ upper t <> SALES
  | DisallowedJoin t =>
      whole_word (py "JOIN") (upper n)
      /\ follows_keyword (py "JOIN") (upper n) t
      /\ upper t <> SALES
  end.
End Words.

(** *** Numbers in the summary *)

Definition COMMA : N := 44.

Definition not_comma (c : N) : bool := negb (c =? COMMA).

(** The number written by decimal digits, most significant first, and
    least significant first. *)
Definition parse_decimal (s : str) : N :=
  fold_left (fun acc d => 10 * acc + (d - 48)) s 0.

Definition value_rev (ds : list N) : N :=
  fold_right (fun d acc => (d - 48) + 10 * acc) 0 ds.

Definition bullet : str := py "• ".

Definition records_found : str := py " 件のレコードが該当しました".

(** *** The orchestrator *)

Section Steps.
Context {U : UnicodeData} {W row : Type}.
Variable llm_client : option (LLMClient W).
Variable db_execute : str -> W -> outcome (DataFrame row) * W.
Variable schema_info : DataFrame row -> outcome str.

(** The fallback step of [process_user_query], run from the world [w1]:
    the template resolved for the query is executed and returned. *)
Definition run_template (user_query : str) (w1 : world W)
    : (option str * DataFrame row * bool * option str) * world W :=
  let resolved := find_best_template user_query in
  let r := ChatbotApp.execute_sql_query db_execute (fst resolved) w1 in
  ((Some (fst resolved), fst r, true, snd resolved), snd r).

(** No SQL of the model reaches the engine: there is no client, the
    schema text cannot be built, the model call raises, or the guard
    rejects the response.  [s1] is the state of the services after
    that. *)
Definition generation_fails (data : DataFrame row) (user_query : str)
    (s0 s1 : W) : Prop :=
  match llm_client with
  | None => s1 = s0
  | Some client =>
      match schema_info data with
      | Raised _ => s1 = s0
      | Returned schema =>
          match generate_sql client user_query schema s0 with
          | (Raised _, s) => s1 = s
          | (Returned llm_response, s) =>
              s1 = s
              /\ exists e, validate_and_sanitize_sql llm_response = inl e
          end
      end
  end.
End Steps.




Definition data_not_loaded : str := py "データが読み込まれていません。".

(** A client whose SQL is rejected by the guard. *)
Definition rejected_client : LLMClient unit :=
  {| generate_sql := fun _ _ w =>
       (Returned (lines ["```sql";
                         "SELECT * FROM sales; DROP TABLE sales";
                         "```"]%string), w);
     generate_summary := fun _ _ _ w => (Returned (py "ok"), w) |}.

(** A client whose SQL passes the guard and whose summary call
    returns, and an engine that finds one row. *)
Definition helpful_client : LLMClient unit :=
  {| generate_sql := fun _ _ w =>
       (Returned (lines ["```sql";
                         "SELECT region FROM sales";
                         "```"]%string), w);
     generate_summary := fun _ _ _ w => (Returned (py "ok"), w) |}.

Definition one_row_engine (sql : str) (w : unit)
    : outcome (DataFrame unit) * unit :=
  (Returned one_row, w).

(** An engine that raises on the query of [helpful_client]. *)
Definition failing_engine (sql : str) (w : unit)
    : outcome (DataFrame unit) * unit :=
  if str_eqb sql trimmed_query then (Raised (py "Binder Error"), w)
  else (Returned one_row, w).

(** *** The client factory *)

(** [str.lower] is the usual one on ASCII strings. *)
Definition lower_faithful (U : UnicodeData) : Prop :=
  forall s, is_ascii s = true -> @lower U s = @lower ascii_data s.

(** An environment that sets [PROVIDER] and the key of OpenAI. *)
Definition openai_env (name : str) : option str :=
  if str_eqb name (py "PROVIDER") then Some (py "OpenAI")
  else if str_eqb name (py "OPENAI_API_KEY") then Some (py "sk-test")
  else None.

(** *** Charts *)

Definition figure_title (fig : Figure) : str :=
  match fig with
  | px_line _ _ _ t | px_bar _ _ _ t | px_scatter _ _ t
  | px_histogram _ t => t
  end.

Section ChartNotions.
Context {row : Type}.
Variable is_datetime64_any_dtype : DataFrame row -> str -> bool.
Variable is_numeric_dtype : DataFrame row -> str -> bool.
Variable px_raises : DataFrame row -> Figure -> option str.
Variable update_layout_raises : Figure -> Layout -> option str.
Variable nlargest : DataFrame row -> nat -> str -> outcome (DataFrame row).
Variable nunique_exceeds : DataFrame row -> str -> nat -> outcome bool.
Variable top_categories :
  DataFrame row -> str -> str -> outcome (DataFrame row).

(** [c] is a column of [df] that the dtype tests give the type [t]. *)
Definition column_of_type (df : DataFrame row) (t : ColumnType)
    (c : str) : Prop :=
  In c (df_columns df)
  /\ column_type is_datetime64_any_dtype is_numeric_dtype df c = t.

(** The columns a figure is given fit its axes: a line has a datetime
    column on x, bars have a categorical column on x, both have a numeric
    column on y and at most a categorical column, other than x, as
    colour; a scatter plot has two different numeric columns; there is no
    histogram. *)
Definition fits (df : DataFrame row) (fig : Figure) : Prop :=
  match fig with
  | px_line x y color _ =>
      column_of_type df datetime x /\ column_of_type df numeric y
      /\ forall c, color = Some c -> column_of_type df categorical c
  | px_bar x y color _ =>
      column_of_type df categorical x /\ column_of_type df numeric y
      /\ forall c, color = Some c ->
           column_of_type df categorical c /\ c <> x
  | px_scatter x y _ =>
      column_of_type df numeric x /\ column_of_type df numeric y /\ x <> y
  | px_histogram _ _ => False
  end.

(** The exception [e] comes from pandas or plotly: it is raised by the
    plotly express call of a figure that fits [df], by the layout update
    of such a figure, or by one of the pandas calls on the rows. *)
Definition raised_by_a_call (df : DataFrame row) (e : str) : Prop :=
  (exists df_plot fig, fits df fig /\ px_raises df_plot fig = Some e)
  \/ (exists fig layout,
        fits df fig /\ update_layout_raises fig layout = Some e)
  \/ (exists n col, nlargest df n col = Raised e)
  \/ (exists df_plot col n, nunique_exceeds df_plot col n = Raised e)
  \/ (exists x_col numeric_col,
        top_categories df x_col numeric_col = Raised e).

(** What a chart helper gives back for [df] and [title]: a figure that
    fits the table and has the title when one is given, or an exception
    of pandas or plotly. *)
Definition sound_result (df : DataFrame row) (title : str)
    (r : outcome Figure) : Prop :=
  match r with
  | Returned fig =>
      fits df fig /\ (title <> [] -> figure_title fig = title)
  | Raised e => raised_by_a_call df e
  end.

(** No call into pandas or plotly raises. *)
Definition calls_return : Prop :=
  (forall df fig, px_raises df fig = None)
  /\ (forall fig layout, update_layout_raises fig layout = None)
  /\ (forall df n col, exists d, nlargest df n col = Returned d)
  /\ (forall df col n, exists b, nunique_exceeds df col n = Returned b)
  /\ (forall df x_col numeric_col,
        exists d, top_categories df x_col numeric_col = Returned d).
End ChartNotions.

(** A result table with a categorical and a numeric column and two rows,
    and the dtype test that knows the numeric one. *)
Definition region_revenue : DataFrame unit :=
  {| df_columns := [py "region"; py "total_revenue"];
     df_rows := [tt; tt] |}.

Definition revenue_is_numeric (df : DataFrame unit) (col : str) : bool :=
  str_eqb col (py "total_revenue").

(** A table with a repeated label, and a plotly that refuses such
    tables. *)
Definition repeated_labels : DataFrame unit :=
  {| df_columns := [py "region"; py "region"; py "total_revenue"];
     df_rows := [tt; tt] |}.

Definition DuplicateError : str := py "duplicate column names".

Definition px_needs_distinct (df : DataFrame unit) (fig : Figure)
    : option str :=
  if distinct (df_columns df) then None else Some DuplicateError.

End Notions.

(** * Properties *)

(** ** The tables only matter on the characters of the string *)

Module TableFacts.
Import PyStr Regex SqlGuard Spec.

Lemma ascii_data_faithful : faithful ascii_data.
Proof.
  split; try reflexivity.
  intros c H. destruct (@cp_isalnum ascii_data c) eqn:E; [|reflexivity].
  exfalso.
  change (is_ascii_lower c || is_ascii_upper c || is_ascii_digit c = true)
    in E.
  unfold isspace in H.
  unfold is_ascii_lower, is_ascii_upper, is_ascii_digit in E.
  repeat rewrite ?orb_true_iff, ?andb_true_iff, ?N.leb_le, ?N.eqb_eq in H.
  repeat rewrite ?orb_true_iff, ?andb_true_iff, ?N.leb_le in E.
  lia.
Qed.

Lemma is_ascii_cons c s :
  is_ascii (c :: s) = true <-> c < 128 /\ is_ascii s = true.
Proof.
  unfold is_ascii; simpl. rewrite andb_true_iff, N.ltb_lt. tauto.
Qed.

Lemma is_ascii_app a b :
  is_ascii (a ++ b) = true <-> is_ascii a = true /\ is_ascii b = true.
Proof.
  unfold is_ascii. rewrite forallb_app, andb_true_iff. tauto.
Qed.

Lemma is_ascii_last s : is_ascii s = true -> last s 0 < 128.
Proof.
  induction s as [|c s IH]; intros H; [reflexivity|].
  apply is_ascii_cons in H as [Hc Hs].
  destruct s; [exact Hc|]. apply IH, Hs.
Qed.

Lemma strip_prefix_ascii p s r :
  strip_prefix p s = Some r -> is_ascii s = true -> is_ascii r = true.
Proof.
  revert s; induction p as [|a p IH]; intros s H Hs; simpl in H.
  - now inversion H; subst.
  - destruct s as [|b s]; [discriminate|].
    destruct (a =? b); [|discriminate].
    apply is_ascii_cons in Hs as [_ Hs]. eauto.
Qed.

Section AnyTables.
Context {U : UnicodeData}.

Lemma word_run_app s : forall t r,
  @word_run U s = (t, r) -> s = t ++ r.
Proof.
  induction s as [|c s IH]; intros t r H; simpl in H.
  - now inversion H.
  - destruct (isword c).
    + destruct (word_run s) as [t' r']. inversion H; subst.
      simpl. f_equal. now apply IH.
    + now inversion H.
Qed.

Lemma word_plus_app s t r : @word_plus U s = Some (t, r) -> s = t ++ r.
Proof.
  unfold word_plus. destruct (word_run s) as [t' r'] eqn:E.
  destruct t'; [discriminate|]. intros H; inversion H; subst.
  now apply word_run_app.
Qed.

Lemma ws_plus_word_app s : forall t r,
  @ws_plus_word U s = Some (t, r) -> exists ws, s = ws ++ t ++ r.
Proof.
  induction s as [|c s IH]; intros t r H; simpl in H; [discriminate|].
  destruct (isspace c); [|discriminate].
  destruct (ws_plus_word s) as [[t' r']|] eqn:E.
  - inversion H; subst. destruct (IH _ _ eq_refl) as [ws ->].
    now exists (c :: ws).
  - apply word_plus_app in H. exists [c]. now rewrite H.
Qed.

Lemma match_table_ascii b kw pw s t r :
  @match_table U b kw pw s = Some (t, r) -> is_ascii s = true ->
  is_ascii t = true /\ is_ascii r = true.
Proof.
  unfold match_table. intros H Hs.
  destruct (b && negb (at_boundary pw s)); [discriminate|].
  destruct (strip_prefix kw s) as [x|] eqn:E; [|discriminate].
  apply (strip_prefix_ascii _ _ _ E) in Hs.
  apply ws_plus_word_app in H as [ws ->].
  apply is_ascii_app in Hs as [_ Hs]. now apply is_ascii_app in Hs.
Qed.

Lemma findall_table_from_ascii b kw fuel : forall pw s,
  is_ascii s = true ->
  forallb is_ascii (@findall_table_from U b kw fuel pw s) = true.
Proof.
  induction fuel as [|f IH]; intros pw s Hs; [reflexivity|]; simpl.
  destruct (match_table b kw pw s) as [[t r]|] eqn:E.
  - destruct (match_table_ascii _ _ _ _ _ _ E Hs) as [Ht Hr].
    simpl. rewrite Ht. now apply IH.
  - destruct s as [|c s]; [reflexivity|].
    apply is_ascii_cons in Hs as [Hc Hs]. now apply IH.
Qed.
End AnyTables.

Section Independence.
Variable U : UnicodeData.
Hypothesis HU : faithful U.

Lemma isword_indep c : c < 128 -> @isword U c = @isword ascii_data c.
Proof. intros H. unfold isword. now rewrite (isalnum_on_ascii U HU c H). Qed.

Lemma upper_indep s :
  is_ascii s = true -> @upper U s = @upper ascii_data s.
Proof.
  induction s as [|c s IH]; intros H; [reflexivity|].
  apply is_ascii_cons in H as [Hc Hs]. unfold upper in *; simpl.
  rewrite IH by assumption. now rewrite (upper_on_ascii U HU c Hc).
Qed.

Lemma next_is_word_indep s :
  is_ascii s = true -> @next_is_word U s = @next_is_word ascii_data s.
Proof.
  destruct s as [|c s]; intros H; [reflexivity|].
  apply is_ascii_cons in H as [Hc _]. now apply isword_indep.
Qed.

Lemma match_word_indep kw pw s :
  is_ascii kw = true -> is_ascii s = true ->
  @match_word U kw pw s = @match_word ascii_data kw pw s.
Proof.
  intros Hk Hs. unfold match_word, at_boundary.
  rewrite (next_is_word_indep s Hs).
  destruct (strip_prefix kw s) as [r|] eqn:E; [|reflexivity].
  rewrite (next_is_word_indep r (strip_prefix_ascii _ _ _ E Hs)).
  now rewrite (isword_indep _ (is_ascii_last kw Hk)).
Qed.

Lemma search_word_from_indep kw s : forall pw,
  is_ascii kw = true -> is_ascii s = true ->
  @search_word_from U kw pw s = @search_word_from ascii_data kw pw s.
Proof.
  induction s as [|c s IH]; intros pw Hk Hs; simpl.
  - now rewrite match_word_indep.
  - rewrite match_word_indep by assumption.
    apply is_ascii_cons in Hs as [Hc Hs].
    rewrite (isword_indep c Hc). now rewrite IH.
Qed.

Lemma word_run_indep s :
  is_ascii s = true -> @word_run U s = @word_run ascii_data s.
Proof.
  induction s as [|c s IH]; intros Hs; [reflexivity|]; simpl.
  apply is_ascii_cons in Hs as [Hc Hs].
  rewrite (isword_indep c Hc), IH by assumption. reflexivity.
Qed.

Lemma word_plus_indep s :
  is_ascii s = true -> @word_plus U s = @word_plus ascii_data s.
Proof. intros H. unfold word_plus. now rewrite word_run_indep. Qed.

Lemma ws_plus_word_indep s :
  is_ascii s = true -> @ws_plus_word U s = @ws_plus_word ascii_data s.
Proof.
  induction s as [|c s IH]; intros Hs; [reflexivity|]; simpl.
  apply is_ascii_cons in Hs as [Hc Hs].
  now rewrite IH, word_plus_indep.
Qed.

Lemma match_table_indep b kw pw s :
  is_ascii s = true ->
  @match_table U b kw pw s = @match_table ascii_data b kw pw s.
Proof.
  intros Hs. unfold match_table, at_boundary.
  rewrite next_is_word_indep by assumption.
  destruct (strip_prefix kw s) as [r|] eqn:E; [|reflexivity].
  now rewrite (ws_plus_word_indep r (strip_prefix_ascii _ _ _ E Hs)).
Qed.

Lemma findall_table_from_indep b kw fuel : forall pw s,
  is_ascii s = true ->
  @findall_table_from U b kw fuel pw s
  = @findall_table_from ascii_data b kw fuel pw s.
Proof.
  induction fuel as [|f IH]; intros pw s Hs; [reflexivity|]; simpl.
  rewrite match_table_indep by assumption.
  destruct (@match_table ascii_data b kw pw s) as [[t r]|] eqn:E.
  - rewrite <- match_table_indep in E by assumption.
    destruct (match_table_ascii _ _ _ _ _ _ E Hs) as [Ht Hr].
    rewrite (isword_indep _ (is_ascii_last t Ht)). now rewrite IH.
  - destruct s as [|c s]; [reflexivity|].
    apply is_ascii_cons in Hs as [Hc Hs].
    rewrite (isword_indep c Hc). now rewrite IH.
Qed.

Lemma first_forbidden_indep kws s :
  forallb is_ascii kws = true -> is_ascii s = true ->
  @first_forbidden U kws s = @first_forbidden ascii_data kws s.
Proof.
  induction kws as [|k kws IH]; intros Hk Hs; [reflexivity|]; simpl.
  simpl in Hk. apply andb_true_iff in Hk as [Hk Hks].
  unfold search_word. rewrite search_word_from_indep by assumption.
  now rewrite IH.
Qed.

Lemma first_not_sales_indep ts :
  forallb is_ascii ts = true ->
  @first_not_sales U ts = @first_not_sales ascii_data ts.
Proof.
  induction ts as [|t ts IH]; intros H; [reflexivity|]; simpl.
  simpl in H. apply andb_true_iff in H as [Ht Hts].
  now rewrite upper_indep, IH.
Qed.

Lemma upper_ascii_data_is_ascii s :
  is_ascii s = true -> is_ascii (@upper ascii_data s) = true.
Proof.
  induction s as [|c s IH]; intros H; [reflexivity|].
  apply is_ascii_cons in H as [Hc Hs]. unfold upper; simpl.
  apply is_ascii_cons. split; [|now apply IH].
  destruct (is_ascii_lower c); lia.
Qed.

Lemma check_indep s :
  is_ascii s = true -> @check U s = @check ascii_data s.
Proof.
  intros Hs. unfold check.
  pose proof (upper_ascii_data_is_ascii s Hs) as Hu.
  rewrite (upper_indep s Hs).
  rewrite first_forbidden_indep by (assumption || reflexivity).
  unfold findall_table, search_word.
  rewrite !findall_table_from_indep by assumption.
  rewrite !first_not_sales_indep
    by (apply (findall_table_from_ascii); assumption).
  now rewrite search_word_from_indep by (assumption || reflexivity).
Qed.

Lemma sanitize_sql_indep s :
  is_ascii (normalize s) = true ->
  @sanitize_sql U s = @sanitize_sql ascii_data s.
Proof.
  intros H. destruct s; [reflexivity|]. unfold sanitize_sql.
  now apply check_indep.
Qed.
End Independence.
End TableFacts.

(** ** Strings and matchers *)

Module StringFacts.
Import PyStr Regex Spec.

Lemma strip_prefix_spec p : forall s r,
  strip_prefix p s = Some r <-> s = p ++ r.
Proof.
  induction p as [|a p IH]; intros s r; simpl.
  - split; intros H; [now inversion H | now subst].
  - destruct s as [|b s].
    + split; intros H; discriminate.
    + destruct (N.eqb_spec a b) as [->|Hne].
      * rewrite IH. split; intros H; [now subst | now inversion H].
      * split; intros H; [discriminate | inversion H; congruence].
Qed.

Lemma strip_prefix_app p r : strip_prefix p (p ++ r) = Some r.
Proof. now apply strip_prefix_spec. Qed.

Lemma contains_occurs sub : forall s,
  contains sub s = true <-> occurs sub s.
Proof.
  induction s as [|c s IH]; simpl; unfold startswith.
  - rewrite orb_false_r. split.
    + destruct (strip_prefix sub []) as [r|] eqn:E; [|discriminate].
      intros _. apply strip_prefix_spec in E. now exists [], r.
    + intros (pre & post & E). symmetry in E.
      apply app_eq_nil in E as [-> E]. apply app_eq_nil in E as [-> _].
      reflexivity.
  - rewrite orb_true_iff, IH. split.
    + intros [H|(pre & post & ->)].
      * destruct (strip_prefix sub (c :: s)) as [r|] eqn:E; [|discriminate].
        apply strip_prefix_spec in E. now exists [], r.
      * now exists (c :: pre), post.
    + intros (pre & post & E). destruct pre as [|c' pre].
      * left. simpl in E. rewrite E, strip_prefix_app. reflexivity.
      * right. inversion E; subst. now exists pre, post.
Qed.

Lemma occurs_single c s : occurs [c] s <-> In c s.
Proof.
  split.
  - intros (pre & post & ->). apply in_or_app. right. now left.
  - intros H. apply in_split in H as (pre & post & ->). now exists pre, post.
Qed.

Lemma not_contains_prefix sub a b :
  contains sub (a ++ b) = false -> contains sub a = false.
Proof.
  intros H. destruct (contains sub a) eqn:E; [|reflexivity].
  apply contains_occurs in E as (pre & post & ->).
  rewrite <- H. symmetry. apply contains_occurs.
  exists pre, (post ++ b). now rewrite <- !app_assoc.
Qed.

Lemma last_app_cons (a : str) c b d :
  last (a ++ c :: b) d = last (c :: b) d.
Proof.
  induction a as [|x a IH]; [reflexivity|].
  change ((x :: a) ++ c :: b) with (x :: (a ++ c :: b)).
  rewrite <- IH. destruct (a ++ c :: b) eqn:E; [|reflexivity].
  now destruct a.
Qed.

(** *** [rstrip_by], [lstrip], [strip] *)

Lemma rstrip_by_split p s :
  exists tail, s = rstrip_by p s ++ tail /\ forallb p tail = true.
Proof.
  induction s as [|c s (tail & E & Ht)]; [now exists []|].
  simpl. destruct (rstrip_by p s) as [|d r] eqn:R.
  - destruct (p c) eqn:Pc.
    + exists (c :: s). split; [reflexivity|].
      simpl in E. subst tail. simpl. now rewrite Pc.
    + exists tail. split; [simpl in *; now rewrite <- E | exact Ht].
  - exists tail. split; [|exact Ht].
    change (c :: s = c :: ((d :: r) ++ tail)). now rewrite <- E.
Qed.

Lemma rstrip_by_snoc p s c :
  p c = true -> rstrip_by p (s ++ [c]) = rstrip_by p s.
Proof.
  intros Pc. induction s as [|d s IH]; simpl.
  - now rewrite Pc.
  - now rewrite IH.
Qed.

Lemma rstrip_by_fixed p s :
  (forall c, In c s -> p c = false) -> rstrip_by p s = s.
Proof.
  induction s as [|c s IH]; intros H; [reflexivity|]. simpl.
  rewrite IH by (intros d Hd; apply H; now right).
  destruct s; [|reflexivity]. now rewrite (H c (or_introl eq_refl)).
Qed.

Lemma strip_snoc_space s : strip (s ++ [SP]) = strip s.
Proof.
  unfold strip. induction s as [|c s IH]; [reflexivity|].
  simpl. destruct (isspace c); [exact IH|].
  change (c :: s ++ [SP]) with ((c :: s) ++ [SP]).
  unfold rstrip. now apply rstrip_by_snoc.
Qed.

(** *** [sub_runs] *)

Lemma sub_runs_fixed p s : forall b,
  (forall c, In c s -> p c = false) -> sub_runs p b s = s.
Proof.
  induction s as [|c s IH]; intros b H; [reflexivity|]. simpl.
  rewrite (H c (or_introl eq_refl)). f_equal.
  apply IH. intros d Hd. apply H. now right.
Qed.

Lemma sub_runs_members p s : forall b c,
  In c (sub_runs p b s) -> c = SP \/ (In c s /\ p c = false).
Proof.
  induction s as [|d s IH]; intros b c H; [contradiction|].
  simpl in H. destruct (p d) eqn:Pd.
  - destruct b.
    + destruct (IH _ _ H) as [->|[Hc Hp]]; [now left|right].
      split; [now right | exact Hp].
    + destruct H as [<-|H]; [now left|].
      destruct (IH _ _ H) as [->|[Hc Hp]]; [now left|right].
      split; [now right | exact Hp].
  - destruct H as [<-|H].
    + right. split; [now left | exact Pd].
    + destruct (IH _ _ H) as [->|[Hc Hp]]; [now left|right].
      split; [now right | exact Hp].
Qed.

Lemma sub_whitespace_single_spaced s : forall b,
  single_spaced_from b (sub_runs isspace b s) = true.
Proof.
  induction s as [|c s IH]; intros b; [reflexivity|]. simpl.
  destruct (isspace c) eqn:Sc.
  - destruct b; [apply IH|]. simpl. apply IH.
  - simpl. rewrite Sc. apply IH.
Qed.

Lemma single_spaced_fixed s : forall b,
  single_spaced_from b s = true -> sub_runs isspace b s = s.
Proof.
  induction s as [|c s IH]; intros b H; [reflexivity|]. simpl in *.
  destruct (isspace c).
  - apply andb_true_iff in H as [H Hs]. apply andb_true_iff in H as [Hc Hb].
    apply N.eqb_eq in Hc. subst c. destruct b; [discriminate|].
    f_equal. now apply IH.
  - f_equal. now apply IH.
Qed.

Lemma single_spaced_space s : forall b c,
  single_spaced_from b s = true -> In c s -> isspace c = true -> c = SP.
Proof.
  induction s as [|d s IH]; intros b c H Hin Hc; [contradiction|].
  simpl in H. destruct Hin as [->|Hin].
  - rewrite Hc in H. apply andb_true_iff in H as [H _].
    apply andb_true_iff in H as [H _]. now apply N.eqb_eq in H.
  - destruct (isspace d).
    + apply andb_true_iff in H as [_ H]. eapply IH; eauto.
    + eapply IH; eauto.
Qed.

Lemma single_spaced_prefix a : forall b x,
  single_spaced_from b (a ++ x) = true -> single_spaced_from b a = true.
Proof.
  induction a as [|c a IH]; intros b x H; [reflexivity|].
  simpl in *. destruct (isspace c).
  - apply andb_true_iff in H as [H Hs]. rewrite H. simpl. eapply IH; eauto.
  - eapply IH; eauto.
Qed.

Lemma single_spaced_tail tail : forall m,
  single_spaced (m ++ tail) = true -> forallb isspace tail = true ->
  tail = [] \/ tail = [SP].
Proof.
  intros m. unfold single_spaced. generalize false.
  induction m as [|c m IH]; intros b H Ht.
  - destruct tail as [|c [|d tail]]; [now left | right | exfalso].
    + simpl in *. rewrite andb_true_r in Ht. rewrite Ht in H.
      apply andb_true_iff in H as [H _]. apply andb_true_iff in H as [H _].
      apply N.eqb_eq in H. now subst.
    + simpl in *. apply andb_true_iff in Ht as [Hc Ht].
      apply andb_true_iff in Ht as [Hd _]. rewrite Hc, Hd in H.
      simpl in H. rewrite !andb_false_r in H. discriminate.
  - simpl in H. destruct (isspace c).
    + apply andb_true_iff in H as [_ H]. eapply IH; eauto.
    + eapply IH; eauto.
Qed.

(** *** The substitutions of the normalization *)

Lemma sub_newlines_no_newline s : ~ In NL (sub_newlines s).
Proof.
  intros H. apply sub_runs_members in H as [H|[_ H]]; [discriminate|].
  now rewrite N.eqb_refl in H.
Qed.

Lemma last_member (s : str) d : s <> [] -> In (last s d) s.
Proof.
  induction s as [|c s IH]; [contradiction|]. intros _.
  destruct s as [|c' s]; [now left|].
  right. apply IH. discriminate.
Qed.

Lemma sub_trailing_semicolons_plain s :
  ~ In NL s -> sub_trailing_semicolons s = rstrip_by (N.eqb SEMI) s.
Proof.
  intros H. unfold sub_trailing_semicolons.
  destruct (N.eqb_spec (last s 0) NL) as [E|]; [|reflexivity].
  exfalso. destruct s as [|c s]; [discriminate|].
  apply H. rewrite <- E. apply last_member. discriminate.
Qed.

End StringFacts.

(** ** The table scans find every table named after a keyword *)

Module TableScan.
Import PyStr Regex SqlGuard Spec TableFacts StringFacts.

Section Matchers.
Context {U : UnicodeData}.

Lemma word_run_sound s : forall t r,
  word_run s = (t, r) ->
  s = t ++ r /\ forallb isword t = true /\ next_is_word r = false.
Proof.
  induction s as [|c s IH]; intros t r H; simpl in H.
  - inversion H; subst. now repeat split.
  - destruct (isword c) eqn:Wc.
    + destruct (word_run s) as [t' r']. inversion H; subst.
      destruct (IH _ _ eq_refl) as (-> & Ht & Hr).
      repeat split; [simpl; now rewrite Wc | exact Hr].
    + inversion H; subst. now repeat split.
Qed.

Lemma word_run_complete t : forall post,
  forallb isword t = true -> next_is_word post = false ->
  word_run (t ++ post) = (t, post).
Proof.
  induction t as [|c t IH]; intros post Ht Hp.
  - destruct post as [|d post]; [reflexivity|].
    simpl in *. now rewrite Hp.
  - simpl in *. apply andb_true_iff in Ht as [Hc Ht].
    now rewrite Hc, IH.
Qed.

Lemma word_plus_sound s t r :
  word_plus s = Some (t, r) ->
  s = t ++ r /\ t <> [] /\ forallb isword t = true
  /\ next_is_word r = false.
Proof.
  unfold word_plus. destruct (word_run s) as [t' r'] eqn:E.
  destruct t' as [|c t']; [discriminate|]. intros H. inversion H; subst.
  destruct (word_run_sound _ _ _ E) as (-> & Ht & Hr).
  repeat split; [discriminate | exact Ht | exact Hr].
Qed.

Lemma ws_plus_word_sound s : forall t r,
  ws_plus_word s = Some (t, r) ->
  exists ws,
    s = ws ++ t ++ r /\ ws <> [] /\ forallb isspace ws = true
    /\ t <> [] /\ forallb isword t = true /\ next_is_word r = false.
Proof.
  induction s as [|c s IH]; intros t r H; simpl in H; [discriminate|].
  destruct (isspace c) eqn:Sc; [|discriminate].
  destruct (ws_plus_word s) as [[t' r']|] eqn:E.
  - inversion H; subst.
    destruct (IH _ _ eq_refl) as (ws & -> & _ & Hws & Ht).
    exists (c :: ws). repeat split; try apply Ht; [discriminate|].
    simpl. now rewrite Sc.
  - apply word_plus_sound in H as (-> & Ht).
    exists [c]. repeat split; try apply Ht; [discriminate|].
    simpl. now rewrite Sc.
Qed.

Lemma match_table_sound b kw pw s t r :
  match_table b kw pw s = Some (t, r) ->
  exists ws,
    s = kw ++ ws ++ t ++ r /\ ws <> [] /\ forallb isspace ws = true
    /\ t <> [] /\ forallb isword t = true /\ next_is_word r = false.
Proof.
  unfold match_table.
  destruct (b && negb (at_boundary pw s)); [discriminate|].
  destruct (strip_prefix kw s) as [x|] eqn:E; [|discriminate].
  apply strip_prefix_spec in E. subst s. intros H.
  apply ws_plus_word_sound in H as (ws & -> & H). now exists ws.
Qed.

Lemma match_table_shorter b k kw pw s t r :
  match_table b (k :: kw) pw s = Some (t, r) ->
  (List.length r < List.length s)%nat.
Proof.
  intros H. apply match_table_sound in H as (ws & -> & _).
  cbn [app List.length]. rewrite !length_app. lia.
Qed.

Lemma prev_word_cons pw c pre :
  prev_word pw (c :: pre) = prev_word (isword c) pre.
Proof. destruct pre; reflexivity. Qed.

Lemma prev_word_app pw a c b :
  prev_word pw (a ++ c :: b) = prev_word (isword c) b.
Proof.
  revert pw. induction a as [|d a IH]; intros pw.
  - apply prev_word_cons.
  - change ((d :: a) ++ c :: b) with (d :: (a ++ c :: b)).
    rewrite prev_word_cons. apply IH.
Qed.
End Matchers.

Section Complete.
Context {U : UnicodeData}.
Hypothesis HU : faithful U.

Lemma isword_space c : isspace c = true -> isword c = false.
Proof.
  intros H. unfold isword. rewrite (space_not_alnum U HU c H).
  destruct (N.eqb_spec c UNDERSCORE) as [->|]; [discriminate | reflexivity].
Qed.

Lemma isword_ascii c : c < 128 -> isword c = @isword ascii_data c.
Proof. apply isword_indep, HU. Qed.

Lemma ws_plus_word_complete ws : forall t post,
  ws <> [] -> forallb isspace ws = true ->
  t <> [] -> forallb isword t = true -> next_is_word post = false ->
  ws_plus_word (ws ++ t ++ post) = Some (t, post).
Proof.
  induction ws as [|c ws IH]; intros t post Hne Hws Htne Ht Hp;
    [contradiction|].
  simpl in Hws. apply andb_true_iff in Hws as [Hc Hws].
  change ((c :: ws) ++ t ++ post) with (c :: (ws ++ t ++ post)).
  cbn [ws_plus_word]. rewrite Hc.
  destruct ws as [|d ws].
  - destruct t as [|a t]; [contradiction|].
    assert (Sa : isspace a = false).
    { simpl in Ht. apply andb_true_iff in Ht as [Ha _].
      destruct (isspace a) eqn:S; [|reflexivity].
      apply isword_space in S. congruence. }
    cbn [app ws_plus_word]. rewrite Sa.
    unfold word_plus.
    change (a :: t ++ post) with ((a :: t) ++ post).
    now rewrite word_run_complete.
  - now rewrite IH.
Qed.
End Complete.

(** A keyword whose first letter is a word character that occurs nowhere
    else in the keyword, in whitespace or in a table name that upper-cases
    to SALES. *)
Section Keyword.
Context {U : UnicodeData}.
Hypothesis HU : faithful U.
Variables (bounded : bool) (k0 : N) (ktl : str).
Hypothesis k0_word : isword k0 = true.
Hypothesis k0_once : ~ In k0 ktl.
Hypothesis k0_not_space : isspace k0 = false.
Hypothesis k0_not_sales : forall t, In k0 t -> upper t <> SALES.

Let kw := k0 :: ktl.

Lemma match_table_complete pw ws t post :
  (bounded = true -> pw = false) ->
  ws <> [] -> forallb isspace ws = true ->
  t <> [] -> forallb isword t = true -> next_is_word post = false ->
  match_table bounded kw pw (kw ++ ws ++ t ++ post) = Some (t, post).
Proof.
  intros Hb Hne Hws Htne Ht Hp. unfold match_table.
  assert (B : bounded && negb (at_boundary pw (kw ++ ws ++ t ++ post))
              = false).
  { destruct bounded; [|reflexivity]. rewrite (Hb eq_refl).
    unfold at_boundary, kw. simpl. now rewrite k0_word. }
  rewrite B, strip_prefix_app.
  now apply (ws_plus_word_complete HU).
Qed.

Lemma inside_region pre d region :
  k0 :: region = pre ++ k0 :: d -> pre <> [] -> In k0 region.
Proof.
  intros E Hne. destruct pre as [|c pre]; [contradiction|].
  inversion E; subst. apply in_or_app. right. now left.
Qed.

Lemma findall_table_complete fuel : forall pw s,
  (List.length s < fuel)%nat ->
  first_not_sales (findall_table_from bounded kw fuel pw s) = None ->
  forall pre ws t post,
    s = pre ++ kw ++ ws ++ t ++ post ->
    (bounded = true -> prev_word pw pre = false) ->
    ws <> [] -> forallb isspace ws = true ->
    t <> [] -> forallb isword t = true -> next_is_word post = false ->
    upper t = SALES.
Proof.
  induction fuel as [|f IH]; intros pw s Hlen Hall pre ws t post
    Hs Hb Hne Hws Htne Ht Hp; [lia|].
  cbn [findall_table_from] in Hall.
  destruct (match_table bounded kw pw s) as [[tok rest]|] eqn:M.
  - cbn [first_not_sales] in Hall.
    destruct (str_eqb (upper tok) SALES) eqn:Etok; [|discriminate].
    unfold str_eqb in Etok.
    destruct (list_eq_dec N.eq_dec (upper tok) SALES) as [Eup|];
      [clear Etok | discriminate].
    pose proof (match_table_shorter _ _ _ _ _ _ _ M) as Hshort.
    destruct (match_table_sound _ _ _ _ _ _ M)
      as (ws0 & Hs0 & Hne0 & Hws0 & Htne0 & Ht0 & Hr0).
    assert (Hsplit : pre ++ (kw ++ ws ++ t ++ post)
                     = (kw ++ ws0 ++ tok) ++ rest)
      by (rewrite <- Hs, Hs0; now rewrite <- !app_assoc).
    assert (Hlast : isword (last (kw ++ ws0 ++ tok) 0)
                    = isword (last tok 0)).
    { destruct tok as [|c tok]; [contradiction|].
      rewrite app_assoc. now rewrite last_app_cons. }
    apply app_eq_app in Hsplit as [d [[Hpre Hrest] | [Hreg Hrest]]].
    + (* the occurrence lies after the matched region *)
      apply (IH (isword (last tok 0)) rest ltac:(lia) Hall
               d ws t post); auto.
      intros Hbt. specialize (Hb Hbt). rewrite Hpre in Hb.
      destruct d as [|c d].
      * rewrite app_nil_r in Hb. unfold kw in Hb, Hlast.
        cbn [app prev_word] in Hb. cbn [prev_word]. now rewrite <- Hlast.
      * rewrite prev_word_app in Hb. now rewrite prev_word_cons.
    + (* the occurrence starts inside the matched region *)
      destruct d as [|c d].
      * rewrite app_nil_r in Hreg. cbn [app] in Hrest.
        apply (IH (isword (last tok 0)) rest ltac:(lia) Hall
                 [] ws t post); auto.
        intros Hbt. specialize (Hb Hbt). rewrite <- Hreg in Hb.
        unfold kw in Hb, Hlast. cbn [app prev_word] in Hb.
        cbn [prev_word]. now rewrite <- Hlast.
      * assert (c = k0) by (unfold kw in Hrest; now inversion Hrest).
        subst c. destruct pre as [|p pre].
        -- rewrite Hs in M. cbn [app] in M.
           rewrite match_table_complete in M; auto.
           inversion M; subst. exact Eup.
        -- exfalso. unfold kw in Hreg.
           apply (inside_region (p :: pre) d (ktl ++ ws0 ++ tok)) in Hreg;
             [|discriminate].
           apply in_app_or in Hreg as [H|H]; [now apply k0_once|].
           apply in_app_or in H as [H|H].
           ++ rewrite forallb_forall in Hws0.
              rewrite (Hws0 _ H) in k0_not_space. discriminate.
           ++ now apply (k0_not_sales tok).
  - destruct s as [|c s].
    + apply (f_equal (@List.length N)) in Hs.
      rewrite !length_app in Hs. unfold kw in Hs. cbn in Hs. lia.
    + destruct pre as [|p pre].
      * rewrite Hs in M. cbn [app] in M.
        rewrite match_table_complete in M; auto. discriminate.
      * cbn [app] in Hs. inversion Hs; subst p.
        cbn [List.length] in Hlen.
        apply (IH (isword c) s ltac:(lia) Hall pre ws t post); auto.
        intros Hbt. specialize (Hb Hbt).
        now rewrite prev_word_cons in Hb.
Qed.
End Keyword.

End TableScan.

(** ** What a validated query looks like *)

Module Validated.
Import PyStr Regex SqlGuard Spec TableFacts StringFacts TableScan.

(** The checks of [sanitize_sql], one by one. *)
Lemma check_inr (U : UnicodeData) c r :
  check c = inr r <->
  r = c
  /\ startswith (strip (upper c)) (py "SELECT") = true
  /\ first_forbidden forbidden_keywords (upper c) = None
  /\ contains [SEMI] c = false
  /\ contains (py "--") c = false
  /\ contains (py "/*") c = false
  /\ first_not_sales (findall_table true (py "FROM") (upper c)) = None
  /\ (search_word (py "JOIN") (upper c) = true ->
      first_not_sales (findall_table false (py "JOIN") (upper c)) = None).
Proof.
  unfold check.
  destruct (startswith (strip (upper c)) (py "SELECT")); cbn [negb];
    [|split; [discriminate | intros (_ & H & _); discriminate]].
  destruct (first_forbidden forbidden_keywords (upper c));
    [split; [discriminate | intros (_ & _ & H & _); discriminate]|].
  destruct (contains [SEMI] c);
    [split; [discriminate | intros (_ & _ & _ & H & _); discriminate]|].
  destruct (contains (py "--") c); cbn [orb];
    [split; [discriminate | intros (_ & _ & _ & _ & H & _); discriminate]|].
  destruct (contains (py "/*") c);
    [split; [discriminate
            | intros (_ & _ & _ & _ & _ & H & _); discriminate]|].
  destruct (first_not_sales (findall_table true (py "FROM") (upper c)));
    [split; [discriminate
            | intros (_ & _ & _ & _ & _ & _ & H & _); discriminate]|].
  destruct (search_word (py "JOIN") (upper c)).
  - destruct (first_not_sales (findall_table false (py "JOIN") (upper c))).
    + split; [discriminate|].
      intros (_ & _ & _ & _ & _ & _ & _ & H). now discriminate H.
    + split; [intros H; inversion H; now repeat split|].
      now intros (-> & _).
  - split; [intros H; inversion H; repeat split; discriminate|].
    now intros (-> & _).
Qed.

Lemma py_FROM : py "FROM" = [70; 82; 79; 77].
Proof. reflexivity. Qed.

Lemma py_JOIN : py "JOIN" = [74; 79; 73; 78].
Proof. reflexivity. Qed.

Section Clean.
Context {U : UnicodeData}.
Hypothesis HU : faithful U.

Lemma upper_member c t : In c t -> incl (cp_upper c) (upper t).
Proof.
  intros H x Hx. unfold upper. apply in_flat_map. now exists c.
Qed.

(** An ASCII capital that is not a letter of SALES keeps a name from
    upper-casing to SALES. *)
Lemma capital_not_sales k t :
  k < 128 -> is_ascii_lower k = false -> ~ In k SALES ->
  In k t -> upper t <> SALES.
Proof.
  intros Hk Hl Hs Hin E. apply Hs. rewrite <- E.
  apply (upper_member k t Hin).
  rewrite (upper_on_ascii U HU k Hk). cbn. rewrite Hl. now left.
Qed.

Lemma search_word_found k0 ktl pre : forall pw w ws rest,
  isword k0 = true -> isword (last (k0 :: ktl) 0) = true ->
  isspace w = true ->
  prev_word pw pre = false ->
  search_word_from (k0 :: ktl) pw
    (pre ++ (k0 :: ktl) ++ (w :: ws) ++ rest) = true.
Proof.
  induction pre as [|c pre IH]; intros pw w ws rest Hk Hl Hw Hp.
  - cbn [prev_word] in Hp. subst pw.
    change ([] ++ (k0 :: ktl) ++ (w :: ws) ++ rest)
      with (k0 :: (ktl ++ (w :: ws) ++ rest)).
    cbn [search_word_from]. apply orb_true_iff. left.
    unfold match_word, at_boundary.
    change (k0 :: ktl ++ (w :: ws) ++ rest)
      with ((k0 :: ktl) ++ (w :: ws) ++ rest).
    rewrite strip_prefix_app. cbn [next_is_word app].
    rewrite Hk, Hl, (isword_space HU w Hw). reflexivity.
  - change ((c :: pre) ++ (k0 :: ktl) ++ (w :: ws) ++ rest)
      with (c :: (pre ++ (k0 :: ktl) ++ (w :: ws) ++ rest)).
    cbn [search_word_from]. apply orb_true_iff. right.
    apply IH; auto. now rewrite prev_word_cons in Hp.
Qed.

Lemma check_clean c r : check c = inr r -> clean r.
Proof.
  intros H. apply check_inr in H
    as (-> & _ & _ & Hsemi & Hdash & Hstar & Hfrom & Hjoin).
  unfold clean. repeat split.
  - intros H. apply occurs_single, contains_occurs in H. congruence.
  - intros H. apply contains_occurs in H. congruence.
  - intros H. apply contains_occurs in H. congruence.
  - intros t (pre & ws & post & E & Hp & Hne & Hws & Htne & Ht & Hpost).
    rewrite py_FROM in *.
    apply (findall_table_complete HU true 70 [82; 79; 77])
      with (fuel := S (List.length (upper c))) (pw := false)
           (s := upper c) (pre := pre) (ws := ws) (post := post); auto.
    + rewrite isword_ascii by (exact HU || reflexivity). reflexivity.
    + cbn. intuition discriminate.
    + intros t'. apply capital_not_sales; try reflexivity.
      cbn. intuition discriminate.
  - intros t (pre & ws & post & E & Hp & Hne & Hws & Htne & Ht & Hpost).
    rewrite py_JOIN in *.
    assert (W74 : isword 74 = true)
      by (rewrite isword_ascii by (exact HU || reflexivity); reflexivity).
    assert (W78 : isword 78 = true)
      by (rewrite isword_ascii by (exact HU || reflexivity); reflexivity).
    assert (Hsearch : search_word [74; 79; 73; 78] (upper c) = true).
    { destruct ws as [|w ws]; [contradiction|].
      cbn [forallb] in Hws. apply andb_true_iff in Hws as [Hw _].
      unfold search_word. rewrite E.
      apply search_word_found; auto. }
    apply (findall_table_complete HU false 74 [79; 73; 78])
      with (fuel := S (List.length (upper c))) (pw := false)
           (s := upper c) (pre := pre) (ws := ws) (post := post); auto.
    + cbn. intuition discriminate.
    + intros t'. apply capital_not_sales; try reflexivity.
      cbn. intuition discriminate.
Qed.
End Clean.

(** What holds of every string returned by [sanitize_sql], and hence by
    [validate_and_sanitize_sql]: it contains no semicolon, no [--], no
    [/*], and the word that follows a FROM or a JOIN keyword is always
    the allowed table. *)
Theorem validated_query_is_clean (U : UnicodeData) :
  faithful U ->
  (forall sql r, sanitize_sql sql = inr r -> clean r)
  /\ (forall llm_response r,
        validate_and_sanitize_sql llm_response = inr r -> clean r).
Proof.
  intros HU.
  assert (Hs : forall sql r, sanitize_sql sql = inr r -> clean r).
  { intros sql r H. destruct sql as [|c sql]; [discriminate|].
    now apply (check_clean HU) in H. }
  split; [exact Hs|].
  intros llm_response r H. unfold validate_and_sanitize_sql in H.
  destruct (extract_sql_from_response llm_response) as [[|c sql]|];
    try discriminate.
  now apply Hs in H.
Qed.

(** C1 does not hold of the code.  The table scans read one word after
    each FROM and JOIN keyword, so a candidate whose FROM clause lists a
    second table after a comma passes every check: [sanitize_sql] and
    [validate_and_sanitize_sql] return it as validated although it names
    the table [secrets] in its FROM clause. *)
Theorem C1_listed_table_is_accepted (U : UnicodeData) :
  faithful U ->
  sanitize_sql listed_candidate = inr listed_candidate
  /\ validate_and_sanitize_sql listed_response = inr listed_candidate
  /\ occurs (py "FROM sales, secrets") listed_candidate.
Proof.
  intros HU.
  assert (E : sanitize_sql listed_candidate = inr listed_candidate).
  { rewrite (sanitize_sql_indep U HU) by (vm_compute; reflexivity).
    vm_compute. reflexivity. }
  split; [exact E|]. split.
  - assert (X : extract_sql_from_response listed_response
                = Some listed_candidate) by (vm_compute; reflexivity).
    unfold validate_and_sanitize_sql. rewrite X. exact E.
  - exists (py "SELECT * "), []. vm_compute. reflexivity.
Qed.

Lemma C1_listed_table_is_accepted_witness :
  @sanitize_sql ascii_data listed_candidate = inr listed_candidate
  /\ @validate_and_sanitize_sql ascii_data listed_response
     = inr listed_candidate
  /\ occurs (py "FROM sales, secrets") listed_candidate.
Proof.
  exact (C1_listed_table_is_accepted ascii_data ascii_data_faithful).
Defined.

End Validated.

(** ** The guard on the scenarios of the specification *)

Module GuardScenarios.
Import PyStr Regex SqlGuard Spec TableFacts.

Lemma check_never_empty_query (U : UnicodeData) sql_clean :
  check sql_clean <> inl EmptyQuery.
Proof.
  unfold check.
  repeat match goal with
         | |- context [if ?b then _ else _] => destruct b
         | |- context [match ?x with Some _ => _ | None => _ end] =>
             destruct x
         end; discriminate.
Qed.

(** C2, as stated, fails: on the candidate with an internal semicolon and
    DROP the guard does not answer MultipleStatements, neither for the
    candidate itself nor for a response carrying it in a fenced block. *)
Lemma C2_not_multiple_statements :
  @sanitize_sql ascii_data drop_candidate
    <> inl MultipleStatements
  /\ @validate_and_sanitize_sql ascii_data
       drop_response
     <> inl MultipleStatements.
Proof. split; vm_compute; discriminate. Qed.

(** C2, amended: the forbidden-keyword loop runs before the semicolon
    test, so the candidate is rejected with ForbiddenKeyword(DROP). *)
Theorem C2_forbidden_keyword_first (U : UnicodeData) :
  faithful U ->
  sanitize_sql drop_candidate
    = inl (ForbiddenKeyword (py "DROP"))
  /\ validate_and_sanitize_sql
       drop_response
     = inl (ForbiddenKeyword (py "DROP")).
Proof.
  intros HU.
  assert (E : sanitize_sql drop_candidate
              = inl (ForbiddenKeyword (py "DROP"))).
  { rewrite (sanitize_sql_indep U HU) by (vm_compute; reflexivity).
    vm_compute. reflexivity. }
  split; [exact E|].
  rewrite <- E.
  assert (X : extract_sql_from_response
                drop_response
              = Some drop_candidate)
    by (vm_compute; reflexivity).
  unfold validate_and_sanitize_sql. rewrite X. reflexivity.
Qed.

Lemma C2_forbidden_keyword_first_witness :
  @sanitize_sql ascii_data drop_candidate
    = inl (ForbiddenKeyword (py "DROP"))
  /\ @validate_and_sanitize_sql ascii_data
       drop_response
     = inl (ForbiddenKeyword (py "DROP")).
Proof.
  exact (C2_forbidden_keyword_first ascii_data ascii_data_faithful).
Defined.

End GuardScenarios.

(** ** Candidates that normalize to the empty string *)

Module EmptyCandidates.
Import PyStr Regex SqlGuard Spec TableFacts StringFacts.

Lemma rstrip_by_nil p s : rstrip_by p s = [] -> forallb p s = true.
Proof.
  induction s as [|c s IH]; [reflexivity|]. simpl.
  destruct (rstrip_by p s) as [|d r]; [|discriminate].
  destruct (p c); [|discriminate]. intros _. now apply IH.
Qed.

Lemma rstrip_by_all p s : forallb p s = true -> rstrip_by p s = [].
Proof.
  induction s as [|c s IH]; [reflexivity|]. simpl. intros H.
  apply andb_true_iff in H as [Hc Hs]. now rewrite IH, Hc.
Qed.

Lemma rstrip_by_tail q p c s :
  forallb q (rstrip_by p (c :: s)) = true ->
  forallb q (rstrip_by p s) = true.
Proof.
  simpl. destruct (rstrip_by p s) as [|d r]; [reflexivity|].
  intros H. simpl in H. now apply andb_true_iff in H as [_ H].
Qed.

Lemma strip_nil s : strip s = [] -> forallb isspace s = true.
Proof.
  unfold strip, rstrip. intros H. apply rstrip_by_nil in H.
  induction s as [|c s IH]; [reflexivity|]. simpl in *.
  destruct (isspace c) eqn:E; [now apply IH|].
  simpl in H. now rewrite E in H.
Qed.

Lemma sub_runs_all_matched p s : forall b,
  forallb p (sub_runs p b s) = true -> forallb p s = true.
Proof.
  induction s as [|c s IH]; intros b H; [reflexivity|]. simpl in *.
  destruct (p c) eqn:Pc.
  - destruct b; [now apply IH in H|].
    simpl in H. apply andb_true_iff in H as [_ H]. now apply IH in H.
  - simpl in H. now rewrite Pc in H.
Qed.

Lemma sub_runs_kept p q s :
  q SP = false -> forallb q (sub_runs p false s) = true ->
  forallb q s = true.
Proof.
  intros Hq. induction s as [|c s IH]; intros H; [reflexivity|].
  simpl in *. destruct (p c).
  - simpl in H. now rewrite Hq in H.
  - simpl in H. apply andb_true_iff in H as [Hc H]. now rewrite Hc, IH.
Qed.

(** In the order of the specification the normal form is empty only for
    whitespace followed by semicolons. *)
Lemma blank_then_semicolons s : forall b,
  forallb isspace (rstrip_by (N.eqb SEMI) (sub_runs (N.eqb NL) b s)) = true ->
  forallb (N.eqb SEMI) (lstrip s) = true.
Proof.
  induction s as [|c s IH]; intros b H; [reflexivity|].
  cbn [lstrip sub_runs] in *. destruct (isspace c) eqn:Sc.
  - destruct (NL =? c).
    + destruct b; [now apply IH in H|].
      apply rstrip_by_tail in H. now apply IH in H.
    + apply rstrip_by_tail in H. now apply IH in H.
  - destruct (N.eqb_spec NL c) as [<-|_]; [discriminate Sc|].
    cbn [rstrip_by] in H.
    destruct (rstrip_by (N.eqb SEMI) (sub_runs (N.eqb NL) false s))
      as [|d r] eqn:R.
    + destruct (SEMI =? c) eqn:Ec;
        [|cbn in H; rewrite Sc in H; discriminate].
      cbn [forallb]. rewrite Ec. cbn [andb].
      apply rstrip_by_nil in R.
      now apply (sub_runs_kept (N.eqb NL) (N.eqb SEMI)) in R.
    + cbn [forallb] in H. rewrite Sc in H. discriminate.
Qed.

Lemma spec_normalize_nil s : spec_normalize s = [] -> normalize s = [].
Proof.
  unfold spec_normalize. intros H.
  apply strip_nil, sub_runs_all_matched in H.
  rewrite sub_trailing_semicolons_plain in H
    by apply sub_newlines_no_newline.
  apply blank_then_semicolons in H.
  assert (Hq : forall c, In c (lstrip s) -> c = SEMI).
  { intros c Hc. rewrite forallb_forall in H.
    symmetry. now apply N.eqb_eq, H. }
  unfold normalize, strip, rstrip.
  rewrite (rstrip_by_fixed isspace)
    by (intros c Hc; now rewrite (Hq c Hc)).
  unfold sub_newlines.
  rewrite sub_runs_fixed by (intros c Hc; now rewrite (Hq c Hc)).
  rewrite sub_trailing_semicolons_plain
    by (intros Hc; apply Hq in Hc; discriminate).
  now rewrite rstrip_by_all.
Qed.

(** C3, as stated, fails: the candidate [;] normalizes to the empty
    string and is rejected with NotASelect, not EmptyQuery, by
    [sanitize_sql] and, carried in a fenced block, by
    [validate_and_sanitize_sql]. *)
Lemma C3_semicolon_not_empty_query :
  normalize (py ";") = []
  /\ spec_normalize (py ";") = []
  /\ @sanitize_sql ascii_data (py ";") <> inl EmptyQuery
  /\ @validate_and_sanitize_sql ascii_data semicolon_response
     <> inl EmptyQuery.
Proof.
  split; [vm_compute; reflexivity|].
  split; [vm_compute; reflexivity|].
  split; vm_compute; discriminate.
Qed.

(** C3, amended: the emptiness test is made on the candidate before
    normalization.  Of the candidates whose normalized form is empty,
    whether the string is trimmed first as in the code or last as in the
    specification, the empty candidate fails with EmptyQuery and every
    other one with NotASelect. *)
Theorem C3_empty_after_normalization (U : UnicodeData) (sql : str) :
  normalize sql = [] \/ spec_normalize sql = [] ->
  (sql = [] -> sanitize_sql sql = inl EmptyQuery)
  /\ (sql <> [] -> sanitize_sql sql = inl NotASelect).
Proof.
  intros H.
  assert (E : normalize sql = [])
    by (destruct H as [H|H]; [exact H | now apply spec_normalize_nil]).
  split; intros Hs.
  - subst. reflexivity.
  - destruct sql as [|c sql]; [contradiction|].
    unfold sanitize_sql. rewrite E. reflexivity.
Qed.

Lemma C3_empty_after_normalization_witness :
  (py ";" = [] -> @sanitize_sql ascii_data (py ";") = inl EmptyQuery)
  /\ (py ";" <> [] -> @sanitize_sql ascii_data (py ";") = inl NotASelect).
Proof.
  apply (C3_empty_after_normalization ascii_data (py ";")).
  left. vm_compute. reflexivity.
Defined.

End EmptyCandidates.

(** ** Validating a validated query again *)

Module Revalidation.
Import PyStr Regex SqlGuard Spec TableFacts StringFacts TableScan Validated.

(** *** The normal form *)

Lemma lstrip_fixed s : lstrip (lstrip s) = lstrip s.
Proof.
  induction s as [|c s IH]; [reflexivity|]. simpl.
  destruct (isspace c) eqn:E; [exact IH|]. simpl. now rewrite E.
Qed.

Lemma lstrip_prefix_fixed a b :
  a <> [] -> lstrip (a ++ b) = a ++ b -> lstrip a = a.
Proof.
  destruct a as [|c a]; [contradiction|]. intros _. simpl.
  destruct (isspace c) eqn:E; [|reflexivity].
  intros H. exfalso.
  assert (L : forall s, (List.length (lstrip s) <= List.length s)%nat).
  { induction s as [|d s IH]; [reflexivity|]. simpl.
    destruct (isspace d); simpl; lia. }
  specialize (L (a ++ b)). rewrite H in L. simpl in L. lia.
Qed.

Lemma lstrip_rstrip_by p s : lstrip s = s -> lstrip (rstrip_by p s) = rstrip_by p s.
Proof.
  intros H. destruct (rstrip_by_split p s) as (tail & E & _).
  destruct (rstrip_by p s) as [|c r] eqn:R; [reflexivity|].
  rewrite E in H. now apply lstrip_prefix_fixed in H.
Qed.

Lemma lstrip_sub_runs p s :
  (forall c, p c = true -> isspace c = true) ->
  lstrip s = s -> lstrip (sub_runs p false s) = sub_runs p false s.
Proof.
  intros Hp H. destruct s as [|c s]; [reflexivity|].
  simpl in *. destruct (isspace c) eqn:Sc.
  - exfalso.
    assert (L : forall s, (List.length (lstrip s) <= List.length s)%nat).
    { induction s0 as [|d s0 IH]; [reflexivity|]. simpl.
      destruct (isspace d); simpl; lia. }
    specialize (L s). rewrite H in L. simpl in L. lia.
  - destruct (p c) eqn:Pc; [apply Hp in Pc; congruence|].
    simpl. now rewrite Sc.
Qed.

Lemma normalize_no_leading_space sql : lstrip (normalize sql) = normalize sql.
Proof.
  unfold normalize.
  apply lstrip_sub_runs; [auto|].
  rewrite sub_trailing_semicolons_plain by apply sub_newlines_no_newline.
  apply lstrip_rstrip_by. unfold sub_newlines.
  apply lstrip_sub_runs.
  - intros c H. apply N.eqb_eq in H. now subst.
  - unfold strip, rstrip. apply lstrip_rstrip_by, lstrip_fixed.
Qed.

Lemma normalize_single_spaced sql : single_spaced (normalize sql) = true.
Proof. apply sub_whitespace_single_spaced. Qed.

(** A single-spaced string without leading space and without semicolon
    is normalized by trimming a final space. *)
Lemma normalize_of_normal r :
  single_spaced r = true -> lstrip r = r -> ~ In SEMI r ->
  normalize r = strip r
  /\ (r = strip r \/ r = strip r ++ [SP]).
Proof.
  intros Hn Hl Hsemi. unfold strip. rewrite Hl. unfold rstrip.
  destruct (rstrip_by_split isspace r) as (tail & E & Ht).
  set (m := rstrip_by isspace r) in *.
  assert (Hm : single_spaced m = true)
    by (rewrite E in Hn; now apply single_spaced_prefix in Hn).
  assert (Hin : forall c, In c m -> In c r)
    by (intros c Hc; rewrite E; apply in_or_app; now left).
  split.
  - unfold normalize, strip, rstrip. rewrite Hl. fold m.
    assert (Hnl : ~ In NL m).
    { intros H. apply (single_spaced_space _ _ _ Hm) in H;
        [discriminate | reflexivity]. }
    unfold sub_newlines. rewrite sub_runs_fixed.
    2:{ intros c Hc. destruct (N.eqb_spec NL c) as [<-|]; [|reflexivity].
        contradiction. }
    rewrite sub_trailing_semicolons_plain by exact Hnl.
    rewrite rstrip_by_fixed.
    2:{ intros c Hc. destruct (N.eqb_spec SEMI c) as [<-|]; [|reflexivity].
        exfalso. apply Hsemi. now apply Hin. }
    now apply single_spaced_fixed.
  - rewrite E in Hn.
    destruct (single_spaced_tail _ _ Hn Ht) as [->| ->].
    + left. now rewrite app_nil_r in E.
    + now right.
Qed.

(** *** A final space does not change the checks *)

Section FinalSpace.
Context {U : UnicodeData}.
Hypothesis HU : faithful U.

Lemma isword_SP : isword SP = false.
Proof. now apply (isword_space HU). Qed.

Lemma upper_snoc_space s : upper (s ++ [SP]) = upper s ++ [SP].
Proof.
  unfold upper. rewrite flat_map_app. f_equal. cbn [flat_map].
  rewrite (upper_on_ascii U HU SP) by reflexivity. reflexivity.
Qed.

Lemma next_is_word_snoc s : next_is_word (s ++ [SP]) = next_is_word s.
Proof. destruct s; [apply isword_SP | reflexivity]. Qed.

Lemma strip_prefix_snoc kw : forall s,
  ~ In SP kw ->
  strip_prefix kw (s ++ [SP])
  = option_map (fun r => r ++ [SP]) (strip_prefix kw s).
Proof.
  induction kw as [|a kw IH]; intros s H; [reflexivity|].
  destruct s as [|b s]; simpl.
  - destruct (N.eqb_spec a SP) as [->|]; [|reflexivity].
    exfalso. apply H. now left.
  - destruct (a =? b); [|reflexivity]. apply IH.
    intros X. apply H. now right.
Qed.

Lemma match_word_snoc kw pw s :
  ~ In SP kw -> match_word kw pw (s ++ [SP]) = match_word kw pw s.
Proof.
  intros H. unfold match_word, at_boundary.
  rewrite next_is_word_snoc, strip_prefix_snoc by exact H.
  destruct (strip_prefix kw s); [|reflexivity].
  cbn [option_map]. now rewrite next_is_word_snoc.
Qed.

Lemma search_word_from_snoc kw s : forall pw,
  ~ In SP kw ->
  search_word_from kw pw (s ++ [SP]) = search_word_from kw pw s.
Proof.
  induction s as [|c s IH]; intros pw H.
  - cbn [app search_word_from].
    change [SP] with ([] ++ [SP]). rewrite match_word_snoc by exact H.
    rewrite isword_SP. unfold match_word at 2. unfold at_boundary at 1.
    cbn [next_is_word xorb andb]. reflexivity.
  - change ((c :: s) ++ [SP]) with (c :: (s ++ [SP])).
    cbn [search_word_from].
    change (c :: s ++ [SP]) with ((c :: s) ++ [SP]).
    now rewrite match_word_snoc, IH.
Qed.

Lemma first_forbidden_snoc kws s :
  Forall (fun kw => ~ In SP kw) kws ->
  first_forbidden kws (s ++ [SP]) = first_forbidden kws s.
Proof.
  induction 1 as [|kw kws Hk _ IH]; [reflexivity|].
  cbn [first_forbidden]. unfold search_word.
  now rewrite search_word_from_snoc, IH.
Qed.

Lemma word_run_snoc s :
  word_run (s ++ [SP])
  = let (t, r) := word_run s in (t, r ++ [SP]).
Proof.
  induction s as [|c s IH].
  - cbn. now rewrite isword_SP.
  - change ((c :: s) ++ [SP]) with (c :: (s ++ [SP])).
    cbn [word_run]. rewrite IH.
    destruct (isword c); [|reflexivity].
    now destruct (word_run s).
Qed.

Lemma word_plus_snoc s :
  word_plus (s ++ [SP]) = option_map snoc_rest (word_plus s).
Proof.
  unfold word_plus. rewrite word_run_snoc.
  destruct (word_run s) as [[|c t] r]; reflexivity.
Qed.

Lemma ws_plus_word_snoc s :
  ws_plus_word (s ++ [SP]) = option_map snoc_rest (ws_plus_word s).
Proof.
  induction s as [|c s IH]; [reflexivity|].
  change ((c :: s) ++ [SP]) with (c :: (s ++ [SP])).
  cbn [ws_plus_word]. rewrite IH, word_plus_snoc.
  destruct (isspace c); [|reflexivity].
  now destruct (ws_plus_word s).
Qed.

Lemma match_table_snoc b kw pw s :
  ~ In SP kw ->
  match_table b kw pw (s ++ [SP])
  = option_map snoc_rest (match_table b kw pw s).
Proof.
  intros H. unfold match_table, at_boundary.
  rewrite next_is_word_snoc, strip_prefix_snoc by exact H.
  destruct (b && negb (xorb pw (next_is_word s))); [reflexivity|].
  destruct (strip_prefix kw s); [|reflexivity].
  cbn [option_map]. apply ws_plus_word_snoc.
Qed.

Lemma match_table_nil b k kw pw : match_table b (k :: kw) pw [] = None.
Proof. unfold match_table. now destruct (b && _). Qed.

Lemma findall_table_from_snoc b k kw fuel : forall pw s,
  ~ In SP (k :: kw) ->
  findall_table_from b (k :: kw) fuel pw (s ++ [SP])
  = findall_table_from b (k :: kw) fuel pw s.
Proof.
  induction fuel as [|f IH]; intros pw s H; [reflexivity|].
  cbn [findall_table_from]. rewrite match_table_snoc by exact H.
  destruct (match_table b (k :: kw) pw s) as [[t r]|].
  - cbn [option_map snoc_rest fst snd]. now rewrite IH.
  - cbn [option_map]. destruct s as [|c s].
    + cbn [app]. destruct f; [reflexivity|].
      cbn [findall_table_from]. now rewrite match_table_nil.
    + change ((c :: s) ++ [SP]) with (c :: (s ++ [SP])). now apply IH.
Qed.

Lemma findall_table_from_fuel b k kw f1 : forall f2 pw s,
  (List.length s < f1)%nat -> (List.length s < f2)%nat ->
  findall_table_from b (k :: kw) f1 pw s
  = findall_table_from b (k :: kw) f2 pw s.
Proof.
  induction f1 as [|f1 IH]; intros f2 pw s H1 H2; [lia|].
  destruct f2 as [|f2]; [lia|]. cbn [findall_table_from].
  destruct (match_table b (k :: kw) pw s) as [[t r]|] eqn:M.
  - apply match_table_shorter in M. f_equal. apply IH; lia.
  - destruct s as [|c s]; [reflexivity|].
    cbn [List.length] in *. apply IH; lia.
Qed.

Lemma findall_table_snoc b k kw s :
  ~ In SP (k :: kw) ->
  findall_table b (k :: kw) (s ++ [SP]) = findall_table b (k :: kw) s.
Proof.
  intros H. unfold findall_table.
  rewrite findall_table_from_snoc by exact H.
  apply findall_table_from_fuel; rewrite ?length_app; cbn; lia.
Qed.

Lemma forbidden_keywords_no_space :
  Forall (fun kw => ~ In SP kw) forbidden_keywords.
Proof.
  apply Forall_forall. intros kw Hk H.
  assert (X : forallb (fun kw => negb (existsb (N.eqb SP) kw))
                forbidden_keywords = true) by (vm_compute; reflexivity).
  rewrite forallb_forall in X. specialize (X kw Hk).
  apply negb_true_iff in X.
  assert (Y : existsb (N.eqb SP) kw = true)
    by (apply existsb_exists; exists SP; split; [exact H | apply N.eqb_refl]).
  congruence.
Qed.

Lemma check_without_final_space m :
  check (m ++ [SP]) = inr (m ++ [SP]) -> check m = inr m.
Proof.
  intros H. apply check_inr in H
    as (_ & Hsel & Hforb & Hsemi & Hdash & Hstar & Hfrom & Hjoin).
  apply check_inr. rewrite upper_snoc_space in *.
  rewrite strip_snoc_space in Hsel.
  rewrite first_forbidden_snoc in Hforb by apply forbidden_keywords_no_space.
  apply not_contains_prefix in Hsemi, Hdash, Hstar.
  rewrite py_FROM, py_JOIN in *.
  rewrite findall_table_snoc in Hfrom by (cbn; intuition discriminate).
  rewrite findall_table_snoc in Hjoin by (cbn; intuition discriminate).
  unfold search_word in *.
  rewrite search_word_from_snoc in Hjoin by (cbn; intuition discriminate).
  now repeat split.
Qed.
End FinalSpace.

Lemma rstrip_by_fixed_point p s :
  rstrip_by p (rstrip_by p s) = rstrip_by p s.
Proof.
  induction s as [|c s IH]; [reflexivity|]. simpl.
  destruct (rstrip_by p s) as [|d r] eqn:R.
  - destruct (p c) eqn:Pc; [reflexivity|]. simpl. now rewrite Pc.
  - change (rstrip_by p (c :: d :: r))
      with (match rstrip_by p (d :: r) with
            | [] => if p c then [] else [c]
            | r' => c :: r'
            end).
    now rewrite IH.
Qed.

Lemma strip_fixed_point s : strip (strip s) = strip s.
Proof.
  unfold strip, rstrip.
  rewrite (lstrip_rstrip_by isspace (lstrip s)) by apply lstrip_fixed.
  apply rstrip_by_fixed_point.
Qed.

Lemma revalidate (U : UnicodeData) sql r :
  faithful U -> sanitize_sql sql = inr r ->
  sanitize_sql r = inr (strip r)
  /\ (r = strip r \/ r = strip r ++ [SP]).
Proof.
  intros HU H. destruct sql as [|c0 sql]; [discriminate|].
  unfold sanitize_sql in H.
  pose proof (normalize_single_spaced (c0 :: sql)) as Hn.
  pose proof (normalize_no_leading_space (c0 :: sql)) as Hl.
  pose proof H as Hc. apply check_inr in Hc as (Er & Hsel & _ & Hsemi & _).
  rewrite <- Er in *. clear Er.
  assert (Hs : ~ In SEMI r).
  { intros X. apply occurs_single, contains_occurs in X. congruence. }
  destruct (normalize_of_normal r Hn Hl Hs) as [En Hshape].
  split; [|exact Hshape].
  destruct r as [|c r]; [discriminate Hsel|].
  unfold sanitize_sql. rewrite En.
  destruct Hshape as [E|E].
  - now rewrite <- E.
  - rewrite E in H. now apply (check_without_final_space HU).
Qed.

(** What validating a validated query [r] again does: it always succeeds
    and returns [r] without its final space, if it has one ([r] itself
    otherwise); that result is returned unchanged by any further
    validation. *)
Theorem revalidation_trims (U : UnicodeData) (sql r : str) :
  faithful U ->
  sanitize_sql sql = inr r ->
  sanitize_sql r = inr (strip r)
  /\ (r = strip r \/ r = strip r ++ [SP])
  /\ sanitize_sql (strip r) = inr (strip r).
Proof.
  intros HU H.
  destruct (revalidate U sql r HU H) as [H1 Hshape].
  split; [exact H1|]. split; [exact Hshape|].
  destruct (revalidate U r (strip r) HU H1) as [H2 _].
  now rewrite strip_fixed_point in H2.
Qed.

(** C9 does not hold of the code.  [sanitize_sql] trims before it removes
    the trailing semicolons, so a candidate with a space before its final
    semicolon is validated, by [sanitize_sql] and by
    [validate_and_sanitize_sql], to a string that ends with a space; and
    validating that string again does not return it unchanged, but
    without the space. *)
Theorem C9_final_space_is_trimmed (U : UnicodeData) :
  faithful U ->
  sanitize_sql spaced_candidate = inr spaced_query
  /\ validate_and_sanitize_sql spaced_response = inr spaced_query
  /\ sanitize_sql spaced_query = inr trimmed_query
  /\ trimmed_query <> spaced_query.
Proof.
  intros HU.
  assert (E : sanitize_sql spaced_candidate = inr spaced_query).
  { rewrite (sanitize_sql_indep U HU) by (vm_compute; reflexivity).
    vm_compute. reflexivity. }
  split; [exact E|]. split; [|split].
  - assert (X : extract_sql_from_response spaced_response
                = Some spaced_candidate) by (vm_compute; reflexivity).
    unfold validate_and_sanitize_sql. rewrite X. exact E.
  - destruct (revalidation_trims U _ _ HU E) as [H _]. rewrite H.
    vm_compute. reflexivity.
  - intros X. apply (f_equal (fun s : str => last s 0)) in X.
    vm_compute in X. discriminate X.
Qed.

Lemma C9_final_space_is_trimmed_witness :
  @sanitize_sql ascii_data spaced_candidate = inr spaced_query
  /\ @validate_and_sanitize_sql ascii_data spaced_response
     = inr spaced_query
  /\ @sanitize_sql ascii_data spaced_query = inr trimmed_query
  /\ trimmed_query <> spaced_query.
Proof.
  exact (C9_final_space_is_trimmed ascii_data ascii_data_faithful).
Defined.

End Revalidation.

(** ** Extraction of the fenced block *)

Module Extraction.
Import PyStr Regex SqlGuard Spec TableFacts GuardScenarios.

Lemma strip_prefix_ci_app p : forall tag rest,
  strip_prefix_ci p tag = Some [] ->
  strip_prefix_ci p (tag ++ rest) = Some rest.
Proof.
  induction p as [|a p IH]; intros tag rest H; simpl in H.
  - inversion H; subst. reflexivity.
  - destruct tag as [|b tag]; [discriminate|]. simpl.
    destruct (tag_char a b); [|discriminate]. now apply IH.
Qed.

Lemma ws_star_group_blank ws post :
  forallb isspace ws = true ->
  ws_star_group (ws ++ FENCE ++ post) = Some ([], post).
Proof.
  induction ws as [|c ws IH]; intros H.
  - reflexivity.
  - simpl in H. apply andb_true_iff in H as [Hc Hws].
    change ((c :: ws) ++ FENCE ++ post) with (c :: (ws ++ FENCE ++ post)).
    cbn [ws_star_group]. rewrite Hc, (IH Hws). reflexivity.
Qed.

Lemma match_sql_block_closed s :
  opens_sql_block s = false -> match_sql_block s = None.
Proof.
  unfold opens_sql_block, match_sql_block.
  destruct (strip_prefix_ci (py "```sql") s); [discriminate | reflexivity].
Qed.

Lemma findall_sql_blocks_skip pre : forall rest fuel,
  (forall a b, pre = a ++ b -> b <> [] ->
     opens_sql_block (b ++ rest) = false) ->
  findall_sql_blocks_from (List.length pre + fuel) (pre ++ rest)
  = findall_sql_blocks_from fuel rest.
Proof.
  induction pre as [|c pre IH]; intros rest fuel H; [reflexivity|].
  change (List.length (c :: pre) + fuel)%nat
    with (S (List.length pre + fuel)).
  cbn [findall_sql_blocks_from].
  rewrite match_sql_block_closed
    by (apply (H [] (c :: pre)); [reflexivity | discriminate]).
  change ((c :: pre) ++ rest) with (c :: (pre ++ rest)).
  cbv iota. apply IH.
  intros a b E Hb. apply (H (c :: a) b); [now rewrite E | exact Hb].
Qed.

Lemma extract_blank_block pre tag ws post :
  (forall a b, pre = a ++ b -> b <> [] ->
     opens_sql_block (b ++ tag ++ ws ++ FENCE ++ post) = false) ->
  strip_prefix_ci (py "```sql") tag = Some [] ->
  forallb isspace ws = true ->
  extract_sql_from_response (pre ++ tag ++ ws ++ FENCE ++ post) = Some [].
Proof.
  intros Hpre Htag Hws.
  unfold extract_sql_from_response, findall_sql_blocks.
  rewrite length_app.
  replace (S (List.length pre
              + List.length (tag ++ ws ++ FENCE ++ post)))%nat
    with (List.length pre
          + S (List.length (tag ++ ws ++ FENCE ++ post)))%nat by lia.
  rewrite findall_sql_blocks_skip by exact Hpre.
  cbn [findall_sql_blocks_from]. unfold match_sql_block.
  rewrite (strip_prefix_ci_app _ _ _ Htag).
  rewrite (ws_star_group_blank ws post Hws). reflexivity.
Qed.

(** C10 does not hold as stated: only the first fenced SQL block of a
    response is read, so a response that contains a blank block after a
    block with a query is validated to that query and no error is
    raised. *)
Lemma C10_later_blank_block_is_ignored :
  (exists pre tag ws post,
     two_block_response = pre ++ tag ++ ws ++ FENCE ++ post
     /\ strip_prefix_ci (py "```sql") tag = Some []
     /\ forallb isspace ws = true)
  /\ @validate_and_sanitize_sql ascii_data two_block_response
     = inr trimmed_query
  /\ @validate_and_sanitize_sql ascii_data two_block_response
     <> inl NoSqlBlockFound.
Proof.
  split; [|split].
  - exists (lines ["```sql"; "SELECT region FROM sales"; "```"; ""]%string),
      (py "```sql"), [NL], [].
    split; [vm_compute; reflexivity|]. split; reflexivity.
  - vm_compute. reflexivity.
  - vm_compute. discriminate.
Qed.

(** C10, amended: a response whose first fenced SQL block is empty or
    holds only whitespace is rejected with NoSqlBlockFound; and no
    response at all makes [validate_and_sanitize_sql] fail with
    EmptyQuery.  The block is the first one when no tag of the pattern
    matches before it. *)
Theorem C10_blank_block_is_no_block (U : UnicodeData) :
  (forall pre tag ws post,
     (forall a b, pre = a ++ b -> b <> [] ->
        opens_sql_block (b ++ tag ++ ws ++ FENCE ++ post) = false) ->
     strip_prefix_ci (py "```sql") tag = Some [] ->
     forallb isspace ws = true ->
     validate_and_sanitize_sql (pre ++ tag ++ ws ++ FENCE ++ post)
     = inl NoSqlBlockFound)
  /\ (forall response,
        validate_and_sanitize_sql response <> inl EmptyQuery).
Proof.
  split.
  - intros pre tag ws post Hpre Htag Hws.
    unfold validate_and_sanitize_sql.
    now rewrite (extract_blank_block pre tag ws post Hpre Htag Hws).
  - intros response. unfold validate_and_sanitize_sql.
    destruct (extract_sql_from_response response) as [[|c sql]|];
      try discriminate.
    apply check_never_empty_query.
Qed.

Lemma C10_blank_block_is_no_block_witness :
  @validate_and_sanitize_sql ascii_data
    (py "Here: " ++ py "```SQL" ++ [SP; NL; SP] ++ FENCE ++ py " bye")
  = inl NoSqlBlockFound.
Proof.
  apply (proj1 (C10_blank_block_is_no_block ascii_data)).
  - intros a b E Hb.
    assert (L : (List.length a < 6)%nat).
    { apply (f_equal (@List.length N)) in E. rewrite length_app in E.
      destruct b; [contradiction|]. cbn in E. lia. }
    destruct a as [|a0 [|a1 [|a2 [|a3 [|a4 [|a5 a]]]]]];
      cbn in L; try lia;
      vm_compute in E; inversion E; subst; vm_compute; reflexivity.
  - reflexivity.
  - reflexivity.
Defined.

End Extraction.

(** ** The template resolver *)

Module Resolver.
Import PyStr QueryTemplates Spec.

Section Scores.
Context {U : UnicodeData}.
Variable q : str.

Lemma count_matches_sum kws : forall acc,
  count_matches kws q acc
  = (acc + list_sum (map (fun kw =>
             if contains (lower kw) q then 1 else 0) kws))%nat.
Proof.
  induction kws as [|kw kws IH]; intros acc; simpl; [lia|].
  rewrite IH. destruct (contains (lower kw) q); lia.
Qed.

Lemma count_bonus_sum kws : forall acc,
  count_bonus kws q acc
  = (acc + list_sum (map (fun kw =>
             if Nat.ltb 3 (List.length kw) && contains (lower kw) q
             then 1 else 0) kws))%nat.
Proof.
  induction kws as [|kw kws IH]; intros acc; simpl; [lia|].
  rewrite IH.
  destruct (Nat.ltb 3 (List.length kw) && contains (lower kw) q); lia.
Qed.

Lemma template_score_spec t : template_score t q = spec_score t q.
Proof.
  unfold template_score, spec_score.
  rewrite count_bonus_sum, count_matches_sum. simpl.
  induction (keywords t) as [|kw kws IH]; [reflexivity|].
  simpl. unfold keyword_points at 1.
  destruct (contains (lower kw) q), (Nat.ltb 3 (List.length kw));
    simpl; lia.
Qed.

Lemma template_score_zero t :
  forallb (fun kw => negb (contains (lower kw) q)) (keywords t) = true ->
  template_score t q = 0%nat.
Proof.
  rewrite template_score_spec. unfold spec_score.
  induction (keywords t) as [|kw kws IH]; [reflexivity|].
  simpl. intros H. apply andb_true_iff in H as [Hk Hr].
  unfold keyword_points at 1.
  destruct (contains (lower kw) q); [discriminate|]. now apply IH.
Qed.

(** Templates that do not beat the current maximum leave the pair
    unchanged. *)
Lemma best_from_le ts : forall best m,
  (forall t, In t ts -> (template_score t q <= m)%nat) ->
  best_from ts q best m = (best, m).
Proof.
  induction ts as [|t ts IH]; intros best m H; [reflexivity|].
  cbn [best_from].
  assert (E : Nat.ltb m (template_score t q) = false)
    by (apply Nat.ltb_ge, H; now left).
  rewrite E. apply IH. intros t' Ht'. apply H. now right.
Qed.

(** The loop ends on the first template that attains the maximum, when
    that beats the initial score. *)
Lemma best_from_first ts : forall i t best m,
  nth_error ts i = Some t ->
  (m < template_score t q)%nat ->
  (forall t', In t' ts -> (template_score t' q <= template_score t q)%nat) ->
  (forall j t', (j < i)%nat -> nth_error ts j = Some t' ->
                (template_score t' q < template_score t q)%nat) ->
  best_from ts q best m = (Some t, template_score t q).
Proof.
  induction ts as [|t0 ts IH]; intros i t best m Hi Hm Hmax Hfirst.
  - destruct i; discriminate.
  - cbn [best_from]. destruct i as [|i].
    + inversion Hi; subst t0.
      apply Nat.ltb_lt in Hm. rewrite Hm.
      apply best_from_le. intros t' Ht'. apply Hmax. now right.
    + simpl in Hi.
      assert (H0 : (template_score t0 q < template_score t q)%nat)
        by (apply (Hfirst 0%nat); [lia | reflexivity]).
      assert (Hrest : forall j t', (j < i)%nat ->
                nth_error ts j = Some t' ->
                (template_score t' q < template_score t q)%nat)
        by (intros j t' Hj E; apply (Hfirst (S j)); [lia | exact E]).
      assert (Hmax' : forall t', In t' ts ->
                (template_score t' q <= template_score t q)%nat)
        by (intros t' Ht'; apply Hmax; now right).
      destruct (Nat.ltb m (template_score t0 q)); now apply (IH i).
Qed.
End Scores.

Lemma find_best_in_default (U : UnicodeData) ts user_query :
  (forall t, In t ts -> template_score t (lower user_query) = 0%nat) ->
  find_best_in ts user_query = (get_default_query, Some default_label).
Proof.
  intros H. unfold find_best_in.
  rewrite best_from_le; [reflexivity|].
  intros t Ht. rewrite (H t Ht). lia.
Qed.

Lemma find_best_in_first (U : UnicodeData) ts user_query i t :
  nth_error ts i = Some t ->
  (0 < template_score t (lower user_query))%nat ->
  (forall t', In t' ts ->
     (template_score t' (lower user_query)
      <= template_score t (lower user_query))%nat) ->
  (forall j t', (j < i)%nat -> nth_error ts j = Some t' ->
     (template_score t' (lower user_query)
      < template_score t (lower user_query))%nat) ->
  find_best_in ts user_query = (sql t, Some (name t)).
Proof.
  intros Hi Hpos Hmax Hfirst. unfold find_best_in.
  rewrite (best_from_first _ ts i t None 0%nat Hi Hpos Hmax Hfirst).
  destruct (template_score t (lower user_query)); [lia | reflexivity].
Qed.

(** C4, as stated, fails: when no keyword occurs the default query comes
    with the label of the default, not without a template name. *)
Lemma C4_default_has_a_name :
  @no_keyword_occurs ascii_data (py "hello") = true
  /\ @find_best_template ascii_data (py "hello")
     <> (get_default_query, None).
Proof. split; vm_compute; [reflexivity | discriminate]. Qed.

(** C4, amended: when no template keyword occurs in the query,
    [find_best_template] returns the default aggregate query together
    with the fixed label of the default as template name. *)
Theorem C4_no_match_gives_default (U : UnicodeData) (user_query : str) :
  no_keyword_occurs user_query = true ->
  find_best_template user_query = (get_default_query, Some default_label)
  /\ occurs (py "SUM(revenue)") get_default_query
  /\ occurs (py "SUM(units)") get_default_query
  /\ occurs (py "COUNT(*)") get_default_query
  /\ occurs (py "FROM sales") get_default_query.
Proof.
  intros H. split.
  - apply find_best_in_default. intros t Ht.
    apply template_score_zero.
    unfold no_keyword_occurs in H. rewrite forallb_forall in H.
    exact (H t Ht).
  - repeat split.
    + exists (py "SELECT " ++ [NL] ++ py "    ").
      eexists. vm_compute. reflexivity.
    + exists (py "SELECT " ++ [NL] ++ py "    SUM(revenue) AS total_revenue,"
              ++ [NL] ++ py "    ").
      eexists. vm_compute. reflexivity.
    + exists (py "SELECT " ++ [NL] ++ py "    SUM(revenue) AS total_revenue,"
              ++ [NL] ++ py "    SUM(units) AS total_units,"
              ++ [NL] ++ py "    ").
      eexists. vm_compute. reflexivity.
    + exists (py "SELECT " ++ [NL] ++ py "    SUM(revenue) AS total_revenue,"
              ++ [NL] ++ py "    SUM(units) AS total_units,"
              ++ [NL] ++ py "    COUNT(*) AS total_transactions" ++ [NL]).
      exists []. vm_compute. reflexivity.
Qed.

Lemma C4_no_match_gives_default_witness :
  @find_best_template ascii_data (py "hello")
  = (get_default_query, Some default_label).
Proof.
  apply (C4_no_match_gives_default ascii_data (py "hello")).
  vm_compute. reflexivity.
Defined.

(** C7: the score of a template is the sum over its keywords of one point
    per keyword found in the lower-cased text plus one more when the
    keyword is longer than three characters; when every score is 0 the
    default is returned, and otherwise the result is the first template,
    in registry order, that attains the maximum score.  The result is a
    function of the text and the registry. *)
Theorem C7_first_maximum_wins (U : UnicodeData) (user_query : str) :
  (forall t, template_score t (lower user_query)
             = spec_score t (lower user_query))
  /\ find_best_template user_query
     = find_best_in get_fallback_templates user_query
  /\ forall templates,
       ((forall t, In t templates ->
           spec_score t (lower user_query) = 0%nat) ->
        find_best_in templates user_query
        = (get_default_query, Some default_label))
       /\ (forall i t,
             nth_error templates i = Some t ->
             (0 < spec_score t (lower user_query))%nat ->
             (forall t', In t' templates ->
                (spec_score t' (lower user_query)
                 <= spec_score t (lower user_query))%nat) ->
             (forall j t', (j < i)%nat -> nth_error templates j = Some t' ->
                (spec_score t' (lower user_query)
                 < spec_score t (lower user_query))%nat) ->
             find_best_in templates user_query = (sql t, Some (name t))).
Proof.
  split; [intros t; apply template_score_spec|].
  split; [reflexivity|].
  intros templates. split.
  - intros H. apply find_best_in_default.
    intros t Ht. rewrite template_score_spec. now apply H.
  - intros i t Hi Hpos Hmax Hfirst. apply (find_best_in_first U _ _ i t Hi).
    + now rewrite template_score_spec.
    + intros t' Ht'. rewrite !template_score_spec. now apply Hmax.
    + intros j t' Hj E. rewrite !template_score_spec.
      now apply (Hfirst j).
Qed.

Lemma C7_first_maximum_wins_witness :
  exists t,
    nth_error get_fallback_templates 1 = Some t
    /\ @template_score ascii_data t (py "region channel") = 2%nat
    /\ @find_best_template ascii_data (py "region channel")
       = (sql t, Some (name t)).
Proof.
  eexists. split; [reflexivity|]. split; [vm_compute; reflexivity|].
  destruct (C7_first_maximum_wins ascii_data (py "region channel"))
    as (_ & E & H).
  rewrite E.
  apply (proj2 (H get_fallback_templates) 1%nat).
  - reflexivity.
  - vm_compute. lia.
  - intros t' Hin. unfold get_fallback_templates in Hin. cbn [In] in Hin.
    repeat destruct Hin as [<- | Hin]; try contradiction; vm_compute; lia.
  - intros j t' Hj Hn. destruct j as [|j]; [|lia].
    cbn [nth_error get_fallback_templates] in Hn. inversion Hn; subst.
    vm_compute. lia.
Defined.

End Resolver.

(** ** The orchestrator *)

Module Pipeline.
Import PyStr SqlGuard QueryTemplates Effects Narration ChatbotApp.
Import Spec TableFacts Resolver.

Section Run.
Context {U : UnicodeData} {W row : Type}.
Variable db_execute : str -> W -> outcome (DataFrame row) * W.

(** One query handed to the engine is one more entry of the log. *)
Lemma execute_sql_query_log sql (w : world W) :
  engine_log (snd (execute_sql_query db_execute sql w))
  = engine_log w ++ [sql].
Proof.
  unfold execute_sql_query, bind, log_sql, call, ret. cbn.
  destruct (db_execute sql (services w)) as [[df | e] s]; reflexivity.
Qed.
End Run.

(** C5: when the model's SQL passes the guard and its execution yields an
    empty table, [process_user_query] resolves a template with
    [find_best_template], executes the template's SQL after the model's,
    and returns it with [is_fallback] set. *)
Theorem C5_empty_result_forces_fallback
    (U : UnicodeData) (W row : Type)
    (data : DataFrame row) (llm_client : LLMClient W)
    (db_execute : str -> W -> outcome (DataFrame row) * W)
    (schema_info : DataFrame row -> outcome str)
    (user_query schema llm_response executed_sql : str)
    (w : world W) (s1 : W) :
  schema_info data = Returned schema ->
  generate_sql llm_client user_query schema (services w)
  = (Returned llm_response, s1) ->
  validate_and_sanitize_sql llm_response = inr executed_sql ->
  let primary :=
    execute_sql_query db_execute executed_sql
      {| services := s1; engine_log := engine_log w |} in
  df_empty (fst primary) = true ->
  let resolved := find_best_template user_query in
  let fallback :=
    execute_sql_query db_execute (fst resolved) (snd primary) in
  process_user_query (Some data) (Some llm_client) db_execute schema_info
    user_query w
  = ((Some (fst resolved), fst fallback, true, snd resolved), snd fallback)
  /\ engine_log (snd fallback)
     = engine_log w ++ [executed_sql; fst resolved].
Proof.
  intros Hs Hg Hv primary Hempty resolved fallback. split.
  - unfold process_user_query, generate_and_run. rewrite Hs.
    unfold bind at 1. unfold bind at 1. unfold call at 1. rewrite Hg, Hv.
    unfold bind at 1. fold primary.
    destruct primary as [df w1] eqn:Ep. cbn [fst snd] in *.
    unfold ret at 1. rewrite Hempty. cbn [orb].
    subst fallback resolved.
    destruct (find_best_template user_query) as [tsql tname].
    cbn [fst snd]. unfold bind, ret.
    destruct (execute_sql_query db_execute tsql w1). reflexivity.
  - subst fallback. rewrite execute_sql_query_log.
    subst primary. rewrite execute_sql_query_log. cbn [engine_log].
    now rewrite <- app_assoc.
Qed.

Lemma C5_empty_result_forces_fallback_witness :
  @process_user_query ascii_data unit unit (Some one_row)
    (Some scenario_client) scenario_engine (fun _ => Returned [])
    (py "hello") scenario_world
  = ((Some get_default_query, one_row, true, Some default_label),
     {| services := tt; engine_log := [vacuous_sql; get_default_query] |}).
Proof.
  destruct (C5_empty_result_forces_fallback ascii_data unit unit one_row
              scenario_client scenario_engine (fun _ => Returned [])
              (py "hello") [] _ vacuous_sql scenario_world tt
              eq_refl eq_refl) as [E _].
  - vm_compute. reflexivity.
  - vm_compute. reflexivity.
  - rewrite E. vm_compute. reflexivity.
Defined.

(** The loop keeps the initial choice or picks a template of the list. *)
Lemma best_from_member (U : UnicodeData) q ts : forall best m,
  fst (best_from ts q best m) = best
  \/ exists t, In t ts /\ fst (best_from ts q best m) = Some t.
Proof.
  induction ts as [|t0 ts IH]; intros best m; [now left|].
  cbn [best_from]. destruct (Nat.ltb m (template_score t0 q)).
  - right. destruct (IH (Some t0) (template_score t0 q)) as [E|(t & Ht & E)].
    + exists t0. split; [now left | exact E].
    + exists t. split; [now right | exact E].
  - destruct (IH best m) as [E|(t & Ht & E)]; [now left|].
    right. exists t. split; [now right | exact E].
Qed.

Lemma find_best_template_source (U : UnicodeData) user_query :
  In (fst (find_best_template user_query)) template_queries.
Proof.
  unfold find_best_template, find_best_in, template_queries.
  apply in_or_app.
  destruct (best_from_member U (lower user_query) get_fallback_templates
              None 0%nat) as [E|(t & Ht & E)];
    destruct (best_from get_fallback_templates (lower user_query) None 0)
      as [b m]; cbn [fst] in E; subst b.
  - right. now left.
  - destruct (Nat.eqb m 0); [right; now left|].
    left. cbn [fst]. now apply in_map.
Qed.

Lemma template_queries_safe (U : UnicodeData) :
  faithful U ->
  forall s, In s template_queries -> fst (is_sql_safe s) = true.
Proof.
  intros HU s Hs. unfold is_sql_safe.
  unfold template_queries, get_fallback_templates in Hs.
  cbn [map app In sql] in Hs.
  repeat destruct Hs as [<- | Hs]; try contradiction;
    (rewrite (sanitize_sql_indep U HU) by (vm_compute; reflexivity));
    vm_compute; reflexivity.
Qed.

(** C8: [find_best_template] is total and its SQL is one of the four
    template queries or the default query, each of which passes the guard;
    and every SQL string [process_user_query] hands to the engine is
    either one the guard returned for some model response or one of those
    template queries. *)
Theorem C8_only_guarded_sql_is_executed (U : UnicodeData) :
  faithful U ->
  (forall user_query,
     In (fst (find_best_template user_query)) template_queries)
  /\ (forall s, In s template_queries -> is_sql_safe s = (true, []))
  /\ (forall (W row : Type) sales_data llm_client
        (db_execute : str -> W -> outcome (DataFrame row) * W)
        schema_info user_query (w : world W),
        exists handed,
          engine_log
            (snd (process_user_query sales_data llm_client db_execute
                    schema_info user_query w))
          = engine_log w ++ handed
          /\ forall s, In s handed ->
               (exists llm_response,
                  validate_and_sanitize_sql llm_response = inr s)
               \/ In s template_queries).
Proof.
  intros HU. split; [apply find_best_template_source|]. split.
  - intros s Hs. pose proof (template_queries_safe U HU s Hs) as H.
    unfold is_sql_safe in *. now destruct (sanitize_sql s).
  - intros W row sales_data llm_client db_execute schema_info user_query w.
    pose proof (find_best_template_source U user_query) as Hsrc.
    unfold process_user_query.
    destruct sales_data as [data|];
      [|exists []; split; [cbn; now rewrite app_nil_r | intros s []]].
    unfold generate_and_run.
    destruct (find_best_template user_query) as [tsql tname].
    cbn [fst] in Hsrc.
    assert (Hfallback : forall w0 : world W,
      engine_log
        (snd (bind (execute_sql_query db_execute tsql)
                (fun result_df =>
                   ret (Some tsql, result_df, true, tname)) w0))
      = engine_log w0 ++ [tsql]).
    { intros w0. unfold bind, ret.
      pose proof (execute_sql_query_log db_execute tsql w0) as L.
      destruct (execute_sql_query db_execute tsql w0). exact L. }
    destruct llm_client as [client|].
    2:{ exists [tsql]. unfold bind at 1. unfold ret at 1. cbn [orb].
        split; [rewrite Hfallback; reflexivity|].
        intros s [<-|[]]. now right. }
    destruct (schema_info data) as [schema|e].
    2:{ exists [tsql]. unfold bind at 1. unfold ret at 1. cbn [orb].
        split; [rewrite Hfallback; reflexivity|].
        intros s [<-|[]]. now right. }
    unfold bind at 1. unfold bind at 1. unfold call at 1.
    destruct (generate_sql client user_query schema (services w))
      as [[llm_response|e] s1].
    2:{ exists [tsql]. unfold ret at 1. cbn [orb].
        split; [rewrite Hfallback; reflexivity|].
        intros s [<-|[]]. now right. }
    destruct (validate_and_sanitize_sql llm_response)
      as [e|executed_sql] eqn:Hv.
    { exists [tsql]. unfold ret at 1. cbn [orb].
      split; [rewrite Hfallback; reflexivity|].
      intros s [<-|[]]. now right. }
    unfold bind at 1.
    pose proof (execute_sql_query_log db_execute executed_sql
                  {| services := s1; engine_log := engine_log w |}) as L1.
    destruct (execute_sql_query db_execute executed_sql
                {| services := s1; engine_log := engine_log w |})
      as [df w1].
    cbn [snd engine_log] in L1. unfold ret at 1. cbn [orb].
    destruct (df_empty df).
    + exists [executed_sql; tsql]. split.
      * rewrite Hfallback, L1. now rewrite <- app_assoc.
      * intros s [<-|[<-|[]]]; [left; now exists llm_response | now right].
    + exists [executed_sql]. split; [exact L1|].
      intros s [<-|[]]. left; now exists llm_response.
Qed.

Lemma C8_only_guarded_sql_is_executed_witness :
  In (fst (@find_best_template ascii_data (py "hello"))) template_queries.
Proof.
  exact (proj1 (C8_only_guarded_sql_is_executed ascii_data
                  ascii_data_faithful) (py "hello")).
Defined.

End Pipeline.

(** ** The summary *)

Module Summary.
Import PyStr Effects Narration ChatbotApp Spec.

Lemma join_head sep c p rest : hd 0 (join sep ((c :: p) :: rest)) = c.
Proof. destruct rest; reflexivity. Qed.

Lemma error_text_head e :
  exists t, py "サマリー生成中にエラーが発生しました: " ++ e = 0x30B5 :: t.
Proof. eexists. vm_compute. reflexivity. Qed.

Lemma bullet_line_head x : exists t, py "• " ++ x = 0x2022 :: t.
Proof. eexists. vm_compute. reflexivity. Qed.

(** C6 does not hold of the code: when the summary call of the service
    raises, [generate_summary_with_llm] returns the text of the error, so
    the handler of [generate_analysis_summary] never runs and the summary
    is that error text (followed by the template note, if a template
    name was given) instead of the rule-based summary. *)
Theorem C6_summary_failure_is_surfaced
    (W row : Type) (to_csv_head : DataFrame row -> str)
    (numeric_lines categorical_lines : DataFrame row -> list str)
    (client : LLMClient W) (user_query sql : str)
    (result_df : DataFrame row) (template_name : option str)
    (w : world W) (e : str) (s1 : W) :
  df_empty result_df = false ->
  generate_summary client user_query sql (to_csv_head result_df)
    (services w) = (Raised e, s1) ->
  let summary :=
    fst (generate_analysis_summary to_csv_head numeric_lines
           categorical_lines (Some client) user_query sql result_df false
           template_name w) in
  summary
  = match truthy template_name with
    | Some t =>
        (py "サマリー生成中にエラーが発生しました: " ++ e)
          ++ [NL; NL] ++ py "【注記】定型クエリ「" ++ t
          ++ py "」を使用して分析しました"
    | None => py "サマリー生成中にエラーが発生しました: " ++ e
    end
  /\ summary
     <> create_fallback_summary numeric_lines categorical_lines user_query
          sql result_df template_name.
Proof.
  intros Hne Hraise summary.
  assert (E : summary
              = match truthy template_name with
                | Some t =>
                    (py "サマリー生成中にエラーが発生しました: " ++ e)
                      ++ [NL; NL] ++ py "【注記】定型クエリ「" ++ t
                      ++ py "」を使用して分析しました"
                | None => py "サマリー生成中にエラーが発生しました: " ++ e
                end).
  { subst summary. unfold generate_analysis_summary. rewrite Hne.
    unfold generate_summary_with_llm, bind, call, ret.
    rewrite Hraise. reflexivity. }
  split; [exact E|].
  rewrite E. clear E summary. intros X. apply (f_equal (hd 0)) in X.
  unfold create_fallback_summary in X. rewrite Hne in X.
  destruct (error_text_head e) as [t1 E1].
  destruct (bullet_line_head
              (format_thousands (List.length (df_rows result_df))
               ++ py " 件のレコードが該当しました")) as [t2 E2].
  rewrite E1, E2 in X. clear E1 E2.
  rewrite <- app_comm_cons, join_head in X.
  destruct (truthy template_name);
    rewrite <- ?app_comm_cons in X; cbn [hd] in X; discriminate X.
Qed.

(** The scenario: the summary call raises [timeout]; the summary, and with
    it the reply of the chat handler, carries the error text. *)
Lemma C6_summary_failure_is_surfaced_witness :
  fst (generate_analysis_summary (fun _ => []) (fun _ => []) (fun _ => [])
         (Some scenario_client) (py "hello") vacuous_sql one_row false
         None scenario_world)
  = py "サマリー生成中にエラーが発生しました: timeout"
  /\ fst (@respond ascii_data unit unit (Some one_row)
            (Some scenario_client) (fun _ w => (Returned one_row, w))
            (fun _ => Returned []) (fun _ => []) (fun _ => [])
            (fun _ => []) (py "hello") scenario_world)
     = py "分析を完了しました。" ++ [NL; NL]
       ++ py "サマリー生成中にエラーが発生しました: timeout".
Proof.
  split.
  - destruct (C6_summary_failure_is_surfaced unit unit (fun _ => [])
                (fun _ => []) (fun _ => []) scenario_client (py "hello")
                vacuous_sql one_row None scenario_world (py "timeout") tt
                eq_refl eq_refl) as [E _].
    rewrite E. vm_compute. reflexivity.
  - vm_compute. reflexivity.
Defined.

End Summary.

(** ** More on the template registry *)

Module Registry.
Import PyStr PyDict SqlGuard QueryTemplates Spec Notions.
Import TableFacts StringFacts Resolver Pipeline.

Lemma str_eqb_eq a b : str_eqb a b = true <-> a = b.
Proof.
  unfold str_eqb. destruct (list_eq_dec N.eq_dec a b); split; intros H;
    congruence.
Qed.

Lemma str_eqb_refl a : str_eqb a a = true.
Proof. now apply str_eqb_eq. Qed.

Lemma str_eqb_neq a b : a <> b -> str_eqb a b = false.
Proof.
  intros H. destruct (str_eqb a b) eqn:E; [|reflexivity].
  apply str_eqb_eq in E. contradiction.
Qed.

Lemma distinct_NoDup l : distinct l = true -> NoDup l.
Proof.
  induction l as [|x l IH]; intros H; [constructor|].
  simpl in H. apply andb_true_iff in H as [Hx Hl].
  constructor; [|now apply IH].
  intros Hin. apply negb_true_iff in Hx.
  assert (X : existsb (str_eqb x) l = true)
    by (apply existsb_exists; exists x; split;
        [exact Hin | apply str_eqb_refl]).
  congruence.
Qed.

Section AnyRegistry.
Variable templates : list QueryTemplate.

Lemma get_template_by_name_in_source n :
  get_template_by_name_in templates n = get_default_query
  \/ exists t, In t templates /\ name t = n
               /\ get_template_by_name_in templates n = sql t.
Proof.
  induction templates as [|t ts IH]; [now left|]. simpl.
  destruct (str_eqb (name t) n) eqn:E.
  - right. exists t. apply str_eqb_eq in E. now repeat split; [left|..].
  - destruct IH as [H|(t' & Hin & Hn & H)]; [now left|].
    right. exists t'. now repeat split; [right|..].
Qed.

Lemma get_template_by_name_in_unknown n :
  (forall t, In t templates -> name t <> n) ->
  get_template_by_name_in templates n = get_default_query.
Proof.
  induction templates as [|t ts IH]; intros H; [reflexivity|]. simpl.
  rewrite str_eqb_neq by (apply H; now left).
  apply IH. intros t' Ht'. apply H. now right.
Qed.

Lemma get_template_by_name_in_found t :
  NoDup (map name templates) -> In t templates ->
  get_template_by_name_in templates (name t) = sql t.
Proof.
  induction templates as [|t0 ts IH]; intros Hnd Hin; [contradiction|].
  simpl in *. inversion Hnd as [|? ? Hnot Hnd']; subst.
  destruct Hin as [->|Hin].
  - now rewrite str_eqb_refl.
  - rewrite str_eqb_neq; [now apply IH|].
    intros E. apply Hnot. rewrite E. now apply in_map.
Qed.
End AnyRegistry.

Lemma registry_names_distinct : NoDup (map name get_fallback_templates).
Proof. apply distinct_NoDup. vm_compute. reflexivity. Qed.

Lemma default_label_is_no_template t :
  In t get_fallback_templates -> name t <> default_label.
Proof.
  intros Hin E.
  assert (X : existsb (str_eqb default_label)
                (map name get_fallback_templates) = false)
    by (vm_compute; reflexivity).
  assert (Y : existsb (str_eqb default_label)
                (map name get_fallback_templates) = true).
  { apply existsb_exists. exists (name t).
    split; [now apply in_map | rewrite E; apply str_eqb_refl]. }
  congruence.
Qed.

(** What [find_best_in] returns: the default pair, or the pair of a
    template of the registry. *)
Lemma find_best_in_source (U : UnicodeData) ts q :
  find_best_in ts q = (get_default_query, Some default_label)
  \/ exists t, In t ts /\ find_best_in ts q = (sql t, Some (name t)).
Proof.
  unfold find_best_in.
  destruct (best_from_member U (lower q) ts None 0%nat)
    as [E|(t & Ht & E)];
    destruct (best_from ts (lower q) None 0) as [b m];
    cbn [fst] in E; subst b; [now left|].
  destruct (Nat.eqb m 0); [now left|]. right. now exists t.
Qed.

(** The name handed back by [find_best_template] leads
    [get_template_by_name] to the SQL handed back with it, for every
    query: the template names are pairwise different, and the label of
    the default is not the name of a template. *)
Theorem template_name_round_trip (U : UnicodeData) (user_query : str) :
  exists template_name,
    snd (find_best_template user_query) = Some template_name
    /\ get_template_by_name template_name
       = fst (find_best_template user_query).
Proof.
  unfold find_best_template, get_template_by_name.
  destruct (find_best_in_source U get_fallback_templates user_query)
    as [E|(t & Hin & E)]; rewrite E; cbn [fst snd].
  - exists default_label. split; [reflexivity|].
    apply get_template_by_name_in_unknown.
    intros t. apply default_label_is_no_template.
  - exists (name t). split; [reflexivity|].
    now apply get_template_by_name_in_found;
      [apply registry_names_distinct|].
Qed.

(** Whatever name it is given, [get_template_by_name] returns a query
    that [is_sql_safe] accepts. *)
Theorem named_template_is_safe (U : UnicodeData) (template_name : str) :
  faithful U ->
  is_sql_safe (get_template_by_name template_name) = (true, []).
Proof.
  intros HU.
  assert (Hin : In (get_template_by_name template_name) template_queries).
  { unfold get_template_by_name, template_queries. apply in_or_app.
    destruct (get_template_by_name_in_source get_fallback_templates
                template_name) as [E|(t & Hin & _ & E)]; rewrite E.
    - right. now left.
    - left. now apply in_map. }
  pose proof (template_queries_safe U HU _ Hin) as H. clear Hin.
  revert H. generalize (get_template_by_name template_name). intros s.
  unfold is_sql_safe. destruct (sanitize_sql s); cbn [fst]; intros H;
    [discriminate H | reflexivity].
Qed.

Lemma named_template_is_safe_witness :
  @is_sql_safe ascii_data (get_template_by_name (py "no such template"))
  = (true, []).
Proof.
  exact (named_template_is_safe ascii_data (py "no such template")
           ascii_data_faithful).
Defined.

(** *** The listing of the registry *)

Lemma dict_set_absent {V : Type} (d : dict V) k (v : V) :
  ~ In k (dict_keys d) -> dict_set d k v = d ++ [(k, v)].
Proof.
  unfold dict_keys. induction d as [|[k' v'] d IH]; intros H;
    [reflexivity|].
  simpl in *. rewrite str_eqb_neq by (intros E; apply H; now left).
  rewrite IH; [reflexivity|]. intros Hin. apply H. now right.
Qed.

Lemma list_available_from ts : forall acc,
  NoDup (dict_keys acc ++ map name ts) ->
  fold_left
    (fun d template => dict_set d (name template) (description template))
    ts acc
  = acc ++ map (fun t => (name t, description t)) ts.
Proof.
  induction ts as [|t ts IH]; intros acc H; simpl.
  - now rewrite app_nil_r.
  - simpl in H. pose proof (NoDup_remove_2 _ _ _ H) as Hnot.
    rewrite dict_set_absent
      by (intros Hin; apply Hnot; apply in_or_app; now left).
    rewrite IH.
    + now rewrite <- app_assoc.
    + unfold dict_keys. rewrite map_app. cbn [map fst].
      rewrite <- app_assoc. exact H.
Qed.

Lemma list_available_in_eq ts :
  NoDup (map name ts) ->
  list_available_in ts = map (fun t => (name t, description t)) ts.
Proof.
  intros H. unfold list_available_in. now rewrite list_available_from.
Qed.

Lemma dict_get_listing ts n :
  match dict_get (map (fun t => (name t, description t)) ts) n with
  | Some d =>
      exists t, In t ts /\ name t = n /\ description t = d
                /\ get_template_by_name_in ts n = sql t
  | None =>
      (forall t, In t ts -> name t <> n)
      /\ get_template_by_name_in ts n = get_default_query
  end.
Proof.
  induction ts as [|t ts IH]; simpl.
  - split; [intros t []|reflexivity].
  - destruct (str_eqb (name t) n) eqn:E.
    + apply str_eqb_eq in E. exists t. now repeat split; [left|..].
    + destruct (dict_get _ n) as [d|].
      * destruct IH as (t' & Hin & Hn & Hd & Hs). exists t'.
        now repeat split; [right|..].
      * destruct IH as [Hnone Hdef]. split; [|exact Hdef].
        intros t' [<-|Hin]; [|now apply Hnone].
        intros E'. rewrite E' in E. now rewrite str_eqb_refl in E.
Qed.

(** In a registry whose template names are pairwise different, the
    listing of [list_available_templates] has the template names as its
    keys, in registry order; a listed name has the description of its
    template and [get_template_by_name] gives that template's SQL; for a
    name that is not listed, no template has it and
    [get_template_by_name] gives the default query. *)
Theorem listing_agrees_with_lookup (templates : list QueryTemplate) :
  NoDup (map name templates) ->
  dict_keys (list_available_in templates) = map name templates
  /\ forall template_name,
       match dict_get (list_available_in templates) template_name with
       | Some d =>
           exists t, In t templates /\ name t = template_name
                     /\ description t = d
                     /\ get_template_by_name_in templates template_name
                        = sql t
       | None =>
           (forall t, In t templates -> name t <> template_name)
           /\ get_template_by_name_in templates template_name
              = get_default_query
       end.
Proof.
  intros H. rewrite (list_available_in_eq _ H). split.
  - unfold dict_keys. rewrite map_map. reflexivity.
  - intros n. apply dict_get_listing.
Qed.

Lemma listing_agrees_with_lookup_witness :
  dict_keys list_available_templates = map name get_fallback_templates
  /\ forall template_name,
       match dict_get list_available_templates template_name with
       | Some d =>
           exists t, In t get_fallback_templates /\ name t = template_name
                     /\ description t = d
                     /\ get_template_by_name template_name = sql t
       | None =>
           (forall t, In t get_fallback_templates ->
                      name t <> template_name)
           /\ get_template_by_name template_name = get_default_query
       end.
Proof.
  exact (listing_agrees_with_lookup get_fallback_templates
           registry_names_distinct).
Defined.

(** *** Scores *)

Section ScoreBounds.
Context {U : UnicodeData}.

Lemma keyword_points_le_2 q kw : (keyword_points q kw <= 2)%nat.
Proof.
  unfold keyword_points.
  destruct (contains (lower kw) q); [|lia].
  destruct (Nat.ltb 3 (List.length kw)); lia.
Qed.

Lemma keyword_points_mono pre q post kw :
  (keyword_points q kw <= keyword_points (pre ++ q ++ post) kw)%nat.
Proof.
  unfold keyword_points.
  destruct (contains (lower kw) q) eqn:E; [|lia].
  apply contains_occurs in E. destruct E as (a & b & ->).
  assert (X : contains (lower kw) (pre ++ (a ++ lower kw ++ b) ++ post)
              = true).
  { apply contains_occurs. exists (pre ++ a), (b ++ post).
    now rewrite <- !app_assoc. }
  rewrite X. lia.
Qed.
End ScoreBounds.

(** The score of a template is at most twice the number of its keywords,
    and text added before or after the lower-cased query never lowers
    it. *)
Theorem template_score_bounds (U : UnicodeData) (template : QueryTemplate)
    (pre user_query_lower post : str) :
  (template_score template user_query_lower
   <= 2 * List.length (keywords template))%nat
  /\ (template_score template user_query_lower
      <= template_score template (pre ++ user_query_lower ++ post))%nat.
Proof.
  rewrite !template_score_spec. unfold spec_score.
  induction (keywords template) as [|kw kws [IH1 IH2]]; simpl;
    [split; lia|].
  pose proof (keyword_points_le_2 user_query_lower kw).
  pose proof (keyword_points_mono pre user_query_lower post kw).
  split; lia.
Qed.

End Registry.

(** ** More on the guard *)

Module GuardFacts.
Import PyStr Regex SqlGuard Spec Notions.
Import TableFacts StringFacts TableScan Validated EmptyCandidates
  Revalidation.

(** *** Whole words *)

Section Words.
Context {U : UnicodeData}.

Lemma prev_word_nonempty pw (a t : str) :
  t <> [] -> prev_word pw (a ++ t) = isword (last t 0).
Proof.
  destruct t as [|c t]; [congruence|]. intros _.
  rewrite prev_word_app, <- (prev_word_cons false). reflexivity.
Qed.

Lemma prev_word_app2 pw (a b : str) :
  prev_word pw (a ++ b) = prev_word (prev_word pw a) b.
Proof.
  destruct b as [|c b].
  - now rewrite app_nil_r.
  - now rewrite prev_word_app, (prev_word_cons (prev_word pw a)).
Qed.

Lemma match_word_spec kw pw s :
  match_word kw pw s = true <->
  exists post, s = kw ++ post
    /\ at_boundary pw s = true
    /\ at_boundary (isword (last kw 0)) post = true.
Proof.
  unfold match_word. split.
  - intros H. apply andb_true_iff in H as [Hb H].
    destruct (strip_prefix kw s) as [r|] eqn:E; [|discriminate].
    apply strip_prefix_spec in E. now exists r.
  - intros (post & -> & Hb & He). rewrite Hb, strip_prefix_app. exact He.
Qed.

Lemma search_word_from_sound kw s : forall pw,
  search_word_from kw pw s = true ->
  exists pre post,
    s = pre ++ kw ++ post
    /\ at_boundary (prev_word pw pre) (kw ++ post) = true
    /\ at_boundary (isword (last kw 0)) post = true.
Proof.
  induction s as [|c r IH]; intros pw H; cbn [search_word_from] in H.
  - rewrite orb_false_r in H.
    apply match_word_spec in H as (post & E & Hb & He).
    exists [], post. rewrite <- E. now repeat split.
  - apply orb_true_iff in H as [H|H].
    + apply match_word_spec in H as (post & E & Hb & He).
      exists [], post. rewrite <- E. now repeat split.
    + destruct (IH _ H) as (pre & post & E & Hb & He).
      exists (c :: pre), post. rewrite E, prev_word_cons.
      now repeat split.
Qed.

Lemma search_word_from_complete kw pre : forall pw post,
  at_boundary (prev_word pw pre) (kw ++ post) = true ->
  at_boundary (isword (last kw 0)) post = true ->
  search_word_from kw pw (pre ++ kw ++ post) = true.
Proof.
  induction pre as [|c pre IH]; intros pw post Hb He.
  - assert (M : match_word kw pw (kw ++ post) = true)
      by (apply match_word_spec; now exists post).
    cbn [app]. destruct (kw ++ post); cbn [search_word_from];
      now rewrite M.
  - cbn [app search_word_from]. rewrite (IH (isword c) post);
      [apply orb_true_r | | exact He].
    now rewrite <- (prev_word_cons pw).
Qed.

Lemma first_forbidden_none kws u :
  first_forbidden kws u = None <->
  forall kw, In kw kws -> search_word kw u = false.
Proof.
  induction kws as [|k kws IH]; cbn [first_forbidden].
  - split; [intros _ kw [] | reflexivity].
  - destruct (search_word k u) eqn:E; split.
    + discriminate.
    + intros H. specialize (H k (or_introl eq_refl)). congruence.
    + intros H kw [<-|Hin]; [exact E | now apply IH].
    + intros H. apply IH. intros kw Hin. apply H. now right.
Qed.

Lemma first_forbidden_some kws u k :
  first_forbidden kws u = Some k ->
  exists before after,
    kws = before ++ k :: after
    /\ search_word k u = true
    /\ forall kw, In kw before -> search_word kw u = false.
Proof.
  induction kws as [|k0 kws IH]; cbn [first_forbidden]; [discriminate|].
  destruct (search_word k0 u) eqn:E.
  - intros [= <-]. exists [], kws. repeat split; [exact E | intros kw []].
  - intros H. destruct (IH H) as (before & after & -> & Hk & Hb).
    exists (k0 :: before), after. repeat split; [exact Hk|].
    intros kw [<-|Hin]; [exact E | now apply Hb].
Qed.

Lemma first_not_sales_some ts t :
  first_not_sales ts = Some t -> In t ts /\ upper t <> SALES.
Proof.
  induction ts as [|t0 ts IH]; cbn [first_not_sales]; [discriminate|].
  destruct (str_eqb (upper t0) SALES) eqn:E.
  - intros H. destruct (IH H). split; [now right | assumption].
  - intros [= <-]. split; [now left|].
    intros X. unfold str_eqb in E.
    now destruct (list_eq_dec N.eq_dec (upper t0) SALES).
Qed.

Lemma findall_table_from_sound b kw fuel : forall pw s t,
  In t (findall_table_from b kw fuel pw s) ->
  exists pre ws post,
    s = pre ++ kw ++ ws ++ t ++ post
    /\ (b = true ->
        at_boundary (prev_word pw pre) (kw ++ ws ++ t ++ post) = true)
    /\ ws <> [] /\ forallb isspace ws = true
    /\ t <> [] /\ forallb isword t = true
    /\ next_is_word post = false.
Proof.
  induction fuel as [|f IH]; intros pw s t H; [contradiction|].
  cbn [findall_table_from] in H.
  destruct (match_table b kw pw s) as [[tok rest]|] eqn:M.
  - destruct (match_table_sound _ _ _ _ _ _ M)
      as (ws & Es & Hws & Hsp & Ht & Hw & Hn).
    destruct H as [<-|H].
    + exists [], ws, rest. split; [exact Es|]. split; [|now repeat split].
      intros ->. unfold match_table in M. cbn [andb] in M.
      destruct (at_boundary pw s) eqn:B; [|discriminate].
      rewrite <- Es. exact B.
    + destruct (IH _ _ _ H) as (pre & ws' & post & Er & Hb & Hrest).
      exists (kw ++ ws ++ tok ++ pre), ws', post. split.
      { rewrite Es, Er, <- !app_assoc. reflexivity. }
      split; [|exact Hrest]. intros Hbt.
      replace (kw ++ ws ++ tok ++ pre) with ((kw ++ ws) ++ tok ++ pre)
        by now rewrite <- app_assoc.
      rewrite app_assoc, prev_word_app2, (prev_word_nonempty pw _ _ Ht).
      now apply Hb.
  - destruct s as [|c r]; [contradiction|].
    destruct (IH _ _ _ H) as (pre & ws & post & Er & Hb & Hrest).
    exists (c :: pre), ws, post. rewrite Er. split; [reflexivity|].
    split; [|exact Hrest]. rewrite prev_word_cons. exact Hb.
Qed.

Hypothesis HU : faithful U.

Lemma word_shaped_spec kw :
  word_shaped kw = true ->
  exists k0 ktl, kw = k0 :: ktl
    /\ isword k0 = true /\ isword (last kw 0) = true.
Proof.
  destruct kw as [|k0 ktl]; [discriminate|]. unfold word_shaped.
  rewrite !andb_true_iff, !N.ltb_lt. intros [[[H0 Hl] W0] Wl].
  exists k0, ktl. split; [reflexivity|].
  rewrite (isword_ascii HU _ H0), (isword_ascii HU _ Hl). now split.
Qed.

Lemma search_word_whole kw u :
  word_shaped kw = true ->
  search_word kw u = true <-> whole_word kw u.
Proof.
  intros Hk. destruct (word_shaped_spec kw Hk) as (k0 & ktl & E & W0 & Wl).
  unfold search_word, whole_word. split.
  - intros H. apply search_word_from_sound in H
      as (pre & post & Eu & Hb & He).
    exists pre, post. split; [exact Eu|].
    unfold at_boundary in Hb, He.
    rewrite Wl in He. rewrite E in Hb. cbn [app next_is_word] in Hb.
    rewrite W0 in Hb.
    destruct (prev_word false pre), (next_is_word post);
      try discriminate; now split.
  - intros (pre & post & -> & Hp & Hn).
    apply search_word_from_complete; unfold at_boundary.
    + rewrite Hp, E. cbn [app next_is_word]. now rewrite W0.
    + now rewrite Wl, Hn.
Qed.

Lemma forbidden_keywords_shaped kw :
  In kw forbidden_keywords -> word_shaped kw = true.
Proof.
  assert (X : forallb word_shaped forbidden_keywords = true)
    by (vm_compute; reflexivity).
  intros H. exact (proj1 (forallb_forall _ _) X kw H).
Qed.
End Words.

(** *** Accepted and rejected queries *)

Lemma sanitize_sql_inr (U : UnicodeData) sql r :
  sanitize_sql sql = inr r -> sql <> [] /\ check (normalize sql) = inr r.
Proof.
  destruct sql as [|c sql]; [discriminate|]. intros H.
  split; [discriminate | exact H].
Qed.

Lemma validate_inr (U : UnicodeData) llm_response r :
  validate_and_sanitize_sql llm_response = inr r ->
  exists sql, extract_sql_from_response llm_response = Some sql
              /\ sanitize_sql sql = inr r.
Proof.
  unfold validate_and_sanitize_sql.
  destruct (extract_sql_from_response llm_response) as [[|c sql]|];
    try discriminate.
  intros H. now exists (c :: sql).
Qed.

Lemma check_not_empty (U : UnicodeData) c r : check c = inr r -> r <> [].
Proof.
  intros H. apply check_inr in H as (-> & Hsel & _).
  intros ->. discriminate Hsel.
Qed.

Section Accepted.
Context {U : UnicodeData}.

Lemma accepted_normal_form sql r :
  sanitize_sql sql = inr r ->
  r = normalize sql /\ r <> []
  /\ single_spaced r = true /\ lstrip r = r
  /\ startswith (strip (upper r)) (py "SELECT") = true.
Proof.
  intros H. apply sanitize_sql_inr in H as [_ H].
  pose proof (check_not_empty U _ _ H) as Hne.
  apply check_inr in H as (-> & Hsel & _).
  repeat split; try assumption.
  - apply normalize_single_spaced.
  - apply normalize_no_leading_space.
Qed.

Hypothesis HU : faithful U.

Lemma accepted_no_forbidden_word sql r kw :
  sanitize_sql sql = inr r -> In kw forbidden_keywords ->
  ~ whole_word kw (upper r).
Proof.
  intros H Hin Hw. apply sanitize_sql_inr in H as [_ H].
  apply check_inr in H as (-> & _ & Hf & _).
  apply (search_word_whole HU _ _ (forbidden_keywords_shaped kw Hin)) in Hw.
  pose proof (proj1 (first_forbidden_none _ _) Hf kw Hin). congruence.
Qed.
End Accepted.

(** Every query the guard returns is in normal form: it is the
    normalisation of the candidate, it is not empty, its only whitespace
    characters are single spaces between other characters or one final
    space (so it is one line), it does not begin with whitespace, and in
    upper case it begins with SELECT. *)
Theorem accepted_query_is_normal (U : UnicodeData) :
  (forall sql r,
     sanitize_sql sql = inr r ->
     r = normalize sql /\ r <> []
     /\ single_spaced r = true /\ lstrip r = r
     /\ startswith (strip (upper r)) (py "SELECT") = true)
  /\ (forall llm_response r,
        validate_and_sanitize_sql llm_response = inr r ->
        r <> [] /\ single_spaced r = true /\ lstrip r = r
        /\ startswith (strip (upper r)) (py "SELECT") = true).
Proof.
  split.
  - intros sql r. apply accepted_normal_form.
  - intros llm_response r H. apply validate_inr in H as (sql & _ & H).
    now apply accepted_normal_form in H.
Qed.

Lemma accepted_query_is_normal_witness :
  trimmed_query = normalize trimmed_query /\ trimmed_query <> []
  /\ single_spaced trimmed_query = true
  /\ lstrip trimmed_query = trimmed_query
  /\ startswith (strip (@upper ascii_data trimmed_query)) (py "SELECT")
     = true.
Proof.
  apply (proj1 (accepted_query_is_normal ascii_data) trimmed_query).
  vm_compute. reflexivity.
Defined.

(** *** Letter case in ASCII queries *)

Lemma upper_ascii_map s :
  @upper ascii_data s
  = map (fun c => if is_ascii_lower c then c - 32 else c) s.
Proof.
  unfold upper. induction s as [|c s IH]; [reflexivity|].
  cbn [flat_map map]. rewrite IH. reflexivity.
Qed.

Lemma isword_capital c :
  @isword ascii_data (if is_ascii_lower c then c - 32 else c)
  = @isword ascii_data c.
Proof.
  destruct (is_ascii_lower c) eqn:E; [|reflexivity].
  assert (L : is_ascii_upper (c - 32) = true).
  { unfold is_ascii_lower in E. apply andb_true_iff in E as [E1 E2].
    apply N.leb_le in E1, E2. unfold is_ascii_upper.
    apply andb_true_iff. split; apply N.leb_le; lia. }
  unfold isword. cbn [cp_isalnum ascii_data]. rewrite E, L.
  now rewrite orb_true_r.
Qed.

Lemma capital_is_ascii c :
  c < 128 -> (if is_ascii_lower c then c - 32 else c) < 128.
Proof. destruct (is_ascii_lower c); lia. Qed.

Lemma last_map_capital (l : str) :
  last (map (fun c => if is_ascii_lower c then c - 32 else c) l) 0
  = (fun c => if is_ascii_lower c then c - 32 else c) (last l 0).
Proof.
  induction l as [|c l IH]; [reflexivity|].
  destruct l as [|d l]; [reflexivity|]. exact IH.
Qed.

Section Spellings.
Context {U : UnicodeData}.
Hypothesis HU : faithful U.

Lemma isword_of_capital c :
  c < 128 ->
  isword (if is_ascii_lower c then c - 32 else c) = isword c.
Proof.
  intros Hc.
  rewrite (isword_ascii HU _ (capital_is_ascii c Hc)).
  rewrite (isword_ascii HU _ Hc). apply isword_capital.
Qed.

Lemma ascii_spelling_is_seen r w :
  is_ascii r = true -> whole_word w r ->
  whole_word (@upper ascii_data w) (upper r).
Proof.
  intros Hr (pre & post & -> & Hp & Hn).
  rewrite (upper_indep U HU _ Hr).
  apply is_ascii_app in Hr as [Hpre Hr].
  apply is_ascii_app in Hr as [_ Hpost].
  rewrite !upper_ascii_map, !map_app.
  eexists. eexists. split; [reflexivity|]. split.
  - destruct pre as [|c pre]; [reflexivity|].
    pose proof (is_ascii_last _ Hpre) as Hl.
    unfold prev_word in *. cbn [map].
    change ((if is_ascii_lower c then c - 32 else c)
            :: map (fun c0 => if is_ascii_lower c0 then c0 - 32 else c0)
                 pre)
      with (map (fun c0 => if is_ascii_lower c0 then c0 - 32 else c0)
              (c :: pre)).
    rewrite last_map_capital. cbv beta.
    now rewrite (isword_of_capital _ Hl).
  - destruct post as [|c post]; [reflexivity|].
    apply is_ascii_cons in Hpost as [Hc _].
    cbn [map next_is_word] in *.
    now rewrite (isword_of_capital _ Hc).
Qed.
End Spellings.

(** In the upper-cased text of a query the guard returns, which is the
    text the guard scans, no forbidden keyword occurs as a whole word.
    In a returned query of ASCII characters, no spelling of a forbidden
    keyword, in whatever letter case, occurs as a whole word of the
    query itself.  (Outside ASCII a character that is not a word
    character can have an upper case that is one, and then hides a
    keyword that follows it from the scan.) *)
Theorem accepted_query_has_no_forbidden_word (U : UnicodeData) :
  faithful U ->
  (forall sql r kw,
     sanitize_sql sql = inr r -> In kw forbidden_keywords ->
     ~ whole_word kw (upper r))
  /\ (forall llm_response r kw,
        validate_and_sanitize_sql llm_response = inr r ->
        In kw forbidden_keywords ->
        ~ whole_word kw (upper r))
  /\ (forall sql r w,
        sanitize_sql sql = inr r -> is_ascii r = true ->
        In (@upper ascii_data w) forbidden_keywords ->
        ~ whole_word w r)
  /\ (forall llm_response r w,
        validate_and_sanitize_sql llm_response = inr r ->
        is_ascii r = true ->
        In (@upper ascii_data w) forbidden_keywords ->
        ~ whole_word w r).
Proof.
  intros HU.
  assert (A : forall sql r w,
             sanitize_sql sql = inr r -> is_ascii r = true ->
             In (@upper ascii_data w) forbidden_keywords ->
             ~ whole_word w r).
  { intros sql r w H Hr Hin Hw.
    apply (ascii_spelling_is_seen HU r w Hr) in Hw.
    now apply (accepted_no_forbidden_word HU sql r _ H Hin). }
  split; [|split; [|split]].
  - intros sql r kw. now apply accepted_no_forbidden_word.
  - intros llm_response r kw H. apply validate_inr in H as (sql & _ & H).
    now apply (accepted_no_forbidden_word HU sql).
  - exact A.
  - intros llm_response r w H. apply validate_inr in H as (sql & _ & H).
    now apply (A sql).
Qed.

Lemma accepted_query_has_no_forbidden_word_witness :
  ~ @whole_word ascii_data (py "DROP") (@upper ascii_data trimmed_query)
  /\ ~ @whole_word ascii_data (py "Drop") trimmed_query.
Proof.
  pose proof (accepted_query_has_no_forbidden_word ascii_data
                ascii_data_faithful) as (H1 & _ & H3 & _).
  split.
  - apply (H1 trimmed_query).
    + vm_compute. reflexivity.
    + vm_compute. tauto.
  - apply (H3 trimmed_query).
    + vm_compute. reflexivity.
    + vm_compute. reflexivity.
    + vm_compute. tauto.
Defined.

Lemma validated_query_is_clean_witness : @clean ascii_data trimmed_query.
Proof.
  apply (proj1 (validated_query_is_clean ascii_data ascii_data_faithful)
           trimmed_query).
  vm_compute. reflexivity.
Defined.

End GuardFacts.

(** ** Rejections, semicolons and the text of a query *)

Module GuardLaws.
Import PyStr Regex SqlGuard Spec Notions.
Import TableFacts StringFacts TableScan Validated EmptyCandidates
  Revalidation GuardFacts.

(** What each error of [check] was raised on. *)
Lemma check_inl (U : UnicodeData) c e :
  check c = inl e ->
  match e with
  | NoSqlBlockFound | EmptyQuery => False
  | NotASelect => startswith (strip (upper c)) (py "SELECT") = false
  | ForbiddenKeyword k =>
      first_forbidden forbidden_keywords (upper c) = Some k
  | MultipleStatements => contains [SEMI] c = true
  | CommentInjection =>
      contains (py "--") c || contains (py "/*") c = true
  | DisallowedTable t =>
      first_not_sales (findall_table true (py "FROM") (upper c)) = Some t
  | DisallowedJoin t =>
      search_word (py "JOIN") (upper c) = true
      /\ first_not_sales (findall_table false (py "JOIN") (upper c))
         = Some t
  end.
Proof.
  unfold check.
  destruct (startswith (strip (upper c)) (py "SELECT")) eqn:E1;
    cbn [negb]; [|intros [= <-]; reflexivity].
  destruct (first_forbidden forbidden_keywords (upper c)) eqn:E2;
    [intros [= <-]; reflexivity|].
  destruct (contains [SEMI] c) eqn:E3; [intros [= <-]; reflexivity|].
  destruct (contains (py "--") c || contains (py "/*") c) eqn:E4;
    [intros [= <-]; reflexivity|].
  destruct (first_not_sales (findall_table true (py "FROM") (upper c)))
    eqn:E5; [intros [= <-]; reflexivity|].
  destruct (search_word (py "JOIN") (upper c)) eqn:E6; [|discriminate].
  destruct (first_not_sales (findall_table false (py "JOIN") (upper c)))
    eqn:E7; [|discriminate].
  intros [= <-]. split; reflexivity.
Qed.

Section Rejected.
Context {U : UnicodeData}.
Hypothesis HU : faithful U.

Lemma rejection_truthful sql e :
  sanitize_sql sql = inl e -> rejection_holds sql e.
Proof.
  destruct sql as [|c0 sql]; [intros [= <-]; reflexivity|].
  unfold sanitize_sql, rejection_holds. cbv zeta.
  set (n := normalize (c0 :: sql)). intros H. apply check_inl in H.
  destruct e as [| | |k| | |t|t]; try contradiction.
  - split; [discriminate | exact H].
  - apply first_forbidden_some in H as (before & after & E & Hk & Hb).
    exists before, after. split; [exact E|]. split.
    + apply (search_word_whole HU); [|exact Hk].
      apply forbidden_keywords_shaped. rewrite E.
      apply in_or_app. right. now left.
    + intros kw Hin Hw.
      apply (search_word_whole HU) in Hw.
      * specialize (Hb kw Hin). congruence.
      * apply forbidden_keywords_shaped. rewrite E.
        apply in_or_app. now left.
  - now apply occurs_single, contains_occurs.
  - apply orb_true_iff in H as [H|H]; [left|right];
      now apply contains_occurs.
  - apply first_not_sales_some in H as [Hin Hne]. split; [|exact Hne].
    apply findall_table_from_sound in Hin
      as (pre & ws & post & E & Hb & Hrest).
    exists pre, ws, post. split; [exact E|]. split; [|exact Hrest].
    specialize (Hb eq_refl). rewrite py_FROM in Hb.
    unfold at_boundary in Hb. cbn [app next_is_word] in Hb.
    rewrite (isword_ascii HU 70) in Hb by reflexivity.
    now destruct (prev_word false pre).
  - destruct H as [Hs H]. apply first_not_sales_some in H as [Hin Hne].
    split; [|split; [|exact Hne]].
    + apply (search_word_whole HU); [|exact Hs]. vm_compute. reflexivity.
    + apply findall_table_from_sound in Hin
        as (pre & ws & post & E & _ & Hrest).
      now exists pre, ws, post.
Qed.
End Rejected.

(** Every error the guard raises is true of the candidate: an empty-query
    error only on the empty string; a forbidden keyword is on the list,
    occurs as a whole word in the upper-cased normal form, and no keyword
    listed before it does; a multiple-statements error means a semicolon
    is left in the normal form; a comment error means a comment opener
    occurs; a reported table is a word token after FROM, or after JOIN,
    and is not [sales].  An error of [validate_and_sanitize_sql] is the
    no-block error, raised when no block is found or the first block is
    blank, or an error of the block's candidate. *)
Theorem rejection_reason_is_truthful (U : UnicodeData) :
  faithful U ->
  (forall sql e, sanitize_sql sql = inl e -> rejection_holds sql e)
  /\ (forall llm_response e,
        validate_and_sanitize_sql llm_response = inl e ->
        (e = NoSqlBlockFound
         /\ (extract_sql_from_response llm_response = None
             \/ extract_sql_from_response llm_response = Some []))
        \/ exists sql,
             extract_sql_from_response llm_response = Some sql
             /\ rejection_holds sql e).
Proof.
  intros HU. split.
  - intros sql e. now apply rejection_truthful.
  - intros llm_response e. unfold validate_and_sanitize_sql.
    destruct (extract_sql_from_response llm_response) as [[|c sql]|].
    + intros [= <-]. left. split; [reflexivity | now right].
    + intros H. right. exists (c :: sql). split; [reflexivity|].
      now apply rejection_truthful.
    + intros [= <-]. left. split; [reflexivity | now left].
Qed.

Lemma rejection_reason_is_truthful_witness :
  @rejection_holds ascii_data drop_candidate
    (ForbiddenKeyword (py "DROP")).
Proof.
  apply (proj1 (rejection_reason_is_truthful ascii_data
                  ascii_data_faithful) drop_candidate).
  vm_compute. reflexivity.
Defined.

(** *** Final semicolons *)

Lemma lstrip_split s :
  exists ws, s = ws ++ lstrip s /\ forallb isspace ws = true.
Proof.
  induction s as [|c s (ws & E & H)]; [now exists []|].
  cbn [lstrip]. destruct (isspace c) eqn:Ec.
  - exists (c :: ws). cbn [app forallb]. rewrite Ec, H. now rewrite <- E.
  - now exists [].
Qed.

Lemma lstrip_app_nonblank s t :
  lstrip s <> [] -> lstrip (s ++ t) = lstrip s ++ t.
Proof.
  induction s as [|c s IH]; [cbn; congruence|].
  cbn [lstrip app]. destruct (isspace c); [exact IH | reflexivity].
Qed.

Lemma rstrip_by_last p (x : str) :
  x <> [] -> p (last x 0) = false -> rstrip_by p x = x.
Proof.
  induction x as [|c x IH]; [congruence|]. intros _ H.
  cbn [rstrip_by]. destruct x as [|d x].
  - cbn in *. now rewrite H.
  - rewrite IH; [reflexivity | discriminate | exact H].
Qed.

Lemma rstrip_by_last_kept p (s : str) :
  rstrip_by p s <> [] -> p (last (rstrip_by p s) 0) = false.
Proof.
  induction s as [|c s IH]; [cbn; congruence|]. cbn [rstrip_by].
  destruct (rstrip_by p s) as [|d r].
  - destruct (p c) eqn:E; [congruence | intros _; exact E].
  - intros _. apply IH. discriminate.
Qed.

Lemma sub_runs_app_fixed p a t : forall b,
  (forall c, In c t -> p c = false) ->
  sub_runs p b (a ++ t) = sub_runs p b a ++ t.
Proof.
  induction a as [|c a IH]; intros b H.
  - now apply sub_runs_fixed.
  - cbn [app sub_runs]. destruct (p c); [destruct b|];
      now rewrite IH.
Qed.

Lemma rstrip_by_semis n : forall x,
  rstrip_by (N.eqb SEMI) (x ++ repeat SEMI n) = rstrip_by (N.eqb SEMI) x.
Proof.
  induction n as [|n IH]; intros x; cbn [repeat].
  - now rewrite app_nil_r.
  - replace (x ++ SEMI :: repeat SEMI n)
      with ((x ++ [SEMI]) ++ repeat SEMI n) by now rewrite <- app_assoc.
    rewrite IH. now apply rstrip_by_snoc.
Qed.

Lemma last_repeat (c : N) n d : last (repeat c (S n)) d = c.
Proof. induction n as [|n IH]; [reflexivity|]. exact IH. Qed.

Lemma normalize_semis s n :
  rstrip s = s -> s <> [] ->
  normalize (s ++ repeat SEMI n) = normalize s.
Proof.
  intros Hr Hne.
  assert (Hlast : isspace (last s 0) = false).
  { unfold rstrip in Hr. rewrite <- Hr at 1.
    apply rstrip_by_last_kept. now rewrite Hr. }
  destruct (lstrip_split s) as (ws & Es & Hws).
  assert (HL : lstrip s <> []).
  { intros E. rewrite E, app_nil_r in Es. subst ws.
    pose proof (proj1 (forallb_forall _ _) Hws _ (last_member s 0 Hne)).
    congruence. }
  assert (HLlast : last (lstrip s) 0 = last s 0).
  { rewrite Es at 2. destruct (lstrip s) as [|c l]; [congruence|].
    now rewrite last_app_cons. }
  assert (S1 : strip s = lstrip s).
  { unfold strip, rstrip. apply rstrip_by_last; [exact HL|].
    now rewrite HLlast. }
  assert (S2 : strip (s ++ repeat SEMI n) = lstrip s ++ repeat SEMI n).
  { unfold strip, rstrip. rewrite lstrip_app_nonblank by exact HL.
    apply rstrip_by_last.
    - intros E. apply app_eq_nil in E as [E _]. contradiction.
    - destruct n as [|n].
      + cbn [repeat]. rewrite app_nil_r. now rewrite HLlast.
      + cbn [repeat]. rewrite last_app_cons.
        change (SEMI :: repeat SEMI n) with (repeat SEMI (S n)).
        rewrite last_repeat. reflexivity. }
  assert (Hsemi : forall c, In c (repeat SEMI n) -> c = SEMI)
    by (intros c Hc; now apply repeat_spec in Hc).
  unfold normalize. rewrite S1, S2. unfold sub_newlines.
  rewrite sub_runs_app_fixed
    by (intros c Hc; apply Hsemi in Hc; subst c; reflexivity).
  fold (sub_newlines (lstrip s)).
  rewrite !sub_trailing_semicolons_plain.
  - now rewrite rstrip_by_semis.
  - apply sub_newlines_no_newline.
  - intros Hin. apply in_app_or in Hin as [Hin|Hin].
    + revert Hin. apply sub_newlines_no_newline.
    + apply Hsemi in Hin. discriminate Hin.
Qed.

(** Semicolons appended to a candidate that does not end with whitespace
    do not change what the guard does with it: the same query is
    returned, or the same error is raised. *)
Theorem trailing_semicolons_are_dropped (U : UnicodeData)
    (sql : str) (n : nat) :
  rstrip sql = sql -> sql <> [] ->
  sanitize_sql (sql ++ repeat SEMI n) = sanitize_sql sql.
Proof.
  intros Hr Hne. pose proof (normalize_semis sql n Hr Hne) as E.
  destruct sql as [|c sql]; [congruence|].
  cbn [app sanitize_sql]. cbn [app] in E. now rewrite E.
Qed.

Lemma trailing_semicolons_are_dropped_witness :
  @sanitize_sql ascii_data (trimmed_query ++ repeat SEMI 2)
  = @sanitize_sql ascii_data trimmed_query.
Proof.
  apply (trailing_semicolons_are_dropped ascii_data trimmed_query 2).
  - vm_compute. reflexivity.
  - vm_compute. discriminate.
Defined.

(** *** The text of a query *)

Lemma filter_nonspace_blank ws :
  forallb isspace ws = true -> filter nonspace ws = [].
Proof.
  induction ws as [|c ws IH]; [reflexivity|]. cbn [forallb filter].
  intros H. apply andb_true_iff in H as [Hc H]. unfold nonspace at 1.
  rewrite Hc. now apply IH.
Qed.

Lemma filter_lstrip s : filter nonspace (lstrip s) = filter nonspace s.
Proof.
  destruct (lstrip_split s) as (ws & E & H). rewrite E at 2.
  now rewrite filter_app, (filter_nonspace_blank ws H).
Qed.

Lemma filter_rstrip s : filter nonspace (rstrip s) = filter nonspace s.
Proof.
  destruct (rstrip_by_split isspace s) as (tail & E & H).
  fold (rstrip s) in E. rewrite E at 2.
  now rewrite filter_app, (filter_nonspace_blank tail H), app_nil_r.
Qed.

Lemma filter_sub_runs p s :
  (forall c, p c = true -> isspace c = true) ->
  forall b, filter nonspace (sub_runs p b s) = filter nonspace s.
Proof.
  intros Hp. induction s as [|c s IH]; intros b; [reflexivity|].
  cbn [sub_runs filter]. destruct (p c) eqn:Ec.
  - unfold nonspace at 2. rewrite (Hp c Ec). cbn [negb].
    destruct b; [apply IH|]. cbn [filter]. apply IH.
  - cbn [filter]. now rewrite IH.
Qed.

Lemma semis_tail tail :
  forallb (N.eqb SEMI) tail = true ->
  tail = repeat SEMI (List.length tail)
  /\ filter nonspace tail = tail.
Proof.
  induction tail as [|c tail IH]; [now split|]. cbn [forallb].
  intros H. apply andb_true_iff in H as [Hc H].
  apply N.eqb_eq in Hc. subst c. destruct (IH H) as [E F].
  cbn [List.length repeat filter]. rewrite <- E.
  split; [reflexivity|]. change (nonspace SEMI) with true.
  cbn iota. now rewrite F.
Qed.

Lemma normalize_content sql :
  exists n,
    filter nonspace sql = filter nonspace (normalize sql) ++ repeat SEMI n.
Proof.
  unfold normalize.
  rewrite (sub_trailing_semicolons_plain _
             (sub_newlines_no_newline (strip sql))).
  destruct (rstrip_by_split (N.eqb SEMI) (sub_newlines (strip sql)))
    as (tail & E & H).
  destruct (semis_tail tail H) as [Et Ft].
  exists (List.length tail). rewrite <- Et.
  unfold sub_whitespace. rewrite filter_sub_runs by auto.
  rewrite <- Ft, <- filter_app, <- E.
  unfold sub_newlines. rewrite filter_sub_runs.
  - unfold strip. now rewrite filter_rstrip, filter_lstrip.
  - intros c Hc. apply N.eqb_eq in Hc. now subst c.
Qed.

(** The guard does not rewrite a query: the characters of a returned
    query that are not whitespace are those of the candidate, in the
    same order, without the semicolons that ended the candidate. *)
Theorem validation_keeps_the_text (U : UnicodeData) (sql r : str) :
  sanitize_sql sql = inr r ->
  exists n,
    filter nonspace sql = filter nonspace r ++ repeat SEMI n.
Proof.
  intros H. apply accepted_normal_form in H as (-> & _).
  apply normalize_content.
Qed.

Lemma validation_keeps_the_text_witness :
  exists n,
    filter nonspace spaced_candidate
    = filter nonspace spaced_query ++ repeat SEMI n.
Proof.
  apply (validation_keeps_the_text ascii_data spaced_candidate).
  vm_compute. reflexivity.
Defined.

(** *** [is_sql_safe] *)

Lemma message_nonempty e : message e <> [].
Proof.
  assert (X : exists c t, message e = c :: t)
    by (destruct e; eexists; eexists; vm_compute; reflexivity).
  destruct X as (c & t & E). rewrite E. discriminate.
Qed.

(** [is_sql_safe] answers true exactly when [sanitize_sql] returns, and
    its message is empty exactly then. *)
Theorem is_sql_safe_message (U : UnicodeData) (sql : str) :
  (fst (is_sql_safe sql) = true <-> exists r, sanitize_sql sql = inr r)
  /\ (fst (is_sql_safe sql) = true <-> snd (is_sql_safe sql) = []).
Proof.
  unfold is_sql_safe. destruct (sanitize_sql sql) as [e|r]; cbn [fst snd].
  - pose proof (message_nonempty e).
    split; split; try discriminate; try contradiction.
    intros (r & H'). discriminate.
  - split; split; auto. intros _. now exists r.
Qed.

(** [is_sql_safe] accepts every query the guard has returned. *)
Theorem guard_output_is_safe (U : UnicodeData) :
  faithful U ->
  (forall sql r, sanitize_sql sql = inr r -> is_sql_safe r = (true, []))
  /\ (forall llm_response r,
        validate_and_sanitize_sql llm_response = inr r ->
        is_sql_safe r = (true, [])).
Proof.
  intros HU.
  assert (X : forall sql r,
             sanitize_sql sql = inr r -> is_sql_safe r = (true, [])).
  { intros sql r H. destruct (revalidate U sql r HU H) as [E _].
    unfold is_sql_safe. now rewrite E. }
  split; [exact X|].
  intros llm_response r H. apply validate_inr in H as (sql & _ & H).
  now apply (X sql).
Qed.

Lemma guard_output_is_safe_witness :
  @is_sql_safe ascii_data spaced_query = (true, []).
Proof.
  apply (proj1 (guard_output_is_safe ascii_data ascii_data_faithful)
           spaced_candidate).
  vm_compute. reflexivity.
Defined.

End GuardLaws.

(** ** More on the extraction of the block *)

Module Blocks.
Import PyStr Regex SqlGuard Spec Notions.
Import StringFacts Revalidation Extraction GuardLaws.

Lemma py_FENCE : FENCE = [96; 96; 96].
Proof. reflexivity. Qed.

Lemma occurs_nil_fence : ~ occurs FENCE [].
Proof.
  intros (a & b & E). rewrite py_FENCE in E.
  destruct a; discriminate E.
Qed.

Lemma occurs_trans (a b c : str) : occurs a b -> occurs b c -> occurs a c.
Proof.
  intros (p1 & q1 & ->) (p2 & q2 & ->).
  exists (p2 ++ p1), (q1 ++ q2). now rewrite <- !app_assoc.
Qed.

Lemma strip_split s :
  exists wa wb,
    s = wa ++ strip s ++ wb
    /\ forallb isspace wa = true /\ forallb isspace wb = true.
Proof.
  destruct (lstrip_split s) as (wa & Ea & Ha).
  destruct (rstrip_by_split isspace (lstrip s)) as (wb & Eb & Hb).
  exists wa, wb. unfold strip, rstrip. now rewrite <- Eb.
Qed.

Lemma strip_prefix_ci_split p : forall s r,
  strip_prefix_ci p s = Some r ->
  exists tag, s = tag ++ r /\ strip_prefix_ci p tag = Some [].
Proof.
  induction p as [|a p IH]; intros s r H; cbn [strip_prefix_ci] in H.
  - inversion H; subst. now exists [].
  - destruct s as [|b s]; [discriminate|].
    destruct (tag_char a b) eqn:E; [|discriminate].
    destruct (IH _ _ H) as (tag & -> & Ht). exists (b :: tag).
    split; [reflexivity|]. cbn [strip_prefix_ci]. now rewrite E.
Qed.

Lemma ws_star_fence_sound s : forall rest,
  ws_star_fence s = Some rest ->
  exists ws, s = ws ++ FENCE ++ rest /\ forallb isspace ws = true.
Proof.
  induction s as [|c s IH]; intros rest H; cbn [ws_star_fence] in H.
  - apply strip_prefix_spec in H. now exists [].
  - destruct (isspace c) eqn:Ec.
    + destruct (ws_star_fence s) as [rest'|] eqn:E.
      * inversion H; subst rest'. destruct (IH _ eq_refl) as (ws & -> & Hws).
        exists (c :: ws). cbn [forallb app]. now rewrite Ec, Hws.
      * apply strip_prefix_spec in H. now exists [].
    + apply strip_prefix_spec in H. now exists [].
Qed.

Lemma ws_star_fence_at_fence x : ws_star_fence (FENCE ++ x) = Some x.
Proof. reflexivity. Qed.

Lemma lazy_group_sound s : forall g rest,
  lazy_group s = Some (g, rest) ->
  (exists ws, s = g ++ ws ++ FENCE ++ rest /\ forallb isspace ws = true)
  /\ ~ occurs FENCE g.
Proof.
  induction s as [|c s IH]; intros g rest H; cbn [lazy_group] in H.
  - destruct (ws_star_fence []) as [rest'|] eqn:E; [|discriminate].
    inversion H; subst. split; [|apply occurs_nil_fence].
    now apply ws_star_fence_sound in E.
  - destruct (ws_star_fence (c :: s)) as [rest'|] eqn:E.
    + inversion H; subst. split; [|apply occurs_nil_fence].
      now apply ws_star_fence_sound in E.
    + destruct (lazy_group s) as [[g' rest']|] eqn:L; [|discriminate].
      inversion H; subst. destruct (IH _ _ eq_refl) as [(ws & Es & Hws) Hg].
      split.
      * exists ws. now rewrite Es.
      * intros (a & b & Eg). destruct a as [|a0 a].
        -- cbn [app] in Eg.
           assert (X : c :: s = FENCE ++ b ++ ws ++ FENCE ++ rest).
           { rewrite Es. change (c :: g' ++ ws ++ FENCE ++ rest)
               with ((c :: g') ++ ws ++ FENCE ++ rest).
             rewrite Eg, <- !app_assoc. reflexivity. }
           rewrite X, ws_star_fence_at_fence in E. discriminate E.
        -- inversion Eg; subst. apply Hg. now exists a, b.
Qed.

Lemma ws_star_group_sound s : forall g rest,
  ws_star_group s = Some (g, rest) ->
  (exists ws1 ws2,
     s = ws1 ++ g ++ ws2 ++ FENCE ++ rest
     /\ forallb isspace ws1 = true /\ forallb isspace ws2 = true)
  /\ ~ occurs FENCE g.
Proof.
  assert (L : forall s g rest,
    lazy_group s = Some (g, rest) ->
    (exists ws1 ws2,
       s = ws1 ++ g ++ ws2 ++ FENCE ++ rest
       /\ forallb isspace ws1 = true /\ forallb isspace ws2 = true)
    /\ ~ occurs FENCE g).
  { intros s0 g rest H. apply lazy_group_sound in H as [(ws & E & Hws) Hg].
    split; [|exact Hg]. now exists [], ws. }
  induction s as [|c s IH]; intros g rest H.
  - now apply L.
  - cbn [ws_star_group] in H. destruct (isspace c) eqn:Ec; [|now apply L].
    destruct (ws_star_group s) as [[g' rest']|] eqn:E; [|now apply L].
    inversion H; subst.
    destruct (IH _ _ eq_refl) as [(ws1 & ws2 & -> & H1 & H2) Hg].
    split; [|exact Hg]. exists (c :: ws1), ws2.
    cbn [app forallb]. now rewrite Ec, H1, H2.
Qed.

Lemma match_sql_block_sound s g rest :
  match_sql_block s = Some (g, rest) ->
  (exists tag ws1 ws2,
     s = tag ++ ws1 ++ g ++ ws2 ++ FENCE ++ rest
     /\ strip_prefix_ci (py "```sql") tag = Some []
     /\ forallb isspace ws1 = true /\ forallb isspace ws2 = true)
  /\ ~ occurs FENCE g.
Proof.
  unfold match_sql_block.
  destruct (strip_prefix_ci (py "```sql") s) as [r|] eqn:E; [|discriminate].
  intros H. apply strip_prefix_ci_split in E as (tag & -> & Ht).
  apply ws_star_group_sound in H as [(ws1 & ws2 & -> & H1 & H2) Hg].
  split; [|exact Hg]. now exists tag, ws1, ws2.
Qed.

Lemma findall_sql_blocks_first fuel : forall s m ms,
  findall_sql_blocks_from fuel s = m :: ms ->
  exists pre s' rest,
    s = pre ++ s' /\ match_sql_block s' = Some (m, rest).
Proof.
  induction fuel as [|f IH]; intros s m ms H; [discriminate|].
  cbn [findall_sql_blocks_from] in H.
  destruct (match_sql_block s) as [[g rest]|] eqn:M.
  - inversion H; subst. now exists [], s, rest.
  - destruct s as [|c s]; [discriminate|].
    destruct (IH _ _ _ H) as (pre & s' & rest & -> & M').
    now exists (c :: pre), s', rest.
Qed.

Lemma mentions_sql_tag_suffix pre : forall s,
  opens_sql_block s = true -> mentions_sql_tag (pre ++ s) = true.
Proof.
  induction pre as [|c pre IH]; intros s H.
  - destruct s; cbn [app mentions_sql_tag]; now rewrite H.
  - cbn [app mentions_sql_tag]. rewrite (IH s H). apply orb_true_r.
Qed.

Lemma extract_sql_from_response_sound (response candidate : str) :
  extract_sql_from_response response = Some candidate ->
  strip candidate = candidate
  /\ ~ occurs FENCE candidate
  /\ exists pre tag ws1 ws2 post,
       response = pre ++ tag ++ ws1 ++ candidate ++ ws2 ++ FENCE ++ post
       /\ strip_prefix_ci (py "```sql") tag = Some []
       /\ forallb isspace ws1 = true /\ forallb isspace ws2 = true.
Proof.
  unfold extract_sql_from_response, findall_sql_blocks.
  destruct (findall_sql_blocks_from _ response) as [|m ms] eqn:F;
    [discriminate|].
  intros [= <-]. split; [apply strip_fixed_point|].
  apply findall_sql_blocks_first in F as (pre & s' & rest & -> & M).
  apply match_sql_block_sound in M
    as [(tag & ws1 & ws2 & -> & Ht & H1 & H2) Hg].
  destruct (strip_split m) as (wa & wb & Em & Ha & Hb).
  split.
  - intros Hc. apply Hg. apply (occurs_trans _ _ _ Hc).
    now exists wa, wb.
  - exists pre, tag, (ws1 ++ wa), (wb ++ ws2), rest.
    rewrite !forallb_app, H1, H2, Ha, Hb. repeat split; try assumption.
    rewrite Em at 1. now rewrite <- !app_assoc.
Qed.

(** The candidate [extract_sql_from_response] returns is the text between
    the tag of a fenced SQL block of the response and a closing fence,
    without the whitespace around it; it contains no fence. *)
Theorem extracted_candidate_is_block_text (response candidate : str) :
  extract_sql_from_response response = Some candidate ->
  strip candidate = candidate
  /\ ~ occurs FENCE candidate
  /\ exists pre tag ws1 ws2 post,
       response = pre ++ tag ++ ws1 ++ candidate ++ ws2 ++ FENCE ++ post
       /\ strip_prefix_ci (py "```sql") tag = Some []
       /\ forallb isspace ws1 = true /\ forallb isspace ws2 = true.
Proof. apply extract_sql_from_response_sound. Qed.

Lemma extracted_candidate_is_block_text_witness :
  strip spaced_candidate = spaced_candidate
  /\ ~ occurs FENCE spaced_candidate
  /\ exists pre tag ws1 ws2 post,
       spaced_response
       = pre ++ tag ++ ws1 ++ spaced_candidate ++ ws2 ++ FENCE ++ post
       /\ strip_prefix_ci (py "```sql") tag = Some []
       /\ forallb isspace ws1 = true /\ forallb isspace ws2 = true.
Proof.
  apply (extracted_candidate_is_block_text spaced_response).
  vm_compute. reflexivity.
Defined.

(** A response in which the tag of a fenced SQL block opens nowhere has
    no candidate: validation fails with the no-block error. *)
Theorem untagged_response_has_no_block (U : UnicodeData)
    (response : str) :
  mentions_sql_tag response = false ->
  extract_sql_from_response response = None
  /\ validate_and_sanitize_sql response = inl NoSqlBlockFound.
Proof.
  intros H.
  assert (E : extract_sql_from_response response = None).
  { destruct (extract_sql_from_response response) as [c|] eqn:E;
      [|reflexivity].
    apply extract_sql_from_response_sound in E
      as (_ & _ & pre & tag & ws1 & ws2 & post & -> & Ht & _).
    rewrite mentions_sql_tag_suffix in H; [discriminate|].
    unfold opens_sql_block. now rewrite (strip_prefix_ci_app _ _ _ Ht). }
  split; [exact E|]. unfold validate_and_sanitize_sql. now rewrite E.
Qed.

Lemma untagged_response_has_no_block_witness :
  extract_sql_from_response trimmed_query = None
  /\ @validate_and_sanitize_sql ascii_data trimmed_query
     = inl NoSqlBlockFound.
Proof.
  apply (untagged_response_has_no_block ascii_data trimmed_query).
  vm_compute. reflexivity.
Defined.

End Blocks.

(** ** The row count of the rule-based summary *)

Module RowCount.
Import PyStr Effects Narration Spec Notions.

Lemma size_nat_bound (m : N) : m < 2 ^ N.of_nat (N.size_nat m).
Proof.
  destruct m as [|p]; [reflexivity|]. cbn [N.size_nat].
  induction p as [p IH|p IH|]; cbn [Pos.size_nat].
  - rewrite Nat2N.inj_succ, N.pow_succ_r'. lia.
  - rewrite Nat2N.inj_succ, N.pow_succ_r'. lia.
  - reflexivity.
Qed.

Lemma digits_rev_S f n :
  digits_rev (S f) n
  = (48 + n mod 10) :: (if n / 10 =? 0 then [] else digits_rev f (n / 10)).
Proof. reflexivity. Qed.

Lemma digits_rev_value f : forall n,
  n < 2 ^ N.of_nat f -> value_rev (digits_rev (S f) n) = n.
Proof.
  induction f as [|f IH]; intros n Hn.
  - assert (n = 0) by (cbn in Hn; lia). subst n. reflexivity.
  - rewrite digits_rev_S.
    assert (Hd : n / 10 < 2 ^ N.of_nat f).
    { apply N.Div0.div_lt_upper_bound.
      rewrite Nat2N.inj_succ, N.pow_succ_r' in Hn. lia. }
    pose proof (N.div_mod n 10 ltac:(lia)) as Hdm.
    destruct (n / 10 =? 0) eqn:E.
    + apply N.eqb_eq in E. unfold value_rev. cbn [fold_right].
      clear IH Hn Hd. revert Hdm E.
      generalize (n mod 10), (n / 10). intros; lia.
    + unfold value_rev. cbn [fold_right].
      fold (value_rev (digits_rev (S f) (n / 10))).
      rewrite (IH _ Hd). clear IH Hn Hd E. revert Hdm.
      generalize (n mod 10), (n / 10). intros; lia.
Qed.

Lemma digits_rev_digits f : forall n d,
  In d (digits_rev f n) -> 48 <= d <= 57.
Proof.
  induction f as [|f IH]; intros n d H; [contradiction|].
  rewrite digits_rev_S in H. destruct H as [<-|H].
  - pose proof (N.mod_lt n 10 ltac:(lia)) as Hm. revert Hm.
    generalize (n mod 10). intros; lia.
  - destruct (n / 10 =? 0); [contradiction | now apply (IH (n / 10))].
Qed.

Lemma digits_rev_nonempty f n : digits_rev (S f) n <> [].
Proof. rewrite digits_rev_S. discriminate. Qed.

Lemma parse_decimal_rev ds : parse_decimal (rev ds) = value_rev ds.
Proof.
  unfold parse_decimal, value_rev. rewrite <- fold_left_rev_right.
  rewrite rev_involutive. induction ds as [|d ds IH]; [reflexivity|].
  cbn [fold_right]. rewrite IH. lia.
Qed.

Lemma group3_digits ds : forall k,
  (forall d, In d ds -> d <> COMMA) ->
  filter not_comma (group3 k ds) = ds.
Proof.
  induction ds as [|d ds IH]; intros k H; [reflexivity|].
  assert (Hd : not_comma d = true).
  { unfold not_comma. apply negb_true_iff, N.eqb_neq. apply H. now left. }
  assert (IH' : forall k', filter not_comma (group3 k' ds) = ds)
    by (intros k'; apply IH; intros x Hx; apply H; now right).
  cbn [group3]. destruct (Nat.eqb k 3); cbn [filter].
  - change (not_comma 44) with false. cbn iota. cbn [filter].
    now rewrite Hd, IH'.
  - now rewrite Hd, IH'.
Qed.

Lemma group3_commas ds : forall k i,
  (k <= 3)%nat ->
  (forall d, In d ds -> d <> COMMA) ->
  nth_error (group3 k ds) i = Some COMMA
  <-> (i < List.length (group3 k ds))%nat /\ ((i + k) mod 4 = 3)%nat.
Proof.
  induction ds as [|d ds IH]; intros k i Hk H.
  - cbn [group3 List.length]. destruct i; split;
      try discriminate; intros [X _]; lia.
  - assert (Hd : d <> COMMA) by (apply H; now left).
    assert (H' : forall x, In x ds -> x <> COMMA)
      by (intros x Hx; apply H; now right).
    cbn [group3]. destruct (Nat.eqb k 3) eqn:E.
    + apply Nat.eqb_eq in E. subst k.
      destruct i as [|[|j]]; cbn [nth_error List.length].
      * split; [intros _; split; [lia | reflexivity] | reflexivity].
      * split; [intros [= X]; congruence | intros [_ X]; discriminate X].
      * rewrite (IH 1%nat j) by (auto; lia).
        replace (S (S j) + 3)%nat with (j + 1 + 1 * 4)%nat by lia.
        rewrite Nat.Div0.mod_add. split; intros [A B]; split; auto; lia.
    + apply Nat.eqb_neq in E.
      destruct i as [|j]; cbn [nth_error List.length].
      * cbn [Nat.add]. rewrite Nat.mod_small by lia.
        split; [intros [= X]; congruence | intros [_ X]; lia].
      * rewrite (IH (S k) j) by (auto; lia).
        replace (S j + k)%nat with (j + S k)%nat by lia.
        split; intros [A B]; split; auto; lia.
Qed.

Lemma group3_last ds : forall k,
  ds <> [] -> last (group3 k ds) 0 = last ds 0.
Proof.
  induction ds as [|d ds IH]; intros k H; [congruence|].
  cbn [group3]. destruct ds as [|d' ds].
  - destruct (Nat.eqb k 3); reflexivity.
  - assert (X : forall k', last (group3 k' (d' :: ds)) 0
                           = last (d' :: ds) 0)
      by (intros k'; apply IH; discriminate).
    assert (Y : forall k', group3 k' (d' :: ds) <> [])
      by (intros k'; cbn [group3]; destruct (Nat.eqb k' 3); discriminate).
    destruct (Nat.eqb k 3).
    + specialize (X 1%nat). specialize (Y 1%nat).
      destruct (group3 1 (d' :: ds)) as [|g gs]; [congruence|].
      exact X.
    + specialize (X (S k)). specialize (Y (S k)).
      destruct (group3 (S k) (d' :: ds)) as [|g gs]; [congruence|].
      exact X.
Qed.
Lemma hd_rev (l : list N) d : hd d (rev l) = last l d.
Proof.
  induction l as [|x l _] using rev_ind; [reflexivity|].
  now rewrite rev_app_distr, last_last.
Qed.

Lemma format_thousands_spec (n : nat) :
  parse_decimal (filter not_comma (format_thousands n)) = N.of_nat n
  /\ (forall i,
        nth_error (rev (format_thousands n)) i = Some COMMA
        <-> (i < List.length (format_thousands n))%nat
            /\ (i mod 4 = 3)%nat)
  /\ hd 0 (format_thousands n) <> COMMA.
Proof.
  unfold format_thousands.
  set (f := N.size_nat (N.of_nat n)).
  set (ds := digits_rev (S f) (N.of_nat n)).
  assert (Hds : forall d, In d ds -> d <> COMMA).
  { intros d Hd. apply digits_rev_digits in Hd. unfold COMMA. lia. }
  split; [|split].
  - rewrite filter_rev, group3_digits by exact Hds.
    rewrite parse_decimal_rev. apply digits_rev_value.
    apply size_nat_bound.
  - intros i. rewrite rev_involutive, length_rev.
    rewrite (group3_commas ds 0 i) by (auto; lia).
    now rewrite Nat.add_0_r.
  - rewrite hd_rev, group3_last by apply digits_rev_nonempty.
    apply Hds. apply StringFacts.last_member. apply digits_rev_nonempty.
Qed.

Lemma join_first sep (p : str) rest :
  exists tail, join sep (p :: rest) = p ++ tail.
Proof.
  destruct rest as [|q rest].
  - exists []. cbn [join]. now rewrite app_nil_r.
  - now exists (sep ++ join sep (q :: rest)).
Qed.

(** The rule-based summary of a table that is not empty begins with the
    line that states the number of rows, written in decimal digits with
    a comma before every group of three digits counted from the right:
    without the commas the digits read back as the number of rows, the
    commas stand exactly at every fourth place from the right, and the
    number does not begin with a comma. *)
Theorem fallback_summary_states_the_row_count (row : Type)
    (numeric_lines categorical_lines : DataFrame row -> list str)
    (user_query sql : str) (result_df : DataFrame row)
    (template_name : option str) :
  df_empty result_df = false ->
  let shown := format_thousands (List.length (df_rows result_df)) in
  (exists rest,
     create_fallback_summary numeric_lines categorical_lines user_query
       sql result_df template_name
     = bullet ++ shown ++ records_found ++ rest)
  /\ parse_decimal (filter not_comma shown)
     = N.of_nat (List.length (df_rows result_df))
  /\ (forall i,
        nth_error (rev shown) i = Some COMMA
        <-> (i < List.length shown)%nat /\ (i mod 4 = 3)%nat)
  /\ hd 0 shown <> COMMA.
Proof.
  intros He shown. split; [|apply format_thousands_spec].
  unfold create_fallback_summary. rewrite He. cbn [app]. subst shown.
  match goal with
  | |- exists rest, join ?s (?p :: ?r) = _ =>
      destruct (join_first s p r) as (tail & E)
  end.
  exists tail. etransitivity; [exact E|]. unfold bullet, records_found.
  now rewrite <- !app_assoc.
Qed.

Lemma fallback_summary_states_the_row_count_witness :
  parse_decimal (filter not_comma (format_thousands 1234))
  = 1234.
Proof.
  exact (proj1 (proj2 (fallback_summary_states_the_row_count unit
                         (fun _ => []) (fun _ => []) [] []
                         {| df_columns := [py "n"];
                            df_rows := repeat tt 1234 |}
                         None eq_refl))).
Defined.

End RowCount.

(** ** More on the orchestrator and the chat handler *)

Module Orchestrator.
Import PyStr SqlGuard QueryTemplates Effects Narration ChatbotApp.
Import Spec Notions TableFacts Pipeline GuardFacts.

Lemma template_queries_nonempty (U : UnicodeData) user_query :
  fst (find_best_template user_query) <> [].
Proof.
  pose proof (find_best_template_source U user_query) as H.
  assert (X : forallb (fun s => negb (str_eqb s [])) template_queries
              = true) by (vm_compute; reflexivity).
  pose proof (proj1 (forallb_forall _ _) X _ H) as Y. cbv beta in Y.
  intros E. rewrite E in Y. discriminate Y.
Qed.

Lemma validated_nonempty (U : UnicodeData) llm_response r :
  validate_and_sanitize_sql llm_response = inr r -> r <> [].
Proof.
  intros H. apply validate_inr in H as (sql & _ & H).
  apply sanitize_sql_inr in H as [_ H]. now apply check_not_empty in H.
Qed.

Section Shape.
Context {U : UnicodeData} {W row : Type}.
Variable llm_client : option (LLMClient W).
Variable db_execute : str -> W -> outcome (DataFrame row) * W.
Variable schema_info : DataFrame row -> outcome str.

Lemma fallback_step user_query (w1 : world W) :
  (let (template_sql, template_name) := find_best_template user_query in
   bind (execute_sql_query db_execute template_sql)
     (fun result_df =>
        ret (Some template_sql, result_df, true, template_name)))
    w1
  = run_template db_execute user_query w1.
Proof.
  unfold run_template.
  destruct (find_best_template user_query) as [tsql tname].
  cbn [fst snd]. unfold bind, ret.
  now destruct (execute_sql_query db_execute tsql w1).
Qed.

Lemma run_template_log user_query (w1 : world W) :
  engine_log (snd (run_template db_execute user_query w1))
  = engine_log w1 ++ [fst (find_best_template user_query)].
Proof. unfold run_template. cbn [snd]. apply execute_sql_query_log. Qed.

(** The two ways [process_user_query] ends when the data is loaded. *)
Lemma process_shape data user_query (w : world W) :
  (exists w1,
     process_user_query (Some data) llm_client db_execute schema_info
       user_query w
     = run_template db_execute user_query w1
     /\ ((engine_log w1 = engine_log w
          /\ generation_fails llm_client schema_info data user_query
               (services w) (services w1))
         \/ exists llm_response r,
              validate_and_sanitize_sql llm_response = inr r
              /\ engine_log w1 = engine_log w ++ [r]))
  \/ (exists llm_response r df w1,
        validate_and_sanitize_sql llm_response = inr r
        /\ process_user_query (Some data) llm_client db_execute
             schema_info user_query w
           = ((Some r, df, false, None), w1)
        /\ df_empty df = false
        /\ engine_log w1 = engine_log w ++ [r]).
Proof.
  remember (process_user_query (Some data) llm_client db_execute
              schema_info user_query w) as P eqn:EP.
  unfold process_user_query, generate_and_run in EP.
  unfold generation_fails.
  destruct llm_client as [client|].
  2:{ left. exists w. unfold bind at 1 in EP. unfold ret at 1 in EP.
      cbn [orb] in EP.
      split; [rewrite EP; apply fallback_step | left; now split]. }
  destruct (schema_info data) as [schema|e].
  2:{ left. exists w. unfold bind at 1 in EP. unfold ret at 1 in EP.
      cbn [orb] in EP.
      split; [rewrite EP; apply fallback_step | left; now split]. }
  unfold bind at 1 in EP. unfold bind at 1 in EP. unfold call at 1 in EP.
  destruct (generate_sql client user_query schema (services w))
    as [[llm_response|e] s1].
  2:{ left. exists {| services := s1; engine_log := engine_log w |}.
      unfold ret at 1 in EP. cbn [orb] in EP.
      split; [rewrite EP; apply fallback_step | left; now split]. }
  destruct (validate_and_sanitize_sql llm_response)
    as [e|executed_sql] eqn:Hv.
  { left. exists {| services := s1; engine_log := engine_log w |}.
    unfold ret at 1 in EP. cbn [orb] in EP.
    split; [rewrite EP; apply fallback_step | left].
    cbn [services engine_log].
    split; [reflexivity|]. split; [reflexivity | now exists e]. }
  unfold bind at 1 in EP.
  pose proof (execute_sql_query_log db_execute executed_sql
                {| services := s1; engine_log := engine_log w |}) as L1.
  destruct (execute_sql_query db_execute executed_sql
              {| services := s1; engine_log := engine_log w |})
    as [df w1].
  cbn [snd engine_log] in L1. unfold ret at 1 in EP. cbn [orb] in EP.
  destruct (df_empty df) eqn:Ed.
  - left. exists w1. split; [rewrite EP; apply fallback_step|].
    right. now exists llm_response, executed_sql.
  - right. exists llm_response, executed_sql, df, w1.
    repeat split; assumption.
Qed.
End Shape.

Lemma process_outcome (U : UnicodeData) (W row : Type)
    (sales_data : option (DataFrame row))
    (llm_client : option (LLMClient W))
    (db_execute : str -> W -> outcome (DataFrame row) * W)
    (schema_info : DataFrame row -> outcome str)
    (user_query : str) (w : world W) :
  let r :=
    process_user_query sales_data llm_client db_execute schema_info
      user_query w in
  let '(executed_sql, result_df, is_fallback, template_name) := fst r in
  (exists sql, executed_sql = Some sql /\ sql <> [])
  /\ (sales_data = None ->
      fst r = (Some data_not_loaded, empty_frame, true, None)
      /\ snd r = w)
  /\ (sales_data <> None ->
      exists handed sql,
        engine_log (snd r) = engine_log w ++ handed ++ [sql]
        /\ executed_sql = Some sql
        /\ (List.length handed <= 1)%nat)
  /\ (is_fallback = false ->
      template_name = None /\ df_empty result_df = false
      /\ exists llm_response sql,
           validate_and_sanitize_sql llm_response = inr sql
           /\ executed_sql = Some sql)
  /\ (is_fallback = true -> sales_data <> None ->
      executed_sql = Some (fst (find_best_template user_query))
      /\ template_name = snd (find_best_template user_query)).
Proof.
  destruct sales_data as [data|].
  - destruct (process_shape llm_client db_execute schema_info data
                user_query w)
      as [(w1 & E & Hlog) | (resp & sql & df & w1 & Hv & E & Hd & Hlog)];
      cbv zeta; rewrite E.
    + unfold run_template at 1. cbn [fst].
      split; [eexists; split;
              [reflexivity | apply template_queries_nonempty]|].
      split; [discriminate|].
      split; [|split; [discriminate | intros _ _; now split]].
      intros _. rewrite run_template_log.
      destruct Hlog as [[-> _] | (resp & r & _ & ->)].
      * exists [], (fst (find_best_template user_query)).
        repeat split. cbn. lia.
      * exists [r], (fst (find_best_template user_query)).
        rewrite <- app_assoc. repeat split. cbn. lia.
    + cbn [fst snd].
      split; [exists sql; split;
              [reflexivity | now apply (validated_nonempty U resp)]|].
      split; [discriminate|].
      split; [|split; [|discriminate]].
      * intros _. exists [], sql. rewrite Hlog. repeat split. cbn. lia.
      * intros _. repeat split; try assumption. now exists resp, sql.
  - cbn. split; [eexists; split; [reflexivity|]|].
    + vm_compute. discriminate.
    + split; [intros _; now split|].
      split; [congruence|]. split; [discriminate | congruence].
Qed.

(** What [process_user_query] returns, in every case: a non-empty string
    in the SQL position; without data, nothing is executed; with data,
    one or two queries are handed to the engine and the SQL returned is
    the last of them; a result that is not a fallback is not empty, has
    no template name, and its SQL was returned by the guard for a model
    response; a fallback on loaded data is the template resolved for the
    query. *)
Theorem process_user_query_outcome (U : UnicodeData) (W row : Type)
    (sales_data : option (DataFrame row))
    (llm_client : option (LLMClient W))
    (db_execute : str -> W -> outcome (DataFrame row) * W)
    (schema_info : DataFrame row -> outcome str)
    (user_query : str) (w : world W) :
  let r :=
    process_user_query sales_data llm_client db_execute schema_info
      user_query w in
  let '(executed_sql, result_df, is_fallback, template_name) := fst r in
  (exists sql, executed_sql = Some sql /\ sql <> [])
  /\ (sales_data = None ->
      fst r = (Some data_not_loaded, empty_frame, true, None)
      /\ snd r = w)
  /\ (sales_data <> None ->
      exists handed sql,
        engine_log (snd r) = engine_log w ++ handed ++ [sql]
        /\ executed_sql = Some sql
        /\ (List.length handed <= 1)%nat)
  /\ (is_fallback = false ->
      template_name = None /\ df_empty result_df = false
      /\ exists llm_response sql,
           validate_and_sanitize_sql llm_response = inr sql
           /\ executed_sql = Some sql)
  /\ (is_fallback = true -> sales_data <> None ->
      executed_sql = Some (fst (find_best_template user_query))
      /\ template_name = snd (find_best_template user_query)).
Proof.
  exact (process_outcome U W row sales_data llm_client db_execute
           schema_info user_query w).
Qed.

Lemma process_user_query_outcome_witness :
  fst (@process_user_query ascii_data unit unit (Some one_row)
         (Some scenario_client) scenario_engine (fun _ => Returned [])
         (py "hello") scenario_world)
  = (Some (fst (@find_best_template ascii_data (py "hello"))), one_row,
     true, snd (@find_best_template ascii_data (py "hello"))).
Proof.
  pose proof (process_user_query_outcome ascii_data unit unit
                (Some one_row) (Some scenario_client) scenario_engine
                (fun _ => Returned []) (py "hello") scenario_world) as H.
  cbv zeta in H.
  destruct (fst (@process_user_query ascii_data unit unit (Some one_row)
                   (Some scenario_client) scenario_engine
                   (fun _ => Returned []) (py "hello") scenario_world))
    as [[[executed_sql result_df] is_fallback] template_name] eqn:E.
  assert (Ef : is_fallback = true /\ result_df = one_row).
  { vm_compute in E. inversion E. now split. }
  destruct Ef as [-> ->].
  destruct H as (_ & _ & _ & _ & H).
  destruct (H eq_refl) as [-> ->]; [discriminate | reflexivity].
Defined.

(** *** When the model gives no usable SQL *)

Section Failure.
Context {U : UnicodeData} {W row : Type}.
Variable llm_client : option (LLMClient W).
Variable db_execute : str -> W -> outcome (DataFrame row) * W.
Variable schema_info : DataFrame row -> outcome str.

Lemma failed_generation data user_query (w : world W) s1 :
  generation_fails llm_client schema_info data user_query (services w) s1 ->
  process_user_query (Some data) llm_client db_execute schema_info
    user_query w
  = run_template db_execute user_query
      {| services := s1; engine_log := engine_log w |}.
Proof.
  unfold generation_fails, process_user_query, generate_and_run.
  destruct w as [s0 log]. cbn [services engine_log].
  destruct llm_client as [client|].
  2:{ intros ->. unfold bind at 1. unfold ret at 1. cbn [orb].
      apply fallback_step. }
  destruct (schema_info data) as [schema|e].
  2:{ intros ->. unfold bind at 1. unfold ret at 1. cbn [orb].
      apply fallback_step. }
  unfold bind at 1. unfold bind at 1. unfold call at 1.
  cbn [services engine_log].
  destruct (generate_sql client user_query schema s0)
    as [[llm_response|e] s].
  2:{ intros ->. unfold ret at 1. cbn [orb]. apply fallback_step. }
  intros [-> (e & He)]. rewrite He. unfold ret at 1. cbn [orb].
  apply fallback_step.
Qed.
End Failure.

(** When no SQL of the model can be used (no client, no schema text, a
    failed model call, or a response the guard rejects),
    [process_user_query] is the fallback step alone: exactly one query
    is handed to the engine, the one of the template resolved for the
    user's words. *)
Theorem failed_generation_runs_only_the_template
    (U : UnicodeData) (W row : Type)
    (llm_client : option (LLMClient W))
    (db_execute : str -> W -> outcome (DataFrame row) * W)
    (schema_info : DataFrame row -> outcome str)
    (data : DataFrame row) (user_query : str) (w : world W) (s1 : W) :
  generation_fails llm_client schema_info data user_query (services w) s1 ->
  let r :=
    process_user_query (Some data) llm_client db_execute schema_info
      user_query w in
  r = run_template db_execute user_query
        {| services := s1; engine_log := engine_log w |}
  /\ engine_log (snd r)
     = engine_log w ++ [fst (find_best_template user_query)].
Proof.
  intros H r. subst r.
  rewrite (failed_generation _ _ _ _ _ _ _ H). split; [reflexivity|].
  now rewrite run_template_log.
Qed.

Lemma failed_generation_runs_only_the_template_witness :
  engine_log
    (snd (@process_user_query ascii_data unit unit (Some one_row)
            (Some rejected_client) scenario_engine (fun _ => Returned [])
            (py "hello") scenario_world))
  = [fst (@find_best_template ascii_data (py "hello"))].
Proof.
  refine (proj2 (failed_generation_runs_only_the_template ascii_data unit
                   unit (Some rejected_client) scenario_engine
                   (fun _ => Returned []) one_row (py "hello")
                   scenario_world tt _)).
  unfold generation_fails, rejected_client. cbn [generate_sql].
  split; [reflexivity|]. eexists. vm_compute. reflexivity.
Defined.

(** *** The summary and the reply *)

Section Reply.
Context {U : UnicodeData} {W row : Type}.
Variable to_csv_head : DataFrame row -> str.
Variable numeric_lines : DataFrame row -> list str.
Variable categorical_lines : DataFrame row -> list str.

Lemma summary_fallback (llm_client : option (LLMClient W))
    user_query sql result_df is_fallback template_name (w : world W) :
  llm_client = None \/ is_fallback = true \/ df_empty result_df = true ->
  generate_analysis_summary to_csv_head numeric_lines categorical_lines
    llm_client user_query sql result_df is_fallback template_name w
  = (create_fallback_summary numeric_lines categorical_lines user_query
       sql result_df template_name, w).
Proof.
  unfold generate_analysis_summary. intros H.
  destruct (df_empty result_df); [reflexivity|].
  destruct llm_client as [client|]; [|reflexivity].
  destruct is_fallback; [reflexivity|].
  destruct H as [H|[H|H]]; discriminate H.
Qed.



Variable sales_data : option (DataFrame row).
Variable llm_client : option (LLMClient W).
Variable db_execute : str -> W -> outcome (DataFrame row) * W.
Variable schema_info : DataFrame row -> outcome str.

End Reply.

(** [generate_analysis_summary] leaves the model alone and returns the
    rule-based summary when there is no client, when the result is a
    fallback, and when the result is empty. *)
Theorem summary_without_model (W row : Type)
    (to_csv_head : DataFrame row -> str)
    (numeric_lines categorical_lines : DataFrame row -> list str)
    (llm_client : option (LLMClient W)) (user_query sql : str)
    (result_df : DataFrame row) (is_fallback : bool)
    (template_name : option str) (w : world W) :
  llm_client = None \/ is_fallback = true \/ df_empty result_df = true ->
  generate_analysis_summary to_csv_head numeric_lines categorical_lines
    llm_client user_query sql result_df is_fallback template_name w
  = (create_fallback_summary numeric_lines categorical_lines user_query
       sql result_df template_name, w).
Proof. apply summary_fallback. Qed.

Lemma summary_without_model_witness :
  generate_analysis_summary (fun _ => []) (fun _ => []) (fun _ => [])
    (Some scenario_client) (py "hello") vacuous_sql one_row true None
    scenario_world
  = (create_fallback_summary (fun _ => []) (fun _ => []) (py "hello")
       vacuous_sql one_row None, scenario_world).
Proof.
  apply (summary_without_model unit unit). right. left. reflexivity.
Defined.





(** *** When the model's SQL is used *)

Section Success.
Context {U : UnicodeData} {W row : Type}.
Variable client : LLMClient W.
Variable db_execute : str -> W -> outcome (DataFrame row) * W.
Variable schema_info : DataFrame row -> outcome str.

Lemma model_result data user_query schema llm_response sql df
    (w : world W) s1 s2 :
  schema_info data = Returned schema ->
  generate_sql client user_query schema (services w)
  = (Returned llm_response, s1) ->
  validate_and_sanitize_sql llm_response = inr sql ->
  db_execute sql s1 = (Returned df, s2) ->
  df_empty df = false ->
  process_user_query (Some data) (Some client) db_execute schema_info
    user_query w
  = ((Some sql, df, false, None),
     {| services := s2; engine_log := engine_log w ++ [sql] |}).
Proof.
  intros Hs Hg Hv He Hd.
  unfold process_user_query, generate_and_run. rewrite Hs.
  unfold bind at 1. unfold bind at 1. unfold call at 1. rewrite Hg, Hv.
  unfold bind at 1. unfold execute_sql_query, bind, log_sql, call, ret.
  cbn [services engine_log]. rewrite He, Hd. reflexivity.
Qed.
End Success.

(** When the model's SQL passes the guard and the engine finds rows for
    it, [process_user_query] returns that SQL and those rows, not marked
    as a fallback and without a template name; the validated SQL is the
    only query handed to the engine. *)
Theorem model_result_is_returned (U : UnicodeData) (W row : Type)
    (client : LLMClient W)
    (db_execute : str -> W -> outcome (DataFrame row) * W)
    (schema_info : DataFrame row -> outcome str)
    (data : DataFrame row) (user_query schema llm_response sql : str)
    (df : DataFrame row) (w : world W) (s1 s2 : W) :
  schema_info data = Returned schema ->
  generate_sql client user_query schema (services w)
  = (Returned llm_response, s1) ->
  validate_and_sanitize_sql llm_response = inr sql ->
  db_execute sql s1 = (Returned df, s2) ->
  df_empty df = false ->
  process_user_query (Some data) (Some client) db_execute schema_info
    user_query w
  = ((Some sql, df, false, None),
     {| services := s2; engine_log := engine_log w ++ [sql] |}).
Proof. apply model_result. Qed.

Lemma model_result_is_returned_witness :
  @process_user_query ascii_data unit unit (Some one_row)
    (Some helpful_client) one_row_engine (fun _ => Returned [])
    (py "hello") scenario_world
  = ((Some trimmed_query, one_row, false, None),
     {| services := tt; engine_log := [trimmed_query] |}).
Proof.
  apply (model_result_is_returned ascii_data unit unit helpful_client
           one_row_engine (fun _ => Returned []) one_row (py "hello") []
           (lines ["```sql"; "SELECT region FROM sales"; "```"]%string)
           trimmed_query one_row scenario_world tt tt);
    [reflexivity | reflexivity | vm_compute; reflexivity
    | reflexivity | reflexivity].
Defined.



(** When the engine raises on the model's validated SQL,
    [execute_sql_query] turns the error into an empty table and
    [process_user_query] goes on with the fallback step: the template
    resolved for the user's words is executed next and returned. *)
Theorem engine_error_falls_back (U : UnicodeData) (W row : Type)
    (client : LLMClient W)
    (db_execute : str -> W -> outcome (DataFrame row) * W)
    (schema_info : DataFrame row -> outcome str)
    (data : DataFrame row) (user_query schema llm_response sql e : str)
    (w : world W) (s1 s2 : W) :
  schema_info data = Returned schema ->
  generate_sql client user_query schema (services w)
  = (Returned llm_response, s1) ->
  validate_and_sanitize_sql llm_response = inr sql ->
  db_execute sql s1 = (Raised e, s2) ->
  execute_sql_query db_execute sql
    {| services := s1; engine_log := engine_log w |}
  = (empty_frame,
     {| services := s2; engine_log := engine_log w ++ [sql] |})
  /\ process_user_query (Some data) (Some client) db_execute schema_info
       user_query w
     = run_template db_execute user_query
         {| services := s2; engine_log := engine_log w ++ [sql] |}.
Proof.
  intros Hs Hg Hv He.
  assert (X : execute_sql_query db_execute sql
                {| services := s1; engine_log := engine_log w |}
              = (empty_frame,
                 {| services := s2;
                    engine_log := engine_log w ++ [sql] |})).
  { unfold execute_sql_query, bind, log_sql, call, ret.
    cbn [services engine_log]. now rewrite He. }
  split; [exact X|].
  unfold process_user_query, generate_and_run. rewrite Hs.
  unfold bind at 1. unfold bind at 1. unfold call at 1. rewrite Hg, Hv.
  unfold bind at 1. rewrite X. unfold ret at 1.
  change (df_empty (@empty_frame row)) with true. cbn [orb].
  apply fallback_step.
Qed.

Lemma engine_error_falls_back_witness :
  @process_user_query ascii_data unit unit (Some one_row)
    (Some helpful_client) failing_engine (fun _ => Returned [])
    (py "hello") scenario_world
  = ((Some get_default_query, one_row, true, Some default_label),
     {| services := tt;
        engine_log := [trimmed_query; get_default_query] |}).
Proof.
  rewrite (proj2 (engine_error_falls_back ascii_data unit unit
                    helpful_client failing_engine (fun _ => Returned [])
                    one_row (py "hello") []
                    (lines ["```sql"; "SELECT region FROM sales";
                            "```"]%string)
                    trimmed_query (py "Binder Error") scenario_world tt tt
                    eq_refl eq_refl
                    ltac:(vm_compute; reflexivity)
                    ltac:(vm_compute; reflexivity))).
  vm_compute. reflexivity.
Defined.

End Orchestrator.

(** ** The client factory *)

Module Factory.
Import PyStr Effects LlmClient Spec Notions.

Section AnyEnvironment.
Context {U : UnicodeData} {C : Type}.
Variable getenv : str -> option str.
Variable OpenAIClient : outcome C.
Variable AnthropicClient : outcome C.

Lemma create_llm_client_some client :
  create_llm_client getenv OpenAIClient AnthropicClient = Some client <->
  (provider getenv = py "openai"
   /\ env_missing getenv (py "OPENAI_API_KEY") = false
   /\ OpenAIClient = Returned client)
  \/ (provider getenv = py "anthropic"
      /\ env_missing getenv (py "ANTHROPIC_API_KEY") = false
      /\ AnthropicClient = Returned client).
Proof.
  unfold create_llm_client, create_llm_client_try.
  assert (D : py "anthropic" <> py "openai")
    by (vm_compute; discriminate).
  destruct (list_eq_dec N.eq_dec (provider getenv) (py "openai"))
    as [E1|N1].
  - replace (str_eqb (provider getenv) (py "openai")) with true
      by (unfold str_eqb;
          now destruct (list_eq_dec N.eq_dec (provider getenv)
                          (py "openai"))).
    destruct (env_missing getenv (py "OPENAI_API_KEY")).
    + split; [discriminate|].
      intros [(_ & H & _)|(H & _)]; [discriminate | congruence].
    + destruct OpenAIClient as [c|e]; split.
      * intros [= <-]. left. now repeat split.
      * intros [(_ & _ & [= <-])|(H & _)]; [reflexivity | congruence].
      * discriminate.
      * intros [(_ & _ & H)|(H & _)]; [discriminate | congruence].
  - replace (str_eqb (provider getenv) (py "openai")) with false
      by (unfold str_eqb;
          now destruct (list_eq_dec N.eq_dec (provider getenv)
                          (py "openai"))).
    destruct (list_eq_dec N.eq_dec (provider getenv) (py "anthropic"))
      as [E2|N2].
    + replace (str_eqb (provider getenv) (py "anthropic")) with true
        by (unfold str_eqb;
            now destruct (list_eq_dec N.eq_dec (provider getenv)
                            (py "anthropic"))).
      destruct (env_missing getenv (py "ANTHROPIC_API_KEY")).
      * split; [discriminate|].
        intros [(H & _)|(_ & H & _)]; [contradiction | discriminate].
      * destruct AnthropicClient as [c|e]; split.
        -- intros [= <-]. right. now repeat split.
        -- intros [(H & _)|(_ & _ & [= <-])]; [contradiction | reflexivity].
        -- discriminate.
        -- intros [(H & _)|(_ & _ & H)]; [contradiction | discriminate].
    + replace (str_eqb (provider getenv) (py "anthropic")) with false
        by (unfold str_eqb;
            now destruct (list_eq_dec N.eq_dec (provider getenv)
                            (py "anthropic"))).
      split; [discriminate|].
      intros [(H & _)|(H & _)]; contradiction.
Qed.
End AnyEnvironment.

(** [create_llm_client] returns a client exactly when the lower-cased
    provider is one of the two supported ones, the key of that provider
    is set and not empty, and the constructor of that provider returns
    it; the key of the other provider is never consulted. *)
Theorem client_needs_provider_and_key (U : UnicodeData) (C : Type)
    (getenv : str -> option str) (OpenAIClient AnthropicClient : outcome C)
    (client : C) :
  create_llm_client getenv OpenAIClient AnthropicClient = Some client <->
  (provider getenv = py "openai"
   /\ env_missing getenv (py "OPENAI_API_KEY") = false
   /\ OpenAIClient = Returned client)
  \/ (provider getenv = py "anthropic"
      /\ env_missing getenv (py "ANTHROPIC_API_KEY") = false
      /\ AnthropicClient = Returned client).
Proof. apply create_llm_client_some. Qed.

(** The provider is read without regard to letter case, and is OpenAI
    when [PROVIDER] is not set: in both cases a client is returned
    exactly when the key of OpenAI is set and not empty and the
    constructor returns. *)
Theorem provider_defaults_to_openai (U : UnicodeData) (C : Type)
    (getenv : str -> option str) (OpenAIClient AnthropicClient : outcome C) :
  lower_faithful U ->
  (getenv (py "PROVIDER") = None
   \/ exists v, getenv (py "PROVIDER") = Some v /\ is_ascii v = true
                /\ @lower ascii_data v = py "openai") ->
  (env_missing getenv (py "OPENAI_API_KEY") = false ->
   forall client,
     create_llm_client getenv OpenAIClient AnthropicClient = Some client
     <-> OpenAIClient = Returned client)
  /\ (env_missing getenv (py "OPENAI_API_KEY") = true ->
      create_llm_client getenv OpenAIClient AnthropicClient = None).
Proof.
  intros HL Hp.
  assert (P : provider getenv = py "openai").
  { unfold provider, getenv_or.
    destruct Hp as [->|(v & -> & Hv & Hlow)].
    - rewrite HL by (vm_compute; reflexivity). vm_compute. reflexivity.
    - now rewrite HL. }
  assert (D : py "openai" <> py "anthropic")
    by (vm_compute; discriminate).
  split.
  - intros Hk client. rewrite create_llm_client_some. split.
    + intros [(_ & _ & H)|(H & _)]; [exact H | congruence].
    + intros H. left. now repeat split.
  - intros Hk.
    destruct (create_llm_client getenv OpenAIClient AnthropicClient)
      as [c|] eqn:E; [|reflexivity].
    apply create_llm_client_some in E as [(_ & H & _)|(H & _)]; congruence.
Qed.

Lemma provider_defaults_to_openai_witness :
  @create_llm_client ascii_data nat openai_env (Returned 1%nat)
    (Raised []) = Some 1%nat.
Proof.
  apply (proj1 (provider_defaults_to_openai ascii_data nat openai_env
                  (Returned 1%nat) (Raised [])
                  (fun s _ => eq_refl)
                  (or_intror
                     (ex_intro _ (py "OpenAI")
                        (conj eq_refl (conj eq_refl eq_refl)))))).
  - vm_compute. reflexivity.
  - reflexivity.
Defined.

End Factory.

(** ** The choice of a chart *)

Module Charts.
Import PyStr PyDict Effects Viz Spec Notions.
Import Registry.

Lemma dict_set_in {V : Type} (d : dict V) k v k' v' :
  In (k', v') (dict_set d k v) -> In (k', v') d \/ (k', v') = (k, v).
Proof.
  induction d as [|[k0 v0] d IH]; cbn [dict_set].
  - intros [H|[]]. right. now symmetry.
  - destruct (str_eqb k0 k) eqn:E.
    + apply str_eqb_eq in E. subst k0.
      intros [H|H]; [right; now symmetry | left; now right].
    + intros [H|H]; [left; now left|].
      destruct (IH H) as [H'|H']; [left; now right | now right].
Qed.

Lemma dict_set_keys {V : Type} (d : dict V) k v :
  dict_keys (dict_set d k v)
  = if existsb (str_eqb k) (dict_keys d) then dict_keys d
    else dict_keys d ++ [k].
Proof.
  unfold dict_keys. induction d as [|[k0 v0] d IH]; [reflexivity|].
  cbn [dict_set map fst existsb].
  destruct (str_eqb k0 k) eqn:E.
  - apply str_eqb_eq in E. subst k0. now rewrite str_eqb_refl.
  - assert (E' : str_eqb k k0 = false).
    { apply str_eqb_neq. intros ->. now rewrite str_eqb_refl in E. }
    rewrite E'. cbn [orb map fst]. rewrite IH.
    now destruct (existsb (str_eqb k) (map fst d)).
Qed.

Lemma existsb_str_eqb k l : existsb (str_eqb k) l = true <-> In k l.
Proof.
  rewrite existsb_exists. split.
  - intros (x & Hx & E). apply str_eqb_eq in E. now subst.
  - intros H. exists k. split; [exact H | apply str_eqb_refl].
Qed.

Lemma NoDup_keys_filter {V : Type} (p : str * V -> bool) (d : dict V) :
  NoDup (dict_keys d) -> NoDup (dict_keys (filter p d)).
Proof.
  unfold dict_keys. induction d as [|[k v] d IH]; [constructor|].
  cbn [map fst filter]. intros H. inversion H as [|? ? Hk Hd]; subst.
  destruct (p (k, v)); [|now apply IH].
  cbn [map fst]. constructor; [|now apply IH].
  intros Hin. apply Hk. apply in_map_iff in Hin as ([k' v'] & E & Hin).
  cbn [fst] in E. subst k'. apply filter_In in Hin as [Hin _].
  apply in_map_iff. now exists (k, v').
Qed.

Lemma two_members (l : list str) a b :
  In a l -> In b l -> a <> b -> (2 <= List.length l)%nat.
Proof.
  destruct l as [|x [|y l]]; cbn [In List.length]; intros Ha Hb Hab.
  - contradiction.
  - destruct Ha as [<-|[]], Hb as [<-|[]]. congruence.
  - lia.
Qed.

Section Frames.
Context {row : Type}.
Variable is_datetime64_any_dtype : DataFrame row -> str -> bool.
Variable is_numeric_dtype : DataFrame row -> str -> bool.
Variable df : DataFrame row.

Local Notation "'kind'" :=
  (column_type is_datetime64_any_dtype is_numeric_dtype df).
Local Notation "'types'" :=
  (detect_column_types is_datetime64_any_dtype is_numeric_dtype df).
Local Notation "'col'" :=
  (column_of_type is_datetime64_any_dtype is_numeric_dtype df).

Lemma detect_from cols : forall acc,
  NoDup (dict_keys acc) ->
  (forall k v, In (k, v) acc -> v = kind k) ->
  let d :=
    fold_left (fun column_types c => dict_set column_types c (kind c))
      cols acc in
  NoDup (dict_keys d)
  /\ (forall k v, In (k, v) d -> v = kind k)
  /\ (forall k, In k (dict_keys d) <-> In k (dict_keys acc) \/ In k cols).
Proof.
  induction cols as [|c cols IH]; intros acc Hnd Hv; cbn [fold_left].
  - repeat split; auto. intros [H|[]]. exact H.
  - destruct (IH (dict_set acc c (kind c))) as (H1 & H2 & H3).
    + rewrite dict_set_keys.
      destruct (existsb (str_eqb c) (dict_keys acc)) eqn:E; [exact Hnd|].
      apply NoDup_app; [exact Hnd | repeat constructor; intros [] |].
      intros x Hx [<-|[]]. apply existsb_str_eqb in Hx. congruence.
    + intros k v H. apply dict_set_in in H as [H|[= -> ->]];
        [now apply Hv | reflexivity].
    + split; [exact H1|]. split; [exact H2|].
      intros k. rewrite H3, dict_set_keys.
      destruct (existsb (str_eqb c) (dict_keys acc)) eqn:E.
      * apply existsb_str_eqb in E. cbn [In]. split.
        -- intros [H|H]; [now left | right; now right].
        -- intros [H|[<-|H]]; [now left | now left | now right].
      * rewrite in_app_iff. cbn [In]. tauto.
Qed.

Lemma detect_column_types_spec :
  NoDup (dict_keys types)
  /\ (forall k v, In (k, v) types -> v = kind k)
  /\ (forall k, In k (dict_keys types) <-> In k (df_columns df)).
Proof.
  destruct (detect_from (df_columns df) []) as (H1 & H2 & H3);
    [constructor | intros k v [] |].
  split; [exact H1|]. split; [exact H2|].
  intros k. rewrite (H3 k). cbn [dict_keys map In]. tauto.
Qed.

Lemma columns_of_spec t c : In c (columns_of t types) <-> col t c.
Proof.
  destruct detect_column_types_spec as (_ & Hv & Hk).
  unfold columns_of, column_of_type. rewrite in_map_iff. split.
  - intros ([k v] & E & Hin). cbn [fst] in E. subst k.
    apply filter_In in Hin as [Hin Ht]. cbn [snd] in Ht.
    split.
    + apply Hk. unfold dict_keys. apply in_map_iff. now exists (c, v).
    + rewrite <- (Hv _ _ Hin). now destruct v, t.
  - intros [Hin Ht]. apply Hk in Hin. unfold dict_keys in Hin.
    apply in_map_iff in Hin as ([k v] & E & Hin). cbn [fst] in E. subst k.
    exists (c, v). split; [reflexivity|]. apply filter_In.
    split; [exact Hin|]. cbn [snd]. rewrite (Hv _ _ Hin), Ht.
    now destruct t.
Qed.

Lemma columns_of_NoDup t : NoDup (columns_of t types).
Proof.
  apply (NoDup_keys_filter _ types).
  now destruct detect_column_types_spec.
Qed.

Lemma other_type_other_column t1 t2 a b :
  col t1 a -> col t2 b -> t1 <> t2 -> a <> b.
Proof. intros [_ Ha] [_ Hb] Ht E. subst b. congruence. Qed.

Lemma column_has_a_type c :
  In c (df_columns df) ->
  In c (columns_of datetime types) \/ In c (columns_of numeric types)
  \/ In c (columns_of categorical types).
Proof.
  intros H. rewrite !columns_of_spec. unfold column_of_type.
  destruct (kind c); tauto.
Qed.

(** The condition of the choice, on the columns of the table. *)
Lemma chosen_iff :
  ((2 <= List.length (df_rows df))%nat
   /\ columns_of numeric types <> []
   /\ (columns_of datetime types <> []
       \/ columns_of categorical types <> []
       \/ (2 <= List.length (columns_of numeric types))%nat))
  <-> ((2 <= List.length (df_rows df))%nat
       /\ (exists y, col numeric y)
       /\ (exists a b,
             In a (df_columns df) /\ In b (df_columns df) /\ a <> b)).
Proof.
  pose proof columns_of_spec as S.
  pose proof (columns_of_NoDup numeric) as NN.
  split.
  - intros (Hr & Hn & Hx). split; [exact Hr|].
    destruct (columns_of numeric types) as [|n1 N] eqn:EN; [congruence|].
    assert (Hn1 : col numeric n1) by (apply S; rewrite EN; now left).
    split; [now exists n1|].
    destruct Hx as [Hx|[Hx|Hx]].
    + destruct (columns_of datetime types) as [|d D] eqn:ED; [congruence|].
      assert (Hd : col datetime d) by (apply S; rewrite ED; now left).
      exists d, n1. split; [apply Hd|]. split; [apply Hn1|].
      apply (other_type_other_column _ _ _ _ Hd Hn1). discriminate.
    + destruct (columns_of categorical types) as [|c Cc] eqn:EC;
        [congruence|].
      assert (Hc : col categorical c) by (apply S; rewrite EC; now left).
      exists c, n1. split; [apply Hc|]. split; [apply Hn1|].
      apply (other_type_other_column _ _ _ _ Hc Hn1). discriminate.
    + destruct N as [|n2 N]; [cbn in Hx; lia|].
      assert (Hn2 : col numeric n2)
        by (apply S; rewrite EN; right; now left).
      exists n1, n2. split; [apply Hn1|]. split; [apply Hn2|].
      inversion NN as [|? ? Hnot _]; subst. intros ->. apply Hnot.
      now left.
  - intros (Hr & (y & Hy) & (a & b & Ha & Hb & Hab)).
    split; [exact Hr|]. apply S in Hy.
    split; [intros E0; rewrite E0 in Hy; contradiction|].
    destruct (column_has_a_type a Ha) as [Ka|[Ka|Ka]].
    + left. intros E0. rewrite E0 in Ka. contradiction.
    + destruct (column_has_a_type b Hb) as [Kb|[Kb|Kb]].
      * left. intros E0. rewrite E0 in Kb. contradiction.
      * right. right. now apply (two_members _ a b).
      * right. left. intros E0. rewrite E0 in Kb. contradiction.
    + right. left. intros E0. rewrite E0 in Ka. contradiction.
Qed.
End Frames.

(** *** The chart helpers *)

Section Helpers.
Context {row : Type}.
Variable is_datetime64_any_dtype : DataFrame row -> str -> bool.
Variable is_numeric_dtype : DataFrame row -> str -> bool.
Variable px_raises : DataFrame row -> Figure -> option str.
Variable update_layout_raises : Figure -> Layout -> option str.
Variable nlargest : DataFrame row -> nat -> str -> outcome (DataFrame row).
Variable nunique_exceeds : DataFrame row -> str -> nat -> outcome bool.
Variable top_categories :
  DataFrame row -> str -> str -> outcome (DataFrame row).
Variable df : DataFrame row.
Variable title : str.

Local Notation "'types'" :=
  (detect_column_types is_datetime64_any_dtype is_numeric_dtype df).
Local Notation "'col'" :=
  (column_of_type is_datetime64_any_dtype is_numeric_dtype df).
Local Notation "'sound'" :=
  (sound_result is_datetime64_any_dtype is_numeric_dtype px_raises
     update_layout_raises nlargest nunique_exceeds top_categories df title).
Local Notation "'blamed'" :=
  (raised_by_a_call is_datetime64_any_dtype is_numeric_dtype px_raises
     update_layout_raises nlargest nunique_exceeds top_categories df).


Lemma title_or_given default :
  title <> [] -> title_or title default = title.
Proof. destruct title; [congruence | reflexivity]. Qed.

(** A plotly express call, then its layout update. *)
Lemma px_sound df_plot fig :
  fits is_datetime64_any_dtype is_numeric_dtype df fig ->
  (title <> [] -> figure_title fig = title) ->
  sound (px px_raises df_plot fig).
Proof.
  intros Hf Ht. unfold px, sound_result.
  destruct (px_raises df_plot fig) as [e|] eqn:E; [|now split].
  left. now exists df_plot, fig.
Qed.

Lemma update_layout_sound fig layout :
  fits is_datetime64_any_dtype is_numeric_dtype df fig ->
  (title <> [] -> figure_title fig = title) ->
  sound (update_layout update_layout_raises fig layout).
Proof.
  intros Hf Ht. unfold update_layout, sound_result.
  destruct (update_layout_raises fig layout) as [e|] eqn:E; [|now split].
  right. left. now exists fig, layout.
Qed.

Lemma px_then_layout_sound df_plot fig (layout : Figure -> Layout) :
  fits is_datetime64_any_dtype is_numeric_dtype df fig ->
  (title <> [] -> figure_title fig = title) ->
  sound (and_then (px px_raises df_plot fig)
           (fun f => update_layout update_layout_raises f (layout f))).
Proof.
  intros Hf Ht. pose proof (px_sound df_plot fig Hf Ht) as H.
  unfold px in *. destruct (px_raises df_plot fig) as [e|];
    cbn [and_then]; [exact H|].
  now apply update_layout_sound.
Qed.

Lemma create_timeseries_chart_sound t n N Cc :
  col datetime t -> col numeric n ->
  (forall c, In c Cc -> col categorical c) ->
  sound (create_timeseries_chart px_raises update_layout_raises df t
           (n :: N) Cc title).
Proof.
  intros Ht Hn Hc. unfold create_timeseries_chart.
  cbn [item nth_error and_then].
  destruct Cc as [|c Cc]; cbn [item nth_error and_then].
  - apply (px_then_layout_sound df _ (fun _ => _)).
    + cbn [fits]. split; [exact Ht|]. split; [exact Hn|]. discriminate.
    + apply title_or_given.
  - apply (px_then_layout_sound df _ (fun _ => _)).
    + cbn [fits]. split; [exact Ht|]. split; [exact Hn|].
      intros c0 [= <-]. apply Hc. now left.
    + apply title_or_given.
Qed.

Lemma create_bar_chart_sound c n :
  col categorical c -> col numeric n ->
  sound (create_bar_chart px_raises update_layout_raises nlargest df c n
           title).
Proof.
  intros Hc Hn. unfold create_bar_chart.
  assert (F : fits is_datetime64_any_dtype is_numeric_dtype df
                (px_bar c n None
                   (title_or title (c ++ py "別 " ++ n)))).
  { cbn [fits]. split; [exact Hc|]. split; [exact Hn|]. discriminate. }
  destruct (Nat.ltb 20 (List.length (df_rows df))).
  - destruct (nlargest df 20 n) as [df_plot|e] eqn:E; cbn [and_then].
    + apply (px_then_layout_sound df_plot _
               (fun _ => {| xaxis_title := c; yaxis_title := n;
                            hovermode := None;
                            xaxis_tickangle :=
                              Some (Nat.ltb 10
                                      (List.length (df_rows df_plot)));
                            barmode := None |}));
        [exact F | apply title_or_given].
    + right. right. left. now exists 20%nat, n.
  - cbn [and_then].
    apply (px_then_layout_sound df _
             (fun _ => {| xaxis_title := c; yaxis_title := n;
                          hovermode := None;
                          xaxis_tickangle :=
                            Some (Nat.ltb 10 (List.length (df_rows df)));
                          barmode := None |}));
      [exact F | apply title_or_given].
Qed.

Lemma create_stacked_bar_chart_sound c1 c2 n :
  col categorical c1 -> col categorical c2 -> c2 <> c1 ->
  col numeric n ->
  sound (create_stacked_bar_chart px_raises update_layout_raises
           nunique_exceeds top_categories df [c1; c2] n title).
Proof.
  intros H1 H2 Hne Hn. unfold create_stacked_bar_chart.
  cbn [item nth_error and_then].
  set (fig := px_bar c1 n (Some c2) _).
  assert (F : fits is_datetime64_any_dtype is_numeric_dtype df fig).
  { cbn [fits]. split; [exact H1|]. split; [exact Hn|].
    intros c [= <-]. now split. }
  assert (T : title <> [] -> figure_title fig = title)
    by apply title_or_given.
  assert (K : forall df_plot,
    sound (and_then (px px_raises df_plot fig)
             (fun fig0 =>
                and_then (nunique_exceeds df_plot c1 10)
                  (fun crowded =>
                     update_layout update_layout_raises fig0
                       {| xaxis_title := c1; yaxis_title := n;
                          hovermode := None;
                          xaxis_tickangle := Some crowded;
                          barmode := Some (py "stack") |})))).
  { intros df_plot. pose proof (px_sound df_plot fig F T) as P.
    unfold px in *. destruct (px_raises df_plot fig) as [e|];
      cbn [and_then]; [exact P|].
    destruct (nunique_exceeds df_plot c1 10) as [crowded|e] eqn:E;
      cbn [and_then].
    - now apply update_layout_sound.
    - right. right. right. left. now exists df_plot, c1, 10%nat. }
  destruct (nunique_exceeds df c1 15) as [many|e] eqn:E; cbn [and_then].
  - destruct many.
    + destruct (top_categories df c1 n) as [df_plot|e] eqn:E2;
        cbn [and_then]; [apply K|].
      right. right. right. right. now exists c1, n.
    + cbn [and_then]. apply K.
  - right. right. right. left. now exists df, c1, 15%nat.
Qed.

Lemma create_numeric_chart_sound n1 n2 N :
  col numeric n1 -> col numeric n2 -> n1 <> n2 ->
  sound (create_numeric_chart px_raises df (n1 :: n2 :: N) title).
Proof.
  intros H1 H2 Hne. unfold create_numeric_chart.
  cbn [List.length Nat.leb item nth_error and_then].
  apply px_sound; [|apply title_or_given].
  cbn [fits]. now repeat split; try apply H1; try apply H2.
Qed.

(** *** The choice *)

Lemma chart_dispatch :
  let r :=
    create_automatic_visualization is_datetime64_any_dtype
      is_numeric_dtype px_raises update_layout_raises nlargest
      nunique_exceeds top_categories df title in
  let chosen :=
    (2 <= List.length (df_rows df))%nat
    /\ columns_of numeric types <> []
    /\ (columns_of datetime types <> []
        \/ columns_of categorical types <> []
        \/ (2 <= List.length (columns_of numeric types))%nat) in
  (r = Returned None /\ ~ chosen)
  \/ (chosen /\ exists h, sound h /\ r = some_figure h).
Proof.
  cbv zeta. unfold create_automatic_visualization. cbv zeta.
  pose proof (columns_of_spec is_datetime64_any_dtype is_numeric_dtype df
                datetime) as HD.
  pose proof (columns_of_spec is_datetime64_any_dtype is_numeric_dtype df
                numeric) as HN.
  pose proof (columns_of_spec is_datetime64_any_dtype is_numeric_dtype df
                categorical) as HC.
  pose proof (columns_of_NoDup is_datetime64_any_dtype is_numeric_dtype df
                numeric) as NN.
  pose proof (columns_of_NoDup is_datetime64_any_dtype is_numeric_dtype df
                categorical) as NC.
  destruct (df_empty df) eqn:Ee.
  { left. split; [reflexivity|]. intros (Hr & Hn & _).
    unfold df_empty in Ee.
    apply orb_true_iff in Ee as [Ee|Ee]; apply Nat.eqb_eq in Ee.
    - destruct (columns_of numeric types) as [|n l]; [congruence|].
      destruct (proj1 (HN n) (or_introl eq_refl)) as [Hin _].
      destruct (df_columns df); [contradiction | discriminate Ee].
    - lia. }
  destruct (Nat.ltb (List.length (df_rows df)) 2) eqn:Er.
  { left. split; [reflexivity|]. intros (Hr & _).
    apply Nat.ltb_lt in Er. lia. }
  apply Nat.ltb_ge in Er.
  destruct (columns_of datetime types) as [|d D];
    destruct (columns_of numeric types) as [|n1 [|n2 N]];
    destruct (columns_of categorical types) as [|c1 [|c2 Cc]];
    cbn [List.length Nat.leb andb item nth_error firstn and_then].
  all: try (left; split; [reflexivity|];
            intros (_ & Hn & Hx); try congruence;
            destruct Hx as [Hx|[Hx|Hx]]; try congruence;
            cbn [List.length] in Hx; lia).
  all: right; split;
    [ split; [exact Er|]; split; [discriminate|];
      first [ left; discriminate | right; left; discriminate
            | right; right; cbn [List.length]; lia ]
    | eexists; split; [|reflexivity] ].
  all: first
    [ apply create_timeseries_chart_sound
    | apply create_stacked_bar_chart_sound
    | apply create_bar_chart_sound
    | apply create_numeric_chart_sound ].
  all: try (first [ apply HD | apply HN | apply HC ]; cbn [In]; tauto).
  all: try (intros c0 Hc0; apply HC; exact Hc0).
  all: try (inversion NC as [|? ? Hnot _]; subst; intros ->; apply Hnot;
            now left).
  all: try (inversion NN as [|? ? Hnot _]; subst; intros ->; apply Hnot;
            now left).
Qed.

Lemma chart_outcome :
  let r :=
    create_automatic_visualization is_datetime64_any_dtype
      is_numeric_dtype px_raises update_layout_raises nlargest
      nunique_exceeds top_categories df title in
  let chosen :=
    (2 <= List.length (df_rows df))%nat
    /\ columns_of numeric types <> []
    /\ (columns_of datetime types <> []
        \/ columns_of categorical types <> []
        \/ (2 <= List.length (columns_of numeric types))%nat) in
  (forall fig, r = Returned (Some fig) ->
     fits is_datetime64_any_dtype is_numeric_dtype df fig
     /\ (title <> [] -> figure_title fig = title))
  /\ (forall e, r = Raised e -> blamed e)
  /\ (r <> Returned None <-> chosen)
  /\ (r = Returned None <-> ~ chosen).
Proof.
  cbv zeta.
  destruct chart_dispatch as [[E Hno] | [Hyes (h & Hs & E)]];
    cbv zeta in *; rewrite E.
  - split; [discriminate|]. split; [discriminate|].
    split; [split; [congruence | intros H; contradiction]|].
    split; [intros _; exact Hno | reflexivity].
  - unfold sound_result in Hs. unfold some_figure.
    destruct h as [fig|e]; cbn [and_then].
    + split; [intros f [= <-]; exact Hs|]. split; [discriminate|].
      split; [split; [intros _; exact Hyes | discriminate]|].
      split; [discriminate | intros H; contradiction].
    + split; [discriminate|]. split; [intros e' [= <-]; exact Hs|].
      split; [split; [intros _; exact Hyes | discriminate]|].
      split; [discriminate | intros H; contradiction].
Qed.
End Helpers.

(** The figure [create_automatic_visualization] makes fits the table: a
    line has a datetime column on x, bars have a categorical column on
    x, both have a numeric column on y and at most a categorical column
    (other than the one on x) as colour; a scatter plot has two
    different numeric columns; a histogram is never made.  When the
    function raises, the exception is one raised by a call into pandas
    or plotly on such a figure or on the rows: its own indexing of the
    column lists never fails.  So it returns whenever those calls do. *)
Theorem chart_fits_the_table (row : Type)
    (is_datetime64_any_dtype is_numeric_dtype : DataFrame row -> str -> bool)
    (px_raises : DataFrame row -> Figure -> option str)
    (update_layout_raises : Figure -> Layout -> option str)
    (nlargest : DataFrame row -> nat -> str -> outcome (DataFrame row))
    (nunique_exceeds : DataFrame row -> str -> nat -> outcome bool)
    (top_categories : DataFrame row -> str -> str -> outcome (DataFrame row))
    (df : DataFrame row) (title : str) :
  let r :=
    create_automatic_visualization is_datetime64_any_dtype
      is_numeric_dtype px_raises update_layout_raises nlargest
      nunique_exceeds top_categories df title in
  (forall fig, r = Returned (Some fig) ->
     fits is_datetime64_any_dtype is_numeric_dtype df fig)
  /\ (forall e, r = Raised e ->
        raised_by_a_call is_datetime64_any_dtype is_numeric_dtype
          px_raises update_layout_raises nlargest nunique_exceeds
          top_categories df e)
  /\ (calls_return px_raises update_layout_raises nlargest
        nunique_exceeds top_categories ->
      exists result, r = Returned result).
Proof.
  cbv zeta.
  destruct (chart_outcome is_datetime64_any_dtype is_numeric_dtype
              px_raises update_layout_raises nlargest nunique_exceeds
              top_categories df title) as (Hfit & Hraise & _).
  cbv zeta in *.
  split; [intros fig H; now apply Hfit|]. split; [exact Hraise|].
  intros (P & L & NL & NU & TC).
  destruct (create_automatic_visualization _ _ _ _ _ _ _ df title)
    as [result|e]; [now exists result|].
  exfalso.
  destruct (Hraise e eq_refl)
    as [(d & f & _ & H)|[(f & l & _ & H)|[(n & c & H)|[(d & c & n & H)
       |(x & y & H)]]]].
  - rewrite P in H. discriminate H.
  - rewrite L in H. discriminate H.
  - destruct (NL df n c) as (v & E). congruence.
  - destruct (NU d c n) as (v & E). congruence.
  - destruct (TC df x y) as (v & E). congruence.
Qed.

Lemma chart_fits_the_table_witness :
  fits (fun _ _ => false) revenue_is_numeric region_revenue
    (px_bar (py "region") (py "total_revenue") None
       (py "region" ++ py "別 " ++ py "total_revenue"))
  /\ raised_by_a_call (fun _ _ => false) revenue_is_numeric
       px_needs_distinct (fun _ _ => None)
       (fun df _ _ => Returned df) (fun _ _ _ => Returned false)
       (fun df _ _ => Returned df) repeated_labels DuplicateError.
Proof.
  split.
  - apply (proj1 (chart_fits_the_table unit (fun _ _ => false)
                    revenue_is_numeric (fun _ _ => None) (fun _ _ => None)
                    (fun df _ _ => Returned df)
                    (fun _ _ _ => Returned false)
                    (fun df _ _ => Returned df) region_revenue [])).
    vm_compute. reflexivity.
  - apply (proj1 (proj2 (chart_fits_the_table unit (fun _ _ => false)
                           revenue_is_numeric px_needs_distinct
                           (fun _ _ => None) (fun df _ _ => Returned df)
                           (fun _ _ _ => Returned false)
                           (fun df _ _ => Returned df) repeated_labels
                           []))).
    vm_compute. reflexivity.
Defined.

(** [create_automatic_visualization] returns [None] (no figure and no
    exception) exactly when the table has fewer than two rows, or no
    numeric column, or no two columns with different labels.  For every
    other table it makes its plotly express call, and gives the figure
    or the exception of a call; so when no call into pandas or plotly
    raises, a figure is made exactly for the tables with two rows, a
    numeric column and two different labels. *)
Theorem chart_is_made_iff (row : Type)
    (is_datetime64_any_dtype is_numeric_dtype : DataFrame row -> str -> bool)
    (px_raises : DataFrame row -> Figure -> option str)
    (update_layout_raises : Figure -> Layout -> option str)
    (nlargest : DataFrame row -> nat -> str -> outcome (DataFrame row))
    (nunique_exceeds : DataFrame row -> str -> nat -> outcome bool)
    (top_categories : DataFrame row -> str -> str -> outcome (DataFrame row))
    (df : DataFrame row) (title : str) :
  let r :=
    create_automatic_visualization is_datetime64_any_dtype
      is_numeric_dtype px_raises update_layout_raises nlargest
      nunique_exceeds top_categories df title in
  let chosen :=
    (2 <= List.length (df_rows df))%nat
    /\ (exists y,
          column_of_type is_datetime64_any_dtype is_numeric_dtype df
            numeric y)
    /\ (exists a b,
          In a (df_columns df) /\ In b (df_columns df) /\ a <> b) in
  (r = Returned None <-> ~ chosen)
  /\ (r <> Returned None <-> chosen)
  /\ ((exists fig, r = Returned (Some fig)) -> chosen)
  /\ (calls_return px_raises update_layout_raises nlargest
        nunique_exceeds top_categories ->
      ((exists fig, r = Returned (Some fig)) <-> chosen)).
Proof.
  cbv zeta.
  destruct (chart_outcome is_datetime64_any_dtype is_numeric_dtype
              px_raises update_layout_raises nlargest nunique_exceeds
              top_categories df title) as (_ & Hraise & Hiff & Hnone).
  cbv zeta in *.
  rewrite (chosen_iff is_datetime64_any_dtype is_numeric_dtype df)
    in Hiff, Hnone.
  split; [exact Hnone|]. split; [exact Hiff|].
  assert (X : (exists fig,
                 create_automatic_visualization is_datetime64_any_dtype
                   is_numeric_dtype px_raises update_layout_raises
                   nlargest nunique_exceeds top_categories df title
                 = Returned (Some fig)) ->
              (2 <= List.length (df_rows df))%nat
              /\ (exists y,
                    column_of_type is_datetime64_any_dtype
                      is_numeric_dtype df numeric y)
              /\ (exists a b,
                    In a (df_columns df) /\ In b (df_columns df)
                    /\ a <> b)).
  { intros (fig & E). apply Hiff. rewrite E. discriminate. }
  split; [exact X|].
  intros (P & L & NL & NU & TC). split; [exact X|].
  intros Hc. apply Hiff in Hc.
  destruct (create_automatic_visualization _ _ _ _ _ _ _ df title)
    as [[fig|]|e]; [now exists fig | congruence |].
  exfalso.
  destruct (Hraise e eq_refl)
    as [(d & f & _ & H)|[(f & l & _ & H)|[(n & c & H)|[(d & c & n & H)
       |(x & y & H)]]]].
  - rewrite P in H. discriminate H.
  - rewrite L in H. discriminate H.
  - destruct (NL df n c) as (v & E). congruence.
  - destruct (NU d c n) as (v & E). congruence.
  - destruct (TC df x y) as (v & E). congruence.
Qed.

Lemma chart_is_made_iff_witness :
  create_automatic_visualization (fun _ _ => false) revenue_is_numeric
    px_needs_distinct (fun _ _ => None) (fun df _ _ => Returned df)
    (fun _ _ _ => Returned false) (fun df _ _ => Returned df)
    repeated_labels [] <> Returned None.
Proof.
  apply (proj2 (proj1 (proj2 (chart_is_made_iff unit (fun _ _ => false)
                         revenue_is_numeric px_needs_distinct
                         (fun _ _ => None) (fun df _ _ => Returned df)
                         (fun _ _ _ => Returned false)
                         (fun df _ _ => Returned df) repeated_labels
                         [])))).
  split; [cbn; lia|]. split.
  - exists (py "total_revenue"). split; [right; right; now left|].
    vm_compute. reflexivity.
  - exists (py "region"), (py "total_revenue").
    split; [now left|]. split; [right; right; now left|].
    vm_compute. discriminate.
Defined.

(** A title that is not empty is the title of the figure, whatever chart
    is chosen: the default titles are used for the empty title only. *)
Theorem given_title_is_used (row : Type)
    (is_datetime64_any_dtype is_numeric_dtype : DataFrame row -> str -> bool)
    (px_raises : DataFrame row -> Figure -> option str)
    (update_layout_raises : Figure -> Layout -> option str)
    (nlargest : DataFrame row -> nat -> str -> outcome (DataFrame row))
    (nunique_exceeds : DataFrame row -> str -> nat -> outcome bool)
    (top_categories : DataFrame row -> str -> str -> outcome (DataFrame row))
    (df : DataFrame row) (title : str) (fig : Figure) :
  title <> [] ->
  create_automatic_visualization is_datetime64_any_dtype is_numeric_dtype
    px_raises update_layout_raises nlargest nunique_exceeds
    top_categories df title = Returned (Some fig) ->
  figure_title fig = title.
Proof.
  intros Ht E.
  destruct (chart_outcome is_datetime64_any_dtype is_numeric_dtype
              px_raises update_layout_raises nlargest nunique_exceeds
              top_categories df title) as (Hfit & _).
  cbv zeta in Hfit. now apply (Hfit fig E).
Qed.

Lemma given_title_is_used_witness :
  figure_title
    (px_bar (py "region") (py "total_revenue") None (py "by region"))
  = py "by region".
Proof.
  apply (given_title_is_used unit (fun _ _ => false) revenue_is_numeric
           (fun _ _ => None) (fun _ _ => None) (fun df _ _ => Returned df)
           (fun _ _ _ => Returned false) (fun df _ _ => Returned df)
           region_revenue (py "by region")).
  - vm_compute. discriminate.
  - vm_compute. reflexivity.
Defined.

End Charts.
